(** * Download Sorter for Firefox: rule matching and download routing

    A shallow embedding of the background script (SecurityUtils,
    StorageManager, FileMatcherService, DownloadInterceptor) and of the
    options page's OptionsSecurityUtils, with the properties of the
    routing engine stated and proved over it.

    Strings.  A JavaScript string is a sequence of UTF-16 code units.  It is
    modelled as [list ascii], one [ascii] per code unit; the embedding
    covers the code units 0..255 (ASCII and the Latin-1 supplement), a range
    closed under every string operation the program uses. *)

From Stdlib Require Import List Ascii String ZArith NArith Bool Lia.
From Stdlib Require QArith DecimalString.
From stdpp Require Import base gmap strings.
Import ListNotations.

Local Open Scope bool_scope.
Local Open Scope list_scope.

Abbreviation jsstring := (list ascii).

(** [str "abc"] is the JavaScript string literal ['abc']. *)
Definition str (s : string) : jsstring := list_ascii_of_string s.

(** ** Code units and character classes *)

Definition code (c : ascii) : N := N_of_ascii c.

Definition in_range (lo hi : N) (c : ascii) : bool :=
  (lo <=? code c)%N && (code c <=? hi)%N.

Definition is_char (d c : ascii) : bool := Ascii.eqb c d.

(** WhiteSpace and LineTerminator of ECMAScript, as used by
    [String.prototype.trim] and by the regular expression class [\s]:
    TAB, LF, VT, FF, CR, SP and NBSP (the others lie above U+00FF). *)
Definition isWhiteSpace (c : ascii) : bool :=
  in_range 9 13 c || (code c =? 32)%N || (code c =? 160)%N.

(** LineTerminator: what the regular expression atom [.] refuses. *)
Definition isLineTerminator (c : ascii) : bool :=
  (code c =? 10)%N || (code c =? 13)%N.

Definition is_digit (c : ascii) : bool := in_range 48 57 c.
Definition is_lower_az (c : ascii) : bool := in_range 97 122 c.
Definition is_upper_AZ (c : ascii) : bool := in_range 65 90 c.

(** Code units that [toLowerCase] changes: A-Z, and U+00C0..U+00DE
    without the multiplication sign U+00D7. *)
Definition has_lower (c : ascii) : bool :=
  is_upper_AZ c || (in_range 192 222 c && negb (code c =? 215)%N).

Definition toLowerChar (c : ascii) : ascii :=
  if has_lower c then ascii_of_N (code c + 32) else c.

(** ** String.prototype operations *)

Definition toLowerCase (s : jsstring) : jsstring := map toLowerChar s.

Fixpoint jsstring_eqb (a b : jsstring) : bool :=
  match a, b with
  | [], [] => true
  | x :: a', y :: b' => Ascii.eqb x y && jsstring_eqb a' b'
  | _, _ => false
  end.

Fixpoint startsWith (s p : jsstring) {struct p} : bool :=
  match p, s with
  | [], _ => true
  | x :: p', y :: s' => Ascii.eqb x y && startsWith s' p'
  | _ :: _, [] => false
  end.

(** [s.includes(sub)]: [sub] occurs in [s] at some position. *)
Fixpoint includes (s sub : jsstring) : bool :=
  startsWith s sub ||
  match s with
  | [] => false
  | _ :: s' => includes s' sub
  end.

Definition endsWith (s suf : jsstring) : bool :=
  startsWith (rev s) (rev suf).

Fixpoint trimStart (s : jsstring) : jsstring :=
  match s with
  | c :: s' => if isWhiteSpace c then trimStart s' else s
  | [] => []
  end.

Definition trimEnd (s : jsstring) : jsstring := rev (trimStart (rev s)).

Definition trim (s : jsstring) : jsstring := trimEnd (trimStart s).

(** [s.substring(0, n)]. *)
Definition substring_to (n : nat) (s : jsstring) : jsstring := firstn n s.

(** [s.substring(i)] for an index [i >= 0]. *)
Definition substring_from (i : Z) (s : jsstring) : jsstring :=
  skipn (Z.to_nat i) s.

(** [s.lastIndexOf(c)], [-1] when [c] does not occur. *)
Fixpoint lastIndexOf (c : ascii) (s : jsstring) : Z :=
  match s with
  | [] => -1
  | x :: s' =>
      let r := lastIndexOf c s' in
      if (0 <=? r)%Z then (r + 1)%Z
      else if Ascii.eqb x c then 0%Z else (-1)%Z
  end.

(** [s.split(c)] for a one-character separator: never the empty array. *)
Fixpoint split (c : ascii) (s : jsstring) : list jsstring :=
  match s with
  | [] => [[]]
  | x :: s' =>
      if Ascii.eqb x c then [] :: split c s'
      else match split c s' with
           | p :: ps => (x :: p) :: ps
           | [] => [[x]]
           end
  end.

(** [parts.join(sep)]. *)
Fixpoint join (sep : jsstring) (parts : list jsstring) : jsstring :=
  match parts with
  | [] => []
  | [p] => p
  | p :: ps => p ++ sep ++ join sep ps
  end.

(** [arr.pop()] on the result of a split; [arr[0]] likewise. *)
Definition pop (parts : list jsstring) : jsstring := List.last parts [].
Definition first (parts : list jsstring) : jsstring := hd [] parts.

(** [s.replace(/c/g, by)] for a one-character pattern. *)
Definition replace_char (c : ascii) (by_ : jsstring) (s : jsstring) : jsstring :=
  flat_map (fun x => if Ascii.eqb x c then by_ else [x]) s.

(** [s.replace(/\s/g, '')]. *)
Definition remove_whitespace (s : jsstring) : jsstring :=
  List.filter (fun c => negb (isWhiteSpace c)) s.

(** Truthiness of a string: the empty string is falsy. *)
Definition truthy (s : jsstring) : bool :=
  match s with [] => false | _ => true end.

(** [a || b] on strings. *)
Definition or_else (a b : jsstring) : jsstring := if truthy a then a else b.

(** ** JavaScript values

    What the storage collaborator hands back and what [JSON.parse] builds.
    A number is kept as the rational it denotes; an object as its
    properties in insertion order. *)

#[local] Unset Elimination Schemes.

Inductive jsval : Type :=
  | JUndefined
  | JNull
  | JBool (b : bool)
  | JNum (q : QArith_base.Q)
  | JStr (s : jsstring)
  | JArr (items : list jsval)
  | JObj (props : list (jsstring * jsval)).

#[local] Set Elimination Schemes.

(** ToBoolean. *)
Definition ToBoolean (v : jsval) : bool :=
  match v with
  | JUndefined | JNull => false
  | JBool b => b
  | JNum q => negb (QArith_base.Qeq_bool q (QArith_base.Qmake 0 1))
  | JStr s => truthy s
  | JArr _ | JObj _ => true
  end.

(** [typeof v === 'object']: objects, arrays and [null]. *)
Definition typeof_object (v : jsval) : bool :=
  match v with
  | JNull | JArr _ | JObj _ => true
  | _ => false
  end.

Fixpoint lookup_prop (k : jsstring) (props : list (jsstring * jsval)) : jsval :=
  match props with
  | [] => JUndefined
  | (k', v) :: rest => if jsstring_eqb k' k then v else lookup_prop k rest
  end.

(** [v.k] for one of the property names [id], [extension], [foldername],
    none of which an array or a prototype defines. *)
Definition get_prop (v : jsval) (k : jsstring) : jsval :=
  match v with
  | JObj props => lookup_prop k props
  | _ => JUndefined
  end.

(** [a || b] on values. *)
Definition val_or (a b : jsval) : jsval := if ToBoolean a then a else b.

(** The object [new URL(url)] builds, restricted to the fields read. *)
Record URL : Type := mkURL {
  protocol : jsstring;
  hostname : jsstring;
  pathname : jsstring;
  search : jsstring
}.

(** The host platform: the [URL] constructor ([None] when it throws a
    TypeError), [JSON.parse] ([None] when it throws a SyntaxError), the
    [String] conversion of a value that is not a string, and
    [new RegExp(source).test(input)] for a source outside the fragment of
    regular expressions interpreted below ([None] when the constructor
    throws a SyntaxError). *)
Class Host : Type := {
  URL_new : jsstring -> option URL;
  JSON_parse : jsstring -> option jsval;
  ToString : jsval -> jsstring;
  RegExp_test : jsstring -> jsstring -> option bool
}.

(** [String(v)]. *)
Definition String_ `{Host} (v : jsval) : jsstring :=
  match v with
  | JStr s => s
  | _ => ToString v
  end.

(** [JSON.stringify(v)]; [None] when the answer is [undefined]. *)
Class Serializer : Type := {
  JSON_stringify : jsval -> option jsstring
}.

(** ** SecurityUtils (background script) *)

Module SecurityUtils.

(** The characters removed first: less-than, greater-than, colon, double
    quote, slash, backslash, bar, question mark, asterisk. *)
Definition reserved_chars : jsstring :=
  ["<"; ">"; ":"; ascii_of_N 34; "/"; "\"; "|"; "?"; "*"]%char.

Definition reserved (c : ascii) : bool :=
  existsb (Ascii.eqb c) reserved_chars.

(** [.replace(/[<>:...]/g, '')]. *)
Definition remove_reserved (s : jsstring) : jsstring :=
  List.filter (fun c => negb (reserved c)) s.

(** [.replace(/\.\./g, '')]: leftmost, non-overlapping pairs of dots. *)
Fixpoint remove_dotdot (s : jsstring) : jsstring :=
  match s with
  | [] => []
  | c :: t =>
      match t with
      | d :: t' =>
          if is_char "." c && is_char "." d then remove_dotdot t'
          else c :: remove_dotdot t
      | [] => [c]
      end
  end.

(** [.replace(/^\./, '')]. *)
Definition remove_leading_dot (s : jsstring) : jsstring :=
  match s with
  | c :: t => if is_char "." c then t else s
  | [] => []
  end.

(** The chain of string operations shared by both sanitizers. *)
Definition sanitize_chain (s : jsstring) : jsstring :=
  substring_to 100 (trim (remove_leading_dot (remove_dotdot (remove_reserved s)))).

Definition sanitizeFolderName (folderName : jsval) : jsstring :=
  match folderName with
  | JStr s => or_else (sanitize_chain s) (str "downloads")
  | _ => str "downloads"
  end.

(** The character class [[a-zA-Z0-9,.*]]. *)
Definition pattern_char (c : ascii) : bool :=
  is_lower_az c || is_upper_AZ c || is_digit c ||
  is_char "," c || is_char "." c || is_char "*" c.

(** [/^[a-zA-Z0-9,.*]+$/.test(s)]. *)
Definition pattern_regex_test (s : jsstring) : bool :=
  truthy s && forallb pattern_char s.

Definition isValidExtensionPattern (pattern : jsval) : bool :=
  match pattern with
  | JStr s => if (200 <? length s)%nat then false else pattern_regex_test s
  | _ => false
  end.

Definition isValidDownloadUrl `{Host} (url : jsstring) : bool :=
  match URL_new url with
  | Some urlObj =>
      existsb (jsstring_eqb (protocol urlObj)) [str "http:"; str "https:"]
  | None => false
  end.

End SecurityUtils.

(** ** OptionsSecurityUtils (options page) *)

Module OptionsSecurityUtils.

Definition sanitizeFolderName (folderName : jsval) : jsstring :=
  match folderName with
  | JStr s => SecurityUtils.sanitize_chain s
  | _ => []
  end.

(** The character class [[a-zA-Z0-9,.*\s]]. *)
Definition pattern_char (c : ascii) : bool :=
  SecurityUtils.pattern_char c || isWhiteSpace c.

Definition isValidExtensionPattern (pattern : jsval) : bool :=
  match pattern with
  | JStr s =>
      if (200 <? length s)%nat then false
      else truthy s && forallb pattern_char s
  | _ => false
  end.

End OptionsSecurityUtils.

(** ** Rules and their defaults *)

Record Rule : Type := mkRule {
  id : jsstring;
  extension : jsstring;
  foldername : jsstring
}.

Definition DEFAULT_RULES : list Rule :=
  [ mkRule (str "default-1") (str "jpg,jpeg,gif,png,webp,svg") (str "images");
    mkRule (str "default-2") (str "zip,7z,tar,gz,rar") (str "compression");
    mkRule (str "default-3") (str "exe,msi,dmg,deb") (str "executables");
    mkRule (str "default-4") (str "pdf,doc,docx,txt,rtf") (str "documents");
    mkRule (str "default-5") (str "mp4,avi,mkv,mov,wmv") (str "videos");
    mkRule (str "default-6") (str "mp3,wav,flac,aac,m4a") (str "audio") ].

Definition DEFAULT_FOLDER : jsstring := str "downloads".

(** A rule as the object literal the code writes. *)
Definition rule_object (r : Rule) : jsval :=
  JObj [ (str "id", JStr (id r));
         (str "extension", JStr (extension r));
         (str "foldername", JStr (foldername r)) ].

(** ** StorageManager

    [get] is the storage collaborator; its answer for a key is an input of
    the functions below ([JUndefined] when the key is absent, [JNull] when
    reading failed). *)

Module StorageManager.

Section WithHost.
Context `{Host}.

Definition getDefaultFolder (folder : jsval) : jsstring :=
  or_else (SecurityUtils.sanitizeFolderName folder) DEFAULT_FOLDER.

(** The object literal built by the [map] callback of [getRules]. *)
Definition sanitizeRule (rule : jsval) : Rule :=
  {| id := substring_to 50 (String_ (val_or (get_prop rule (str "id")) (JStr [])));
     extension :=
       match get_prop rule (str "extension") with
       | JStr s =>
           if SecurityUtils.isValidExtensionPattern (JStr s) then s else []
       | _ => []
       end;
     foldername := SecurityUtils.sanitizeFolderName (get_prop rule (str "foldername")) |}.

Definition is_rule_object (rule : jsval) : bool :=
  ToBoolean rule && typeof_object rule.

Definition is_complete (rule : Rule) : bool :=
  truthy (extension rule) && truthy (foldername rule).

Definition getRules (rules : jsval) : list Rule :=
  let parsedRules :=
    match rules with
    | JStr s => JSON_parse s
    | _ => Some rules
    end in
  match parsedRules with
  | None => DEFAULT_RULES
  | Some (JArr items) =>
      List.filter is_complete (map sanitizeRule (List.filter is_rule_object items))
  | Some _ => DEFAULT_RULES
  end.

(** *** Reading and writing

    Behind [get] and [set] lie [browser.storage.sync] and, when its calls
    throw, [localStorage], which holds JSON texts.  [localStorage] itself is
    taken to work. *)

Context {serializer : Serializer}.

Record storage : Type := mkStorage {
  sync_area : gmap jsstring jsval;
  local_area : gmap jsstring jsstring
}.

(** Whether the calls of [browser.storage.sync] succeed. *)
Inductive sync_calls : Type :=
  | SyncWorks
  | SyncThrows.

Definition get (calls : sync_calls) (key : jsstring) (st : storage) : jsval :=
  if (50 <? length key)%nat then JNull
  else
    match calls with
    | SyncWorks => default JUndefined (sync_area st !! key)
    | SyncThrows =>
        match local_area st !! key with
        | Some value =>
            if truthy value
            then match JSON_parse value with
                 | Some parsed => parsed
                 | None => JNull
                 end
            else JNull
        | None => JNull
        end
    end.

Definition set (calls : sync_calls) (key : jsstring) (value : jsval)
    (st : storage) : bool * storage :=
  if (50 <? length key)%nat then (false, st)
  else
    match JSON_stringify value with
    | None => (false, st)
    | Some serialized =>
        if (7000 <? Z.of_nat (length serialized))%Z then (false, st)
        else
          match calls with
          | SyncWorks =>
              (true, {| sync_area := <[key := value]> (sync_area st);
                        local_area := local_area st |})
          | SyncThrows =>
              (true, {| sync_area := sync_area st;
                        local_area := <[key := serialized]> (local_area st) |})
          end
    end.

Definition setDefaultFolder (calls : sync_calls) (folder : jsval)
    (st : storage) : bool * storage :=
  let sanitizedFolder := SecurityUtils.sanitizeFolderName folder in
  set calls (str "defaultFolder") (JStr sanitizedFolder) st.

Definition setRules (calls : sync_calls) (rules : jsval)
    (st : storage) : bool * storage :=
  match rules with
  | JArr items =>
      let validatedRules :=
        List.filter is_complete
          (map sanitizeRule (List.filter is_rule_object items)) in
      let text :=
        match JSON_stringify (JArr (map rule_object validatedRules)) with
        | Some s => JStr s
        | None => JUndefined
        end in
      set calls (str "rules") text st
  | _ => (false, st)
  end.

(** [await StorageManager.getRules()] and [await
    StorageManager.getDefaultFolder()] on a storage. *)
Definition currentRules (calls : sync_calls) (st : storage) : list Rule :=
  getRules (get calls (str "rules") st).

Definition currentFolder (calls : sync_calls) (st : storage) : jsstring :=
  getDefaultFolder (get calls (str "defaultFolder") st).

(** What [initialize] does to storage. *)
Definition initialize (calls : sync_calls) (st : storage) : storage :=
  let folder := currentFolder calls st in
  let rules := currentRules calls st in
  let st :=
    match rules with
    | [] => snd (setRules calls (JArr (map rule_object DEFAULT_RULES)) st)
    | _ :: _ => st
    end in
  if negb (truthy folder)
  then snd (setDefaultFolder calls (JStr DEFAULT_FOLDER) st)
  else st.

End WithHost.

End StorageManager.

(** ** Regular expressions

    The fragment of RegExp syntax that [createRegexPattern] can produce from
    a pattern over letters, digits, comma, period and asterisk: alternatives
    separated by a bar, each a sequence of the assertions [^] and [$], the
    atom [.], literal characters and the group [[a-z0-9]*].  No flag is
    set, so matching is case-sensitive and [^], [$] only hold at the ends
    of the input.  A source with other syntax (a backslash, a quantifier, a
    group, a class, a brace or a bracket) is not interpreted here: its
    matching is the platform's, see [RegExp_test]. *)

Module RegExp.

Inductive atom : Type :=
  | Bol                 (* ^ *)
  | Eol                 (* $ *)
  | AnyChar             (* . *)
  | Char (c : ascii)    (* a character that stands for itself *)
  | AlnumStar.          (* [a-z0-9]* *)

Abbreviation t := (list (list atom)).

(** SyntaxCharacter of the RegExp grammar. *)
Definition syntax_char (c : ascii) : bool :=
  existsb (Ascii.eqb c)
    ["^"; "$"; "\"; "."; "*"; "+"; "?"; "("; ")"; "["; "]"; "{"; "}"; "|"]%char.

Definition alnum_class (c : ascii) : bool := is_lower_az c || is_digit c.

(** One alternative.  [None]: the source uses syntax outside the fragment. *)
Fixpoint parse_alternative (src : jsstring) : option (list atom) :=
  match src with
  | [] => Some []
  | "["%char :: "a"%char :: "-"%char :: "z"%char :: "0"%char :: "-"%char
      :: "9"%char :: "]"%char :: "*"%char :: rest =>
      option_map (cons AlnumStar) (parse_alternative rest)
  | c :: rest =>
      if is_char "^" c then option_map (cons Bol) (parse_alternative rest)
      else if is_char "$" c then option_map (cons Eol) (parse_alternative rest)
      else if is_char "." c then option_map (cons AnyChar) (parse_alternative rest)
      else if syntax_char c then None
      else option_map (cons (Char c)) (parse_alternative rest)
  end.

Fixpoint parse_all (alts : list jsstring) : option t :=
  match alts with
  | [] => Some []
  | a :: rest =>
      match parse_alternative a, parse_all rest with
      | Some x, Some xs => Some (x :: xs)
      | _, _ => None
      end
  end.

(** [new RegExp(src)] for a source of the fragment; [None] for any
    other source. *)
Definition compile (src : jsstring) : option t :=
  parse_all (split "|" src).

(** Does the alternative match a prefix of [s]?  [at_start] tells whether
    [s] is the whole input. *)
Fixpoint match_here (atoms : list atom) : bool -> jsstring -> bool :=
  match atoms with
  | [] => fun _ _ => true
  | a :: rest =>
      let continue := match_here rest in
      match a with
      | Bol => fun at_start s => at_start && continue at_start s
      | Eol => fun at_start s =>
          match s with [] => continue at_start s | _ :: _ => false end
      | AnyChar => fun _ s =>
          match s with
          | c :: s' => negb (isLineTerminator c) && continue false s'
          | [] => false
          end
      | Char x => fun _ s =>
          match s with
          | c :: s' => Ascii.eqb c x && continue false s'
          | [] => false
          end
      | AlnumStar =>
          fix star (at_start : bool) (s : jsstring) : bool :=
            continue at_start s ||
            match s with
            | c :: s' => alnum_class c && star false s'
            | [] => false
            end
      end
  end.

(** The alternative matches somewhere in the input. *)
Fixpoint search (atoms : list atom) (at_start : bool) (s : jsstring) : bool :=
  match_here atoms at_start s ||
  match s with
  | _ :: s' => search atoms false s'
  | [] => false
  end.

(** [re.test(s)]. *)
Definition test (re : t) (s : jsstring) : bool :=
  existsb (fun atoms => search atoms true s) re.

End RegExp.

(** ** FileMatcherService *)

Module FileMatcherService.

Definition getFileExtension (filename : jsstring) : jsstring :=
  if negb (truthy filename) then []
  else
    let lastDotIndex := lastIndexOf "." filename in
    if (lastDotIndex =? -1)%Z then []
    else toLowerCase (substring_from (lastDotIndex + 1) filename).

Definition downloadableExtensions : list jsstring :=
  map str
    [ "pdf"; "doc"; "docx"; "txt"; "rtf"; "odt";
      "jpg"; "jpeg"; "png"; "gif"; "webp"; "svg"; "bmp"; "ico";
      "mp4"; "avi"; "mkv"; "mov"; "wmv"; "flv"; "webm";
      "mp3"; "wav"; "flac"; "aac"; "m4a"; "ogg";
      "zip"; "7z"; "tar"; "gz"; "rar"; "bz2";
      "exe"; "msi"; "dmg"; "deb"; "rpm"; "pkg";
      "xml"; "json"; "csv"; "xls"; "xlsx"; "ppt"; "pptx";
      "iso"; "img"; "bin"; "apk"; "jar" ]%string.

Definition excludedExtensions : list jsstring :=
  map str [ "vtt"; "srt"; "ass"; "m3u8"; "ts" ]%string.

(** [arr.includes(x)] on an array of strings. *)
Definition array_includes (arr : list jsstring) (x : jsstring) : bool :=
  existsb (jsstring_eqb x) arr.

(** The source text handed to [new RegExp]. *)
Definition regex_source (extensionPattern : jsstring) : jsstring :=
  let cleanPattern := remove_whitespace (toLowerCase extensionPattern) in
  let regexPattern := replace_char "," (str "|") cleanPattern in
  let regexPattern := replace_char "*" (str "[a-z0-9]*") regexPattern in
  let patterns :=
    map (fun pattern => str "^" ++ pattern ++ str "$") (split "|" regexPattern) in
  join (str "|") patterns.

(** The expression built, when its source lies in the fragment
    interpreted here; [None] otherwise. *)
Definition createRegexPattern (extensionPattern : jsstring) : option RegExp.t :=
  RegExp.compile (regex_source extensionPattern).

Section WithHost.
Context `{Host}.

(** The branch of [matches] taken for a pattern with a wildcard or a comma.
    A source outside the fragment is left to the platform; when the
    constructor throws, the [catch] block answers [false]. *)
Definition regex_match (extensionPattern fileExtension : jsstring) : bool :=
  match createRegexPattern extensionPattern with
  | Some pattern => RegExp.test pattern fileExtension
  | None =>
      match RegExp_test (regex_source extensionPattern) fileExtension with
      | Some result => result
      | None => false
      end
  end.

(** The branch of [matches] taken otherwise. *)
Definition exact_match (extensionPattern fileExtension : jsstring) : bool :=
  jsstring_eqb fileExtension (trim (toLowerCase extensionPattern)).

Definition matches (extensionPattern filename : jsstring) : bool :=
  if negb (truthy extensionPattern) || negb (truthy filename) then false
  else
    let fileExtension := getFileExtension filename in
    if negb (truthy fileExtension) then false
    else if includes extensionPattern (str "*") || includes extensionPattern (str ",")
    then regex_match extensionPattern fileExtension
    else exact_match extensionPattern fileExtension.

(** The [for ... of] loop of [determineTargetFolder]. *)
Fixpoint resolveFolder (rules : list Rule) (defaultFolder filename : jsstring)
  : jsstring :=
  match rules with
  | [] => defaultFolder
  | rule :: rest =>
      if matches (extension rule) filename then foldername rule
      else resolveFolder rest defaultFolder filename
  end.

Definition getFilenameFromUrl (url : jsstring) : jsstring :=
  match URL_new url with
  | Some urlObj =>
      let filename := pop (split "/" (pathname urlObj)) in
      let cleanFilename := first (split "#" (first (split "?" filename))) in
      or_else cleanFilename (str "download")
  | None => str "download"
  end.

(** The value returned is [false], [true] or the empty string (when the
    extension is empty, by [extension && ...]). *)
Definition isLikelyDownloadableFile (url : jsstring) : jsval :=
  let filename := getFilenameFromUrl url in
  let extension := getFileExtension filename in
  if array_includes excludedExtensions extension then JBool false
  else if truthy extension
       then JBool (array_includes downloadableExtensions extension)
       else JStr extension.

(** [storedRules] and [storedFolder] are what storage holds under the keys
    [rules] and [defaultFolder] when the function runs. *)
Definition determineTargetFolder (storedRules storedFolder : jsval)
    (url : jsstring) (suggestedFilename : option jsstring) : jsstring :=
  let rules := StorageManager.getRules storedRules in
  let defaultFolder := StorageManager.getDefaultFolder storedFolder in
  let filename :=
    or_else (default [] suggestedFilename) (getFilenameFromUrl url) in
  resolveFolder rules defaultFolder filename.

End WithHost.

End FileMatcherService.

(** ** DownloadInterceptor *)

(** How a call of an async function ends. *)
Inductive completion (A : Type) : Type :=
  | Normal (v : A)
  | Throw.

Arguments Normal {A} v.
Arguments Throw {A}.

(** [try { body } catch (error) { handler }] over a state. *)
Definition try_catch {S A : Type} (body : S -> completion A * S)
    (handler : S -> completion A * S) (st : S) : completion A * S :=
  match body st with
  | (Normal v, st') => (Normal v, st')
  | (Throw, st') => handler st'
  end.

(** The argument of [browserAPI.downloads.download]. *)
Record DownloadOptions : Type := mkOptions {
  opt_url : jsstring;
  opt_filename : jsstring;
  opt_conflictAction : jsstring
}.

(** The promise [browserAPI.downloads.download] returns: fulfilled with a
    download id, or rejected. *)
Inductive issuance : Type :=
  | Fulfilled (downloadId : Z)
  | Rejected.

(** A response header. *)
Record header : Type := mkHeader {
  header_name : jsstring;
  header_value : jsstring
}.

(** The text before the first character that satisfies [stop], and the text
    from that character on. *)
Fixpoint before (stop : ascii -> bool) (s : jsstring) : jsstring :=
  match s with
  | [] => []
  | c :: s' => if stop c then [] else c :: before stop s'
  end.

Fixpoint from (stop : ascii -> bool) (s : jsstring) : jsstring :=
  match s with
  | [] => []
  | c :: s' => if stop c then s else from stop s'
  end.

Module DownloadInterceptor.

(** The static set [pendingDownloads], together with what the class has
    asked of its collaborators: the download requests issued (latest first)
    and the clean-up timers armed (delay in milliseconds and key). *)
Record state : Type := mkState {
  pendingDownloads : gset jsstring;
  requests : list DownloadOptions;
  timers : list (Z * jsstring)
}.

Definition trackingDomains : list jsstring :=
  map str
    [ "google-analytics.com"; "googletagmanager.com"; "googlesyndication.com";
      "doubleclick.net"; "criteo.com"; "facebook.com"; "fbcdn.net";
      "media.net"; "ezoic"; "rubiconproject.com"; "openx.net"; "yieldmo.com";
      "3lift.com"; "amazon-adsystem.com"; "dnacdn.net"; "onetag-sys.com";
      "token.rubiconproject.com"; "eb2.3lift.com"; "hbx.media.net";
      "gum.criteo.com"; "ag.gbc.criteo.com"; "gem.gbc.criteo.com";
      "securepubads.g.doubleclick.net"; "pagead2.googlesyndication.com";
      "go.ezodn.com" ]%string.

Definition suspiciousParams : list jsstring :=
  map str
    [ "utm_"; "gclid"; "fbclid"; "_ga"; "mc_"; "tracking"; "analytics" ]%string.

(** The callback of [trackingDomains.some]. *)
Definition tracks (hostname domain : jsstring) : bool :=
  includes hostname domain || endsWith hostname (str "." ++ domain).

Definition downloadKey (url : jsstring) (suggestedFilename : option jsstring)
  : jsstring :=
  url ++ or_else (default [] suggestedFilename) [].

(** The callback of [setTimeout(..., 30000)]. *)
Definition expire (downloadKey : jsstring) (st : state) : state :=
  {| pendingDownloads := pendingDownloads st ∖ {[downloadKey]};
     requests := requests st;
     timers := timers st |}.

Section WithHost.
Context `{Host}.

Definition isTrackingOrAnalyticsUrl (url : jsstring) : bool :=
  match URL_new url with
  | Some urlObj =>
      let hostname := toLowerCase (hostname urlObj) in
      existsb (tracks hostname) trackingDomains
  | None => false
  end.

(** The value returned is a boolean, or the empty string when the last
    path segment has no extension (by [extension && ...]). *)
Definition isUserInitiatedDownload (url : jsstring) : jsval :=
  if isTrackingOrAnalyticsUrl url then JBool false
  else if negb (ToBoolean (FileMatcherService.isLikelyDownloadableFile url))
  then JBool false
  else
    match URL_new url with
    | None => JBool false
    | Some urlObj =>
        let hasTrackingParams :=
          existsb (fun param => includes (search urlObj) param) suspiciousParams in
        if hasTrackingParams then JBool false
        else
          let pathname := pathname urlObj in
          let filename := pop (split "/" pathname) in
          let extension := FileMatcherService.getFileExtension filename in
          if truthy extension
          then JBool ((3 <? length filename)%nat
                      && negb (includes pathname (str "/ad/"))
                      && negb (includes pathname (str "/track")))
          else JStr extension
    end.

(** [initiateControlledDownload] runs in two uninterrupted stretches: from
    the call to its first [await], and from the settlement of the download
    promise to the return.  Other callbacks may run in between. *)

(** First stretch.  [Some r]: the call has returned [r]; [None]: it is
    suspended with its key registered. *)
Definition enter (url : jsstring) (suggestedFilename : option jsstring)
    (st : state) : option (completion (option Z)) * state :=
  if negb (SecurityUtils.isValidDownloadUrl url) then (Some (Normal None), st)
  else
    let downloadKey := downloadKey url suggestedFilename in
    if decide (downloadKey ∈ pendingDownloads st) then (Some (Normal None), st)
    else
      (None,
       {| pendingDownloads := {[downloadKey]} ∪ pendingDownloads st;
          requests := requests st;
          timers := timers st |}).

Definition downloadOptions (storedRules storedFolder : jsval)
    (url : jsstring) (suggestedFilename : option jsstring) : DownloadOptions :=
  let targetFolder :=
    FileMatcherService.determineTargetFolder storedRules storedFolder
      url suggestedFilename in
  let rawFilename :=
    or_else (default [] suggestedFilename)
            (FileMatcherService.getFilenameFromUrl url) in
  let sanitizedFilename :=
    or_else (SecurityUtils.sanitizeFolderName (JStr rawFilename)) (str "download") in
  let targetPath := targetFolder ++ str "/" ++ sanitizedFilename in
  {| opt_url := url; opt_filename := targetPath;
     opt_conflictAction := str "uniquify" |}.

(** The rest of the [try] block, given how the download promise settles. *)
Definition issue (storedRules storedFolder : jsval) (settled : issuance)
    (url : jsstring) (suggestedFilename : option jsstring)
    (st : state) : completion (option Z) * state :=
  let options := downloadOptions storedRules storedFolder url suggestedFilename in
  let requested :=
    {| pendingDownloads := pendingDownloads st;
       requests := options :: requests st;
       timers := timers st |} in
  match settled with
  | Rejected => (Throw, requested)
  | Fulfilled downloadId =>
      (Normal (Some downloadId),
       {| pendingDownloads := pendingDownloads requested;
          requests := requests requested;
          timers := (30000%Z, downloadKey url suggestedFilename) :: timers requested |})
  end.

(** The [catch] block. *)
Definition on_error (url : jsstring) (suggestedFilename : option jsstring)
    (st : state) : completion (option Z) * state :=
  (Normal None, expire (downloadKey url suggestedFilename) st).

(** Second stretch. *)
Definition resume (storedRules storedFolder : jsval) (settled : issuance)
    (url : jsstring) (suggestedFilename : option jsstring)
    (st : state) : completion (option Z) * state :=
  try_catch (issue storedRules storedFolder settled url suggestedFilename)
            (on_error url suggestedFilename) st.

(** A call that no other callback interrupts. *)
Definition initiateControlledDownload (storedRules storedFolder : jsval)
    (settled : issuance) (url : jsstring) (suggestedFilename : option jsstring)
    (st : state) : completion (option Z) * state :=
  match enter url suggestedFilename st with
  | (Some r, st') => (r, st')
  | (None, st') => resume storedRules storedFolder settled url suggestedFilename st'
  end.

(** *** The request and response listeners *)

(** The static set [interceptedUrls] and the callbacks handed to
    [setTimeout(..., 0)]: the url and the file name each will dispatch
    (latest first). *)
Record interception : Type := mkInterception {
  interceptedUrls : gset jsstring;
  scheduled : list (jsstring * option jsstring)
}.

(** The callback of [setTimeout(..., 5000)]. *)
Definition forget (url : jsstring) (st : interception) : interception :=
  {| interceptedUrls := interceptedUrls st ∖ {[url]};
     scheduled := scheduled st |}.

Definition intercept (url : jsstring) (filename : option jsstring)
    (st : interception) : interception :=
  {| interceptedUrls := {[url]} ∪ interceptedUrls st;
     scheduled := (url, filename) :: scheduled st |}.

Definition is_quote (c : ascii) : bool :=
  is_char "'" c || (code c =? 34)%N.

(** The class [[^;=\n]] negated, and [[^;\n]] negated. *)
Definition ends_name (c : ascii) : bool :=
  is_char ";" c || is_char "=" c || (code c =? 10)%N.

Definition ends_value (c : ascii) : bool :=
  is_char ";" c || (code c =? 10)%N.

(** The lazy run after an opening quote [q]: the text before the next [q],
    when no line terminator comes first. *)
Fixpoint until_quote (q : ascii) (s : jsstring) : option jsstring :=
  match s with
  | [] => None
  | c :: s' =>
      if Ascii.eqb c q then Some []
      else if isLineTerminator c then None
      else option_map (cons c) (until_quote q s')
  end.

(** The first group of the pattern matched at [v]: a quoted text with its
    quotes or, failing that, the run up to a semicolon or a line feed. *)
Definition disposition_value (v : jsstring) : jsstring :=
  match v with
  | q :: v' =>
      if is_quote q
      then match until_quote q v' with
           | Some inner => q :: inner ++ [q]
           | None => before ends_value v
           end
      else before ends_value v
  | [] => []
  end.

(** [value.match(...)] with the pattern of [handleResponse]: the word
    [filename], a run without semicolon, equals sign and line feed, an
    equals sign, and the group.  The answer is the group of the leftmost
    match, [None] when nothing matches. *)
Fixpoint match_filename (value : jsstring) : option jsstring :=
  let here :=
    if startsWith value (str "filename")
    then match from ends_name (skipn 8 value) with
         | c :: v => if is_char "=" c then Some (disposition_value v) else None
         | [] => None
         end
    else None in
  match here with
  | Some group => Some group
  | None =>
      match value with
      | _ :: rest => match_filename rest
      | [] => None
      end
  end.

(** The file name taken from a Content-Disposition value: the group,
    when it is not empty, without its quotes. *)
Definition disposition_filename (value : jsstring) : option jsstring :=
  match match_filename value with
  | Some group =>
      if truthy group
      then Some (List.filter (fun c => negb (is_quote c)) group)
      else None
  | None => None
  end.

(** The loop over the headers: whether an attachment was found, and its
    file name. *)
Fixpoint scan_headers (headers : list header) : bool * option jsstring :=
  match headers with
  | [] => (false, None)
  | h :: rest =>
      if jsstring_eqb (toLowerCase (header_name h)) (str "content-disposition")
      then
        let headerValue := toLowerCase (header_value h) in
        if includes headerValue (str "attachment")
        then (true, disposition_filename (header_value h))
        else scan_headers rest
      else scan_headers rest
  end.

(** The answer is whether the request is cancelled. *)
Definition handleResponse (url : jsstring) (headers : list header)
    (st : interception) : bool * interception :=
  if isTrackingOrAnalyticsUrl url then (false, st)
  else
    let (isDownload, filename) := scan_headers headers in
    if isDownload && negb (bool_decide (url ∈ interceptedUrls st))
    then (true, intercept url filename st)
    else (false, st).

Definition handleMainFrameRequest (url : jsstring) (st : interception)
  : bool * interception :=
  if ToBoolean (isUserInitiatedDownload url)
  then
    if bool_decide (url ∈ interceptedUrls st) then (false, st)
    else (true, intercept url None st)
  else (false, st).

End WithHost.

End DownloadInterceptor.

(** ** DownloadMonitor *)

(** A download as [downloads.onCreated] reports it. *)
Record DownloadItem : Type := mkItem {
  item_id : Z;
  item_url : jsstring;
  item_filename : jsstring
}.

(** [s.split(re)] for a pattern that matches one character of a class. *)
Fixpoint split_on (sep : ascii -> bool) (s : jsstring) : list jsstring :=
  match s with
  | [] => [[]]
  | x :: s' =>
      if sep x then [] :: split_on sep s'
      else match split_on sep s' with
           | p :: ps => (x :: p) :: ps
           | [] => [[x]]
           end
  end.

Module DownloadMonitor.

(** What the monitor has asked of the downloads API: the ids cancelled and
    the downloads started (latest first). *)
Record state : Type := mkState {
  cancels : list Z;
  restarts : list DownloadOptions
}.

(** Slash and backslash, the class of the split. *)
Definition is_separator (c : ascii) : bool :=
  is_char "/" c || is_char "\" c.

Section WithHost.
Context `{Host}.

(** [cancelled] tells whether [downloads.cancel] succeeds; an error of the
    download that follows is caught and changes nothing. *)
Definition organizeExistingDownload (storedRules storedFolder : jsval)
    (cancelled : bool) (downloadItem : DownloadItem) (st : state) : state :=
  let targetFolder :=
    FileMatcherService.determineTargetFolder storedRules storedFolder
      (item_url downloadItem) (Some (item_filename downloadItem)) in
  let currentFilename :=
    pop (split_on is_separator (item_filename downloadItem)) in
  let newPath := targetFolder ++ str "/" ++ currentFilename in
  if negb (jsstring_eqb targetFolder DEFAULT_FOLDER)
  then
    let asked :=
      {| cancels := item_id downloadItem :: cancels st;
         restarts := restarts st |} in
    if cancelled
    then {| cancels := cancels asked;
            restarts :=
              {| opt_url := item_url downloadItem;
                 opt_filename := newPath;
                 opt_conflictAction := str "uniquify" |} :: restarts asked |}
    else asked
  else st.

Definition handleDownloadCreated (storedRules storedFolder : jsval)
    (cancelled : bool) (downloadItem : DownloadItem) (st : state) : state :=
  let filename := item_filename downloadItem in
  let hasSubfolder := includes filename (str "/") || includes filename (str "\") in
  if negb hasSubfolder
  then organizeExistingDownload storedRules storedFolder cancelled downloadItem st
  else st.

End WithHost.

End DownloadMonitor.

(** ** OptionsManager (options page) *)

Module OptionsManager.

Definition suggestFolderName (extensions : jsstring) : jsstring :=
  let ext := toLowerCase extensions in
  let has (s : string) := includes ext (str s) in
  if has "pdf" || has "doc" || has "txt" then str "documents"
  else if has "jpg" || has "png" || has "gif" then str "images"
  else if has "mp4" || has "avi" || has "mkv" then str "videos"
  else if has "mp3" || has "wav" || has "flac" then str "audio"
  else if has "zip" || has "rar" || has "7z" then str "archives"
  else if has "exe" || has "msi" || has "dmg" then str "programs"
  else if has "py" || has "js" || has "css" || has "html" then str "code"
  else str "misc".

(** The [drop] listener of a rule's extension input: the new value of the
    input, from its value and the extensions dragged. *)
Definition drop (value extensions : jsstring) : jsstring :=
  if truthy extensions
  then
    let currentValue := trim value in
    if truthy currentValue && negb (includes currentValue extensions)
    then currentValue ++ str "," ++ extensions
    else if negb (truthy currentValue) then extensions
    else value
  else value.

(** [String(n)] for a natural number. *)
Definition decimal (n : nat) : jsstring :=
  str (DecimalString.NilEmpty.string_of_uint (Nat.to_uint n)).

(** The [forEach] of [saveToStorage] over the rule elements, each given by
    the values of its two inputs ([None] when an input is missing). *)
Fixpoint collectRules (index : nat)
    (elements : list (option (jsstring * jsstring))) : list Rule :=
  match elements with
  | [] => []
  | element :: rest =>
      let more := collectRules (S index) rest in
      match element with
      | Some (extensionValue, folderValue) =>
          let rawExtension := trim extensionValue in
          let rawFolder := trim folderValue in
          if truthy rawExtension && truthy rawFolder
             && OptionsSecurityUtils.isValidExtensionPattern (JStr rawExtension)
          then
            let sanitizedFolder :=
              OptionsSecurityUtils.sanitizeFolderName (JStr rawFolder) in
            if truthy sanitizedFolder
            then {| id := str "rule-" ++ decimal (index + 1);
                    extension := toLowerCase rawExtension;
                    foldername := sanitizedFolder |} :: more
            else more
          else more
      | None => more
      end
  end.

(** The default folder [saveToStorage] stores, from the value of its
    input. *)
Definition savedDefaultFolder (value : jsstring) : jsstring :=
  let rawFolder := trim value in
  or_else (OptionsSecurityUtils.sanitizeFolderName (JStr rawFolder))
          (str "downloads").

End OptionsManager.

(** ** Predicates used in the statements *)

(** The string does not begin with white space. *)
Definition no_leading_ws (s : jsstring) : bool :=
  match s with c :: _ => negb (isWhiteSpace c) | [] => true end.

(** Two adjacent periods occur in the string. *)
Fixpoint has_dotdot (s : jsstring) : bool :=
  match s with
  | c :: t =>
      match t with
      | d :: _ => (is_char "." c && is_char "." d) || has_dotdot t
      | [] => false
      end
  | [] => false
  end.

(** What every output of the chain satisfies. *)
Definition clean (r : jsstring) : Prop :=
  forallb (fun c => negb (SecurityUtils.reserved c)) r = true /\
  has_dotdot r = false /\
  length r <= 100 /\
  no_leading_ws r = true.

(** The invariant of a rule of the routing engine. *)
Definition valid_rule (r : Rule) : Prop :=
  (extension r <> [] /\
   forallb SecurityUtils.pattern_char (extension r) = true /\
   length (extension r) <= 200) /\
  (foldername r <> [] /\
   length (foldername r) <= 100 /\
   forallb (fun c => negb (SecurityUtils.reserved c)) (foldername r) = true) /\
  length (id r) <= 50.

(** Letters and digits. *)
Definition is_alnum (c : ascii) : bool :=
  is_lower_az c || is_upper_AZ c || is_digit c.

(** A character that a pattern compares literally: no white space, no
    comma, no syntax character of regular expressions. *)
Definition plain_char (c : ascii) : bool :=
  negb (isWhiteSpace c) && negb (RegExp.syntax_char c) && negb (is_char "," c).

(** The callback of [map] in [createRegexPattern]. *)
Definition wrap (pattern : jsstring) : jsstring := str "^" ++ pattern ++ str "$".

(** The alternative that [wrap t] denotes when [t] is plain. *)
Definition anchored (t : jsstring) : list RegExp.atom :=
  RegExp.Bol :: map RegExp.Char t ++ [RegExp.Eol].

(** What [createRegexPattern] does with a pattern once it is lower-cased
    and rid of white space. *)
Definition source_of_clean (cleanPattern : jsstring) : jsstring :=
  join (str "|")
    (map wrap
       (split "|"
          (replace_char "*" (str "[a-z0-9]*")
             (replace_char "," (str "|") cleanPattern)))).

(** ** A host for the examples

    Its [URL] constructor understands addresses of the plain form
    [scheme://host/path?query#fragment] (no credentials, no port, no
    escapes) and refuses every other string; the other operations are
    not exercised by an example. *)

(** Cuts a string before the first character that satisfies [stop]. *)
Fixpoint break (stop : ascii -> bool) (s : jsstring) : jsstring * jsstring :=
  match s with
  | [] => ([], [])
  | c :: s' =>
      if stop c then ([], s)
      else let (a, b) := break stop s' in (c :: a, b)
  end.

Definition host_char (c : ascii) : bool :=
  is_alnum c || is_char "-" c || is_char "." c.

Definition plain_URL (url : jsstring) : option URL :=
  let (scheme, r1) := break (is_char ":") url in
  match r1 with
  | ":"%char :: "/"%char :: "/"%char :: r2 =>
      let (host, r3) :=
        break (fun c => is_char "/" c || is_char "?" c || is_char "#" c) r2 in
      let (path, r4) := break (fun c => is_char "?" c || is_char "#" c) r3 in
      let (query, _) := break (is_char "#") r4 in
      if truthy scheme && forallb is_alnum scheme
         && truthy host && forallb host_char host
      then Some {| protocol := toLowerCase scheme ++ str ":";
                   hostname := toLowerCase host;
                   pathname := or_else path (str "/");
                   search := if jsstring_eqb query (str "?") then [] else query |}
      else None
  | _ => None
  end.

#[export] Instance example_host : Host :=
  {| URL_new := plain_URL;
     JSON_parse := fun _ => None;
     ToString := fun _ => str "[object Object]";
     RegExp_test := fun _ _ => None |}.

(** A download address and the interceptor before any call. *)
Definition report_url : jsstring := str "https://site.com/report.pdf".

Definition idle_state : DownloadInterceptor.state :=
  DownloadInterceptor.mkState ∅ [] [].

(** The host name is a denylisted entry or a subdomain of one. *)
Definition is_domain_or_subdomain (hostname : jsstring) : bool :=
  existsb (fun domain => jsstring_eqb hostname domain
                         || endsWith hostname (str "." ++ domain))
          DownloadInterceptor.trackingDomains.

(** ** A host that reads and writes JSON

    [JSON.stringify] and [JSON.parse] for values built from null, booleans,
    strings, arrays and objects, with the two escapes of a quote and of a
    backslash; numbers are left out.  The [URL] constructor is the one of
    the host above. *)

Definition dquote : ascii := ascii_of_N 34.

Definition escape (c : ascii) : jsstring :=
  if (code c =? 34)%N || is_char "\" c then ["\"%char; c] else [c].

Definition quoted (s : jsstring) : jsstring :=
  dquote :: flat_map escape s ++ [dquote].

Fixpoint stringify (v : jsval) : option jsstring :=
  match v with
  | JUndefined => None
  | JNull => Some (str "null")
  | JBool b => Some (if b then str "true" else str "false")
  | JNum _ => None
  | JStr s => Some (quoted s)
  | JArr items =>
      let texts :=
        (fix each (l : list jsval) : list jsstring :=
           match l with
           | [] => []
           | x :: l' => default (str "null") (stringify x) :: each l'
           end) items in
      Some (str "[" ++ join (str ",") texts ++ str "]")
  | JObj props =>
      let texts :=
        (fix each (l : list (jsstring * jsval)) : list jsstring :=
           match l with
           | [] => []
           | (k, x) :: l' =>
               match stringify x with
               | Some t => (quoted k ++ str ":" ++ t) :: each l'
               | None => each l'
               end
           end) props in
      Some (str "{" ++ join (str ",") texts ++ str "}")
  end.

(** The text of a string after its opening quote, and what follows it. *)
Fixpoint read_string (s : jsstring) : option (jsstring * jsstring) :=
  match s with
  | [] => None
  | c :: r =>
      if (code c =? 34)%N then Some ([], r)
      else if is_char "\" c
      then match r with
           | e :: r' =>
               if (code e =? 34)%N || is_char "\" e
               then match read_string r' with
                    | Some (t, rest) => Some (e :: t, rest)
                    | None => None
                    end
               else None
           | [] => None
           end
      else match read_string r with
           | Some (t, rest) => Some (c :: t, rest)
           | None => None
           end
  end.

(** A value at the head of the text, and what follows it. *)
Fixpoint read_value (fuel : nat) (s : jsstring) : option (jsval * jsstring) :=
  match fuel with
  | O => None
  | S fuel' =>
      let elements :=
        fix elements (n : nat) (s : jsstring) : option (list jsval * jsstring) :=
          match n with
          | O => None
          | S n' =>
              match read_value fuel' s with
              | Some (v, r) =>
                  match trimStart r with
                  | c :: r' =>
                      if is_char "," c
                      then match elements n' r' with
                           | Some (vs, rest) => Some (v :: vs, rest)
                           | None => None
                           end
                      else if is_char "]" c then Some ([v], r')
                      else None
                  | [] => None
                  end
              | None => None
              end
          end in
      let members :=
        fix members (n : nat) (s : jsstring)
          : option (list (jsstring * jsval) * jsstring) :=
          match n with
          | O => None
          | S n' =>
              match trimStart s with
              | q :: r =>
                  if (code q =? 34)%N
                  then match read_string r with
                       | Some (k, r1) =>
                           match trimStart r1 with
                           | c :: r2 =>
                               if is_char ":" c
                               then match read_value fuel' r2 with
                                    | Some (v, r3) =>
                                        match trimStart r3 with
                                        | d :: r4 =>
                                            if is_char "," d
                                            then match members n' r4 with
                                                 | Some (ms, rest) =>
                                                     Some ((k, v) :: ms, rest)
                                                 | None => None
                                                 end
                                            else if is_char "}" d
                                            then Some ([(k, v)], r4)
                                            else None
                                        | [] => None
                                        end
                                    | None => None
                                    end
                               else None
                           | [] => None
                           end
                       | None => None
                       end
                  else None
              | [] => None
              end
          end in
      match trimStart s with
      | c :: r =>
          if (code c =? 34)%N
          then match read_string r with
               | Some (t, rest) => Some (JStr t, rest)
               | None => None
               end
          else if is_char "[" c
          then match trimStart r with
               | d :: r' =>
                   if is_char "]" d then Some (JArr [], r')
                   else match elements fuel' r with
                        | Some (vs, rest) => Some (JArr vs, rest)
                        | None => None
                        end
               | [] => None
               end
          else if is_char "{" c
          then match trimStart r with
               | d :: r' =>
                   if is_char "}" d then Some (JObj [], r')
                   else match members fuel' r with
                        | Some (ms, rest) => Some (JObj ms, rest)
                        | None => None
                        end
               | [] => None
               end
          else if startsWith (c :: r) (str "null") then Some (JNull, skipn 3 r)
          else if startsWith (c :: r) (str "true") then Some (JBool true, skipn 3 r)
          else if startsWith (c :: r) (str "false") then Some (JBool false, skipn 4 r)
          else None
      | [] => None
      end
  end.

Definition parse_json (s : jsstring) : option jsval :=
  match read_value (S (length s)) s with
  | Some (v, rest) =>
      match trimStart rest with
      | [] => Some v
      | _ :: _ => None
      end
  | None => None
  end.

Definition json_host : Host :=
  {| URL_new := plain_URL;
     JSON_parse := parse_json;
     ToString := fun _ => str "[object Object]";
     RegExp_test := fun _ _ => None |}.

Definition json_serializer : Serializer :=
  {| JSON_stringify := stringify |}.

(** ** Further predicates and values of the statements *)

(** The character [c] does not occur in [s]. *)
Definition lacks (c : ascii) (s : jsstring) : bool :=
  forallb (fun x => negb (Ascii.eqb x c)) s.

(** No white space occurs in [s]. *)
Definition spaceless (s : jsstring) : bool :=
  forallb (fun c => negb (isWhiteSpace c)) s.

(** The [extension] of a stored entry passes the test of the background
    script. *)
Definition has_valid_extension (rule : jsval) : bool :=
  SecurityUtils.isValidExtensionPattern (get_prop rule (str "extension")).

(** The text [JSON.stringify] gives for [v] is not empty and
    [JSON.parse] reads [v] back from it. *)
Definition round_trips `{Host} `{Serializer} (v : jsval) : Prop :=
  exists s, JSON_stringify v = Some s /\ s <> [] /\ JSON_parse s = Some v.

(** A rule after its folder name went through the sanitizer once more. *)
Definition resanitized (r : Rule) : Rule :=
  {| id := id r;
     extension := extension r;
     foldername := SecurityUtils.sanitizeFolderName (JStr (foldername r)) |}.

(** Response headers of a download, and a listener state with no URL
    marked. *)
Definition attachment_headers : list header :=
  [ mkHeader (str "Content-Type") (str "application/pdf");
    mkHeader (str "Content-Disposition")
             (str "Attachment; filename=report.pdf") ].

Definition unmarked : DownloadInterceptor.interception :=
  DownloadInterceptor.mkInterception ∅ [].

(** Every term of the comma-separated pattern [p] is non-empty and made of
    characters compared literally. *)
Definition plain_terms (p : jsstring) : Prop :=
  Forall (fun t => t <> [] /\ forallb plain_char t = true) (split "," p).

(** The extension [e] is one of the terms of [p], letter case apart. *)
Definition names_extension (p e : jsstring) : bool :=
  existsb (fun t => jsstring_eqb e (toLowerCase t)) (split "," p).

(** * Properties *)

(** ** Strings *)

Lemma jsstring_eqb_spec (a b : jsstring) : jsstring_eqb a b = true <-> a = b.
Proof.
  revert b; induction a as [|x a IH]; intros [|y b]; simpl; try (split; congruence).
  rewrite andb_true_iff, Ascii.eqb_eq, IH. split.
  - intros [-> ->]; reflexivity.
  - intros [= -> ->]; auto.
Qed.

Lemma jsstring_eqb_refl (a : jsstring) : jsstring_eqb a a = true.
Proof. apply jsstring_eqb_spec; reflexivity. Qed.

Lemma trimStart_suffix (s : jsstring) :
  exists p, s = p ++ trimStart s /\ forallb isWhiteSpace p = true.
Proof.
  induction s as [|c s [p [E F]]]; simpl.
  - exists []; auto.
  - destruct (isWhiteSpace c) eqn:W.
    + exists (c :: p); simpl; rewrite W, F; split; [f_equal; exact E | reflexivity].
    + exists []; auto.
Qed.

Lemma trimEnd_prefix (s : jsstring) :
  exists q, s = trimEnd s ++ q /\ forallb isWhiteSpace q = true.
Proof.
  unfold trimEnd. destruct (trimStart_suffix (rev s)) as [p [E F]].
  exists (rev p). split.
  - rewrite <- rev_app_distr, <- E, rev_involutive; reflexivity.
  - rewrite forallb_forall in *. intros c Hc; apply F, in_rev; exact Hc.
Qed.


Lemma trimStart_no_leading_ws (s : jsstring) : no_leading_ws (trimStart s) = true.
Proof.
  induction s as [|c s IH]; simpl; auto.
  destruct (isWhiteSpace c) eqn:W; auto. simpl; rewrite W; reflexivity.
Qed.

Lemma trimStart_fixed (s : jsstring) : no_leading_ws s = true -> trimStart s = s.
Proof.
  destruct s as [|c s]; simpl; auto.
  destruct (isWhiteSpace c); simpl; congruence.
Qed.

Lemma no_leading_ws_prefix (a b : jsstring) :
  no_leading_ws (a ++ b) = true -> no_leading_ws a = true.
Proof. destruct a; simpl; auto. Qed.

Lemma trim_no_leading_ws (s : jsstring) : no_leading_ws (trim s) = true.
Proof.
  unfold trim. destruct (trimEnd_prefix (trimStart s)) as [q [E _]].
  apply no_leading_ws_prefix with (b := q). rewrite <- E.
  apply trimStart_no_leading_ws.
Qed.

Lemma trimEnd_length (s : jsstring) : length (trimEnd s) <= length s.
Proof.
  destruct (trimEnd_prefix s) as [q [E _]].
  rewrite E at 2. rewrite length_app. lia.
Qed.

Lemma trimStart_length (s : jsstring) : length (trimStart s) <= length s.
Proof.
  destruct (trimStart_suffix s) as [q [E _]].
  rewrite E at 2. rewrite length_app. lia.
Qed.

Lemma trim_length (s : jsstring) : length (trim s) <= length s.
Proof.
  unfold trim. pose proof (trimEnd_length (trimStart s)).
  pose proof (trimStart_length s). lia.
Qed.

Lemma trimEnd_fixed_length (s : jsstring) :
  length (trimEnd s) = length s -> trimEnd s = s.
Proof.
  intros L. destruct (trimEnd_prefix s) as [q [E _]].
  assert (q = []) as ->.
  { apply length_zero_iff_nil. rewrite E in L at 2. rewrite length_app in L. lia. }
  rewrite app_nil_r in E. congruence.
Qed.

Lemma trimEnd_trimEnd (s : jsstring) : trimEnd (trimEnd s) = trimEnd s.
Proof.
  unfold trimEnd. rewrite rev_involutive.
  rewrite (trimStart_fixed (trimStart (rev s))); auto using trimStart_no_leading_ws.
Qed.

(** ** Folder-name sanitization *)

Section Sanitizer.
Import SecurityUtils.

Lemma includes_dotdot (s : jsstring) : includes s (str "..") = has_dotdot s.
Proof.
  induction s as [|c t IH]; [reflexivity|].
  change (includes (c :: t) (str "..")) with
    (startsWith (c :: t) (str "..") || includes t (str "..")).
  rewrite IH. unfold is_char.
  destruct t as [|d t']; cbn [startsWith str list_ascii_of_string has_dotdot].
  - rewrite andb_false_r; reflexivity.
  - rewrite andb_true_r, (Ascii.eqb_sym "." c), (Ascii.eqb_sym "." d).
    reflexivity.
Qed.

Lemma remove_dotdot_cons (c : ascii) (t : jsstring) :
  is_char "." c = false -> remove_dotdot (c :: t) = c :: remove_dotdot t.
Proof. intros Hc. destruct t; simpl; rewrite ?Hc; reflexivity. Qed.

Lemma jsstring_pair_ind (P : jsstring -> Prop) :
  P [] -> (forall c, P [c]) ->
  (forall c d t, P t -> P (d :: t) -> P (c :: d :: t)) ->
  forall s, P s.
Proof.
  intros H0 H1 H2 s.
  assert (P s /\ forall c, P (c :: s)) as [? _]; [|assumption].
  induction s as [|d t [IH1 IH2]]; split; auto.
Qed.

Lemma remove_dotdot_free (s : jsstring) : has_dotdot (remove_dotdot s) = false.
Proof.
  induction s as [| c | c d t IH1 IH2] using jsstring_pair_ind; try reflexivity.
  change (remove_dotdot (c :: d :: t)) with
    (if is_char "." c && is_char "." d then remove_dotdot t
     else c :: remove_dotdot (d :: t)).
  assert (forall u, is_char "." c && is_char "." d = false ->
            has_dotdot (d :: u) = false -> has_dotdot (c :: d :: u) = false) as step.
  { intros u Hcd Hu.
    change (has_dotdot (c :: d :: u)) with
      ((is_char "." c && is_char "." d) || has_dotdot (d :: u)).
    rewrite Hcd, Hu. reflexivity. }
  destruct (is_char "." c) eqn:Hc, (is_char "." d) eqn:Hd; cbn [andb].
  - exact IH1.
  - rewrite (remove_dotdot_cons d t Hd) in *. apply step; [reflexivity | exact IH2].
  - destruct (remove_dotdot (d :: t)) as [|e u] eqn:E; [reflexivity|].
    change (has_dotdot (c :: e :: u)) with
      ((is_char "." c && is_char "." e) || has_dotdot (e :: u)).
    rewrite Hc, IH2. reflexivity.
  - rewrite (remove_dotdot_cons d t Hd) in *. apply step; [reflexivity | exact IH2].
Qed.

Lemma remove_dotdot_fixed (s : jsstring) :
  has_dotdot s = false -> remove_dotdot s = s.
Proof.
  induction s as [|c t IH]; [reflexivity|].
  destruct t as [|d t']; [reflexivity|].
  intros Hs. change (has_dotdot (c :: d :: t')) with
    ((is_char "." c && is_char "." d) || has_dotdot (d :: t')) in Hs.
  apply orb_false_iff in Hs as [Hcd Ht].
  change (remove_dotdot (c :: d :: t')) with
    (if is_char "." c && is_char "." d then remove_dotdot t'
     else c :: remove_dotdot (d :: t')).
  rewrite Hcd, (IH Ht). reflexivity.
Qed.

Lemma remove_dotdot_In (s : jsstring) (x : ascii) :
  In x (remove_dotdot s) -> In x s.
Proof.
  induction s as [| c | c d t IH1 IH2] using jsstring_pair_ind; auto.
  change (remove_dotdot (c :: d :: t)) with
    (if is_char "." c && is_char "." d then remove_dotdot t
     else c :: remove_dotdot (d :: t)).
  destruct (is_char "." c && is_char "." d).
  - intros Hx. right; right; auto.
  - intros [->|Hx]; [left; reflexivity | right; auto].
Qed.

Lemma has_dotdot_app (a b : jsstring) :
  has_dotdot (a ++ b) = false -> has_dotdot a = false /\ has_dotdot b = false.
Proof.
  induction a as [|c a IH]; simpl; [auto|].
  destruct a as [|d a']; simpl in *.
  - destruct b; [auto|]. intros Hb. apply orb_false_iff in Hb as [_ Hb]. auto.
  - intros Hs. apply orb_false_iff in Hs as [Hcd Hs].
    destruct (IH Hs) as [Ha Hb]. rewrite Hcd, Ha. auto.
Qed.


Lemma remove_reserved_free (s : jsstring) :
  forallb (fun c => negb (reserved c)) (remove_reserved s) = true.
Proof.
  apply forallb_forall. intros c Hc.
  apply filter_In in Hc as [_ Hc]. exact Hc.
Qed.

Lemma remove_reserved_fixed (s : jsstring) :
  forallb (fun c => negb (reserved c)) s = true -> remove_reserved s = s.
Proof.
  induction s as [|c s IH]; simpl; [reflexivity|].
  intros Hs. apply andb_true_iff in Hs as [Hc Hs].
  rewrite Hc, (IH Hs). reflexivity.
Qed.

Lemma remove_leading_dot_tail (s : jsstring) :
  exists p, s = p ++ remove_leading_dot s.
Proof.
  destruct s as [|c s]; simpl; [exists []; reflexivity|].
  destruct (is_char "." c); [exists [c] | exists []]; reflexivity.
Qed.

Lemma trim_infix (s : jsstring) : exists p q, s = p ++ trim s ++ q.
Proof.
  unfold trim. destruct (trimStart_suffix s) as [p [Ep _]].
  destruct (trimEnd_prefix (trimStart s)) as [q [Eq _]].
  exists p, q. rewrite <- Eq. exact Ep.
Qed.

Lemma sanitize_chain_infix (s : jsstring) :
  exists p q, remove_dotdot (remove_reserved s) = p ++ sanitize_chain s ++ q.
Proof.
  unfold sanitize_chain, substring_to.
  set (u := remove_dotdot (remove_reserved s)).
  destruct (remove_leading_dot_tail u) as [p1 E1].
  destruct (trim_infix (remove_leading_dot u)) as [p2 [q2 E2]].
  exists (p1 ++ p2), (skipn 100 (trim (remove_leading_dot u)) ++ q2).
  rewrite E1 at 1. rewrite E2 at 1.
  rewrite <- (firstn_skipn 100 (trim (remove_leading_dot u))) at 1.
  rewrite <- !app_assoc. reflexivity.
Qed.

Lemma sanitize_chain_clean (s : jsstring) : clean (sanitize_chain s).
Proof.
  destruct (sanitize_chain_infix s) as [p [q E]].
  repeat split.
  - apply forallb_forall. intros c Hc.
    assert (In c (remove_reserved s)) as Hin.
    { apply remove_dotdot_In. rewrite E. apply in_or_app; right.
      apply in_or_app; left; exact Hc. }
    apply filter_In in Hin as [_ Hin]. exact Hin.
  - pose proof (remove_dotdot_free (remove_reserved s)) as F.
    rewrite E in F. apply has_dotdot_app in F as [_ F].
    apply has_dotdot_app in F as [F _]. exact F.
  - unfold sanitize_chain, substring_to. apply firstn_le_length.
  - unfold sanitize_chain, substring_to.
    apply no_leading_ws_prefix with
      (b := skipn 100 (trim (remove_leading_dot (remove_dotdot (remove_reserved s))))).
    rewrite firstn_skipn. apply trim_no_leading_ws.
Qed.


Lemma or_else_nonempty (a b : jsstring) : b <> [] -> or_else a b <> [].
Proof. unfold or_else. destruct a; simpl; congruence. Qed.

Lemma downloads_clean : clean (str "downloads").
Proof. repeat split; vm_compute; try reflexivity; lia. Qed.

Lemma sanitizeFolderName_clean (v : jsval) :
  clean (SecurityUtils.sanitizeFolderName v) /\
  SecurityUtils.sanitizeFolderName v <> [].
Proof.
  destruct v; simpl; try (split; [exact downloads_clean | discriminate]).
  split.
  - unfold or_else. destruct (truthy (SecurityUtils.sanitize_chain s)).
    + apply sanitize_chain_clean.
    + exact downloads_clean.
  - apply or_else_nonempty. discriminate.
Qed.

Lemma sanitize_chain_of_clean (r : jsstring) :
  clean r ->
  SecurityUtils.sanitize_chain r =
  substring_to 100 (trim (SecurityUtils.remove_leading_dot r)).
Proof.
  intros (Hr & Hd & _ & _). unfold SecurityUtils.sanitize_chain.
  rewrite (remove_reserved_fixed r Hr), (remove_dotdot_fixed r Hd). reflexivity.
Qed.

Lemma substring_to_length (n : nat) (s : jsstring) :
  length (substring_to n s) <= length s.
Proof. unfold substring_to. rewrite length_firstn. lia. Qed.

Lemma has_dotdot_leading (c : ascii) (t : jsstring) :
  has_dotdot (c :: t) = false -> is_char "." c = true ->
  startsWith t (str ".") = false.
Proof.
  destruct t as [|d t']; [reflexivity|].
  intros Hs Hc.
  change (has_dotdot (c :: d :: t')) with
    ((is_char "." c && is_char "." d) || has_dotdot (d :: t')) in Hs.
  apply orb_false_iff in Hs as [Hcd _]. rewrite Hc in Hcd. simpl in Hcd.
  cbn [startsWith str list_ascii_of_string]. unfold is_char in Hcd.
  rewrite Ascii.eqb_sym, Hcd. reflexivity.
Qed.

Lemma remove_dotdot_leftmost (u v : jsstring) :
  has_dotdot (u ++ str ".") = false ->
  remove_dotdot (u ++ str ".." ++ v) = u ++ remove_dotdot v.
Proof.
  induction u as [|c u IH]; intros Hu; [reflexivity|].
  destruct u as [|d u'].
  - cbn in Hu. rewrite andb_true_r, orb_false_r in Hu.
    change ([c] ++ str ".." ++ v) with (c :: str ".." ++ v).
    rewrite (remove_dotdot_cons c _ Hu). reflexivity.
  - change (has_dotdot ((c :: d :: u') ++ str ".")) with
      ((is_char "." c && is_char "." d) || has_dotdot ((d :: u') ++ str "."))
      in Hu.
    apply orb_false_iff in Hu as [Hcd Hu].
    change (remove_dotdot ((c :: d :: u') ++ str ".." ++ v)) with
      (if is_char "." c && is_char "." d
       then remove_dotdot (u' ++ str ".." ++ v)
       else c :: remove_dotdot ((d :: u') ++ str ".." ++ v)).
    rewrite Hcd, (IH Hu). reflexivity.
Qed.

Lemma trim_ends (s : jsstring) :
  no_leading_ws (trim s) = true /\ no_leading_ws (rev (trim s)) = true.
Proof.
  split; [apply trim_no_leading_ws|].
  unfold trim, trimEnd. rewrite rev_involutive. apply trimStart_no_leading_ws.
Qed.

(** C7.  For every input string, [sanitizeFolderName] removes the reserved
    characters, then every pair of adjacent periods, then one leading
    period, then trims white space and keeps the first 100 characters; when
    nothing is left it answers the fixed name [downloads].  Each step does
    exactly what its name says and keeps everything else.  The first drops
    the nine reserved characters and keeps the others in their order.  The
    second leaves a string without adjacent periods unchanged and otherwise
    removes the leftmost pair and goes on behind it, so that no pair
    survives.  The third removes the first character when it is a period
    and nothing otherwise.  The fourth removes a run of white space at
    either end and nothing else.  The fifth keeps the first 100 characters.
    The final name is non-empty, at most 100 characters long, free of
    reserved characters and of adjacent periods.  The options page applies
    the same chain without the fall-back. *)
Theorem sanitizeFolderName_pipeline (x : jsstring) :
  let s1 := remove_reserved x in
  let s2 := remove_dotdot s1 in
  let s3 := remove_leading_dot s2 in
  let s4 := trim s3 in
  let s5 := substring_to 100 s4 in
  let r := sanitizeFolderName (JStr x) in
  ((forall c, reserved c = true <->
              In c ["<"; ">"; ":"; ascii_of_N 34; "/"; "\"; "|"; "?"; "*"]%char) /\
   s1 = List.filter (fun c => negb (reserved c)) x /\
   (forall c, In c s1 <-> In c x /\ reserved c = false)) /\
  (includes s2 (str "..") = false /\
   (includes s1 (str "..") = false -> s2 = s1) /\
   (forall u v, includes (u ++ str ".") (str "..") = false ->
                s1 = u ++ str ".." ++ v -> s2 = u ++ remove_dotdot v)) /\
  (startsWith s3 (str ".") = false /\
   (startsWith s2 (str ".") = true -> s2 = str "." ++ s3) /\
   (startsWith s2 (str ".") = false -> s3 = s2)) /\
  ((trimStart s4 = s4 /\ trimEnd s4 = s4) /\
   (no_leading_ws s4 = true /\ no_leading_ws (rev s4) = true) /\
   exists w1 w2, s3 = w1 ++ s4 ++ w2 /\
                 forallb isWhiteSpace w1 = true /\
                 forallb isWhiteSpace w2 = true) /\
  (s5 = firstn 100 s4 /\ length s5 = Nat.min 100 (length s4)) /\
  r = (match s5 with [] => str "downloads" | _ :: _ => s5 end) /\
  OptionsSecurityUtils.sanitizeFolderName (JStr x) = s5 /\
  (r <> [] /\ length r <= 100 /\ includes r (str "..") = false /\
   forall c, In c r -> reserved c = false).
Proof.
  intros s1 s2 s3 s4 s5 r.
  assert (has_dotdot s2 = false) as H2 by apply remove_dotdot_free.
  split; [|split; [|split; [|split; [|split; [|split; [|split]]]]]].
  - split; [|split].
    + intros c. unfold reserved, reserved_chars.
      rewrite existsb_exists. split.
      * intros [d [Hd Heq]]. apply Ascii.eqb_eq in Heq. subst d. exact Hd.
      * intros Hc. exists c. split; [exact Hc | apply Ascii.eqb_refl].
    + reflexivity.
    + intros c. unfold s1, remove_reserved.
      rewrite filter_In, negb_true_iff. reflexivity.
  - split; [rewrite includes_dotdot; exact H2|]. split.
    + rewrite includes_dotdot. apply remove_dotdot_fixed.
    + intros u v Hu Hs. unfold s2. rewrite Hs.
      rewrite includes_dotdot in Hu. apply remove_dotdot_leftmost, Hu.
  - assert (forall c t, s2 = c :: t ->
              startsWith s2 (str ".") = is_char "." c) as Hstart.
    { intros c t ->. cbn [startsWith str list_ascii_of_string].
      unfold is_char. rewrite Ascii.eqb_sym, andb_true_r. reflexivity. }
    unfold s3, remove_leading_dot.
    destruct s2 as [|c t] eqn:E; [repeat split; try reflexivity; discriminate|].
    rewrite (Hstart c t eq_refl).
    destruct (is_char "." c) eqn:Hc.
    + split; [apply (has_dotdot_leading c t H2 Hc)|].
      split; [|discriminate]. intros _.
      unfold is_char in Hc. apply Ascii.eqb_eq in Hc. subst c. reflexivity.
    + split; [rewrite (Hstart c t eq_refl); exact Hc|].
      split; [discriminate | reflexivity].
  - split; [split; [apply trimStart_fixed, trim_no_leading_ws
                   | unfold s4, trim; apply trimEnd_trimEnd]|].
    split; [apply trim_ends|]. unfold s4, trim.
    destruct (trimStart_suffix s3) as [w1 [E1 F1]].
    destruct (trimEnd_prefix (trimStart s3)) as [w2 [E2 F2]].
    exists w1, w2. rewrite <- E2. auto.
  - split; [reflexivity|]. unfold s5, substring_to. apply length_firstn.
  - unfold r. cbn [sanitizeFolderName].
    fold s1 s2 s3 s4 s5. unfold sanitize_chain.
    fold s1 s2 s3 s4 s5. unfold or_else. destruct s5; reflexivity.
  - reflexivity.
  - destruct (sanitizeFolderName_clean (JStr x)) as [(Hr & Hd & Hl & _) Hne].
    fold r in Hr, Hd, Hl, Hne.
    split; [exact Hne|]. split; [exact Hl|].
    split; [rewrite includes_dotdot; exact Hd|].
    intros c Hc. rewrite forallb_forall in Hr. apply negb_true_iff, Hr, Hc.
Qed.

(** C8, counterexample.  The input [" .a"] is sanitized to [".a"] (the
    period is not leading until the blank is trimmed), and [".a"] is
    sanitized to ["a"]. *)
Lemma sanitizeFolderName_not_idempotent :
  SecurityUtils.sanitizeFolderName
    (JStr (SecurityUtils.sanitizeFolderName (JStr (str " .a"))))
  <> SecurityUtils.sanitizeFolderName (JStr (str " .a")).
Proof. vm_compute. discriminate. Qed.

(** Truncation comes after trimming: a name cut at 100 characters may end
    with a blank, which a second pass trims. *)
Lemma sanitizeFolderName_truncated_blank :
  let x := repeat "a"%char 99 ++ str " b" in
  let r := sanitizeFolderName (JStr x) in
  r = repeat "a"%char 99 ++ str " " /\
  sanitizeFolderName (JStr r) = repeat "a"%char 99.
Proof. vm_compute. auto. Qed.

(** C8, amended.  Sanitizing a sanitized name changes nothing exactly when
    the sanitized name neither begins with a period nor ends with white
    space. *)
Theorem sanitizeFolderName_idempotent_iff (x : jsstring) :
  let r := SecurityUtils.sanitizeFolderName (JStr x) in
  SecurityUtils.sanitizeFolderName (JStr r) = r <->
  startsWith r (str ".") = false /\ trimEnd r = r.
Proof.
  intros r.
  destruct (sanitizeFolderName_clean (JStr x)) as [Hclean Hne].
  fold r in Hclean, Hne.
  cbn [SecurityUtils.sanitizeFolderName].
  rewrite (sanitize_chain_of_clean r Hclean).
  destruct Hclean as (_ & _ & Hlen & Hws).
  destruct r as [|c t] eqn:Er; [congruence|].
  cbn [SecurityUtils.remove_leading_dot startsWith str list_ascii_of_string].
  unfold is_char. rewrite (Ascii.eqb_sym "." c), andb_true_r.
  destruct (Ascii.eqb c ".") eqn:Hc.
  - (* a leading period is stripped by the second pass *)
    split; [|intros [? _]; discriminate].
    intros Heq. exfalso.
    pose proof (substring_to_length 100 (trim t)) as L1.
    pose proof (trim_length t) as L2.
    unfold or_else in Heq.
    destruct (substring_to 100 (trim t)) as [|e u] eqn:E; simpl in Heq.
    + apply Ascii.eqb_eq in Hc. subst c. discriminate Heq.
    + apply (f_equal (@length ascii)) in Heq. simpl in *. lia.
  - unfold trim. rewrite (trimStart_fixed (c :: t) Hws).
    split.
    + intros Heq. split; [reflexivity|].
      unfold or_else in Heq.
      destruct (substring_to 100 (trimEnd (c :: t))) as [|e u] eqn:E; simpl in Heq.
      * rewrite <- Heq. vm_compute. reflexivity.
      * apply trimEnd_fixed_length.
        pose proof (trimEnd_length (c :: t)) as L1.
        pose proof (substring_to_length 100 (trimEnd (c :: t))) as L2.
        rewrite E, Heq in L2. lia.
    + intros [_ Hfix]. rewrite Hfix. unfold substring_to.
      rewrite firstn_all2 by exact Hlen. reflexivity.
Qed.

End Sanitizer.

(** ** The rules read from storage *)

Lemma DEFAULT_RULES_valid (r : Rule) : In r DEFAULT_RULES -> valid_rule r.
Proof.
  intros Hr. repeat (destruct Hr as [<-|Hr]; [repeat split; vm_compute; try discriminate; try reflexivity; lia|]).
  destruct Hr.
Qed.

Lemma get_prop_JStr (e : jsval) (k s : jsstring) :
  get_prop e k = JStr s -> exists props, e = JObj props /\ lookup_prop k props = JStr s.
Proof.
  destruct e; simpl; try discriminate. intros E. eexists; split; [reflexivity | exact E].
Qed.

Section Rules.
Context `{Host}.

Lemma sanitizeRule_complete (e : jsval) :
  StorageManager.is_complete (StorageManager.sanitizeRule e) = true ->
  valid_rule (StorageManager.sanitizeRule e) /\
  exists props,
    e = JObj props /\
    lookup_prop (str "extension") props = JStr (extension (StorageManager.sanitizeRule e)) /\
    SecurityUtils.isValidExtensionPattern (lookup_prop (str "extension") props) = true.
Proof.
  unfold StorageManager.is_complete. intros Hc.
  apply andb_true_iff in Hc as [Hext _].
  assert (exists s, get_prop e (str "extension") = JStr s /\
                    SecurityUtils.isValidExtensionPattern (JStr s) = true /\
                    extension (StorageManager.sanitizeRule e) = s)
    as (s & E & V & Hx).
  { unfold StorageManager.sanitizeRule in *. cbn [extension] in *.
    destruct (get_prop e (str "extension")) as [| | | |s| |]; try discriminate Hext.
    destruct (SecurityUtils.isValidExtensionPattern (JStr s)) eqn:V;
      [|discriminate Hext].
    exists s. auto. }
  destruct (get_prop_JStr e _ s E) as [props [-> Hl]].
  split.
  - cbn [SecurityUtils.isValidExtensionPattern] in V.
    destruct (200 <? length s)%nat eqn:L; [discriminate V|].
    apply Nat.ltb_ge in L.
    unfold SecurityUtils.pattern_regex_test in V. apply andb_true_iff in V as [Vt Vf].
    destruct (sanitizeFolderName_clean (get_prop (JObj props) (str "foldername")))
      as [(Hr & _ & Hlen & _) Hne].
    unfold valid_rule. rewrite Hx.
    repeat split; auto.
    + destruct s; [discriminate Vt | discriminate].
    + unfold StorageManager.sanitizeRule. cbn [id].
      unfold substring_to. apply firstn_le_length.
  - exists props. rewrite Hx, Hl. auto.
Qed.

(** C10.  Whatever storage holds under the key [rules] (a JSON text, an
    array, anything else, or nothing), every rule that [getRules] returns
    has a non-empty extension of at most 200 characters drawn from letters,
    digits, comma, period and asterisk, a non-empty folder name of at most
    100 characters without reserved characters, and an id of at most 50
    characters.  Such a rule is a default rule or was built from an object
    of the stored array whose [extension] is a valid pattern string. *)
Theorem getRules_valid (stored : jsval) (r : Rule) :
  In r (StorageManager.getRules stored) ->
  valid_rule r /\
  (In r DEFAULT_RULES \/
   exists items props,
     (stored = JArr items \/
      exists s, stored = JStr s /\ JSON_parse s = Some (JArr items)) /\
     In (JObj props) items /\
     r = StorageManager.sanitizeRule (JObj props) /\
     lookup_prop (str "extension") props = JStr (extension r) /\
     SecurityUtils.isValidExtensionPattern (JStr (extension r)) = true).
Proof.
  assert (forall items,
    In r (List.filter StorageManager.is_complete
           (map StorageManager.sanitizeRule
              (List.filter StorageManager.is_rule_object items))) ->
    valid_rule r /\
    exists props, In (JObj props) items /\
      r = StorageManager.sanitizeRule (JObj props) /\
      lookup_prop (str "extension") props = JStr (extension r) /\
      SecurityUtils.isValidExtensionPattern (JStr (extension r)) = true) as array_case.
  { intros items Hr. apply filter_In in Hr as [Hr Hc].
    apply in_map_iff in Hr as [e [<- He]]. apply filter_In in He as [He _].
    destruct (sanitizeRule_complete e Hc) as [Hv [props [-> [Hl Hp]]]].
    split; [exact Hv|]. exists props. rewrite Hl in Hp. auto. }
  assert (In r DEFAULT_RULES ->
    valid_rule r /\ (In r DEFAULT_RULES \/
      exists items props,
        (stored = JArr items \/
         exists s, stored = JStr s /\ JSON_parse s = Some (JArr items)) /\
        In (JObj props) items /\
        r = StorageManager.sanitizeRule (JObj props) /\
        lookup_prop (str "extension") props = JStr (extension r) /\
        SecurityUtils.isValidExtensionPattern (JStr (extension r)) = true))
    as default_case.
  { intros Hr. split; [apply DEFAULT_RULES_valid; exact Hr | left; exact Hr]. }
  unfold StorageManager.getRules.
  destruct stored as [| | b | q | s | items | props]; try exact default_case.
  - destruct (JSON_parse s) as [[| | b | q | s' | items | props]|] eqn:P;
      try exact default_case.
    intros Hr. destruct (array_case items Hr) as [Hv [props Hp]].
    split; [exact Hv|]. right. exists items, props.
    split; [right; exists s; auto | exact Hp].
  - intros Hr. destruct (array_case items Hr) as [Hv [props Hp]].
    split; [exact Hv|]. right. exists items, props.
    split; [left; reflexivity | exact Hp].
Qed.

End Rules.

Lemma getRules_valid_witness :
  let stored :=
    JArr [ JObj [ (str "id", JStr (str "rule-1"));
                  (str "extension", JStr (str "jpg,png"));
                  (str "foldername", JStr (str "pics/..x")) ];
           JNull;
           JStr (str "zip");
           JObj [ (str "extension", JStr (str "a b"));
                  (str "foldername", JStr (str "spaced")) ] ] in
  let r := mkRule (str "rule-1") (str "jpg,png") (str "picsx") in
  In r (StorageManager.getRules stored) /\ valid_rule r.
Proof.
  intros stored r.
  assert (In r (StorageManager.getRules stored)) as Hin.
  { left. reflexivity. }
  split; [exact Hin|].
  exact (proj1 (getRules_valid (H := example_host) stored r Hin)).
Defined.

(** ** Resolution of the target folder *)

Section Resolver.
Import FileMatcherService.
Context `{Host}.

Lemma matches_no_extension (p f : jsstring) :
  getFileExtension f = [] -> matches p f = false.
Proof.
  intros E. unfold matches. rewrite E. simpl.
  destruct (negb (truthy p) || negb (truthy f)); reflexivity.
Qed.

Lemma resolveFolder_none (rules : list Rule) (d f : jsstring) :
  (forall r, In r rules -> matches (extension r) f = false) ->
  resolveFolder rules d f = d.
Proof.
  induction rules as [|r rules IH]; intros Hall; simpl; [reflexivity|].
  rewrite (Hall r (or_introl eq_refl)). apply IH.
  intros r' Hr'. apply Hall. right; exact Hr'.
Qed.

(** C1.  For every ordered rule list, default folder and file name, the
    folder resolved is the folder of the first rule, in list order, whose
    pattern matches the extension of the file name, whatever the later
    rules are; it is the default folder when no rule matches, and so when
    the file name has no extension.  [determineTargetFolder] resolves in
    this way over the rules and the default folder read from storage. *)
Theorem resolveFolder_first_match
    (rules : list Rule) (defaultFolder filename : jsstring) :
  (forall pre rule post,
      rules = pre ++ rule :: post ->
      (forall r, In r pre -> matches (extension r) filename = false) ->
      matches (extension rule) filename = true ->
      resolveFolder rules defaultFolder filename = foldername rule) /\
  ((forall r, In r rules -> matches (extension r) filename = false) ->
   resolveFolder rules defaultFolder filename = defaultFolder) /\
  (getFileExtension filename = [] ->
   resolveFolder rules defaultFolder filename = defaultFolder) /\
  (forall storedRules storedFolder url suggestedFilename,
      determineTargetFolder storedRules storedFolder url suggestedFilename =
      resolveFolder (StorageManager.getRules storedRules)
                    (StorageManager.getDefaultFolder storedFolder)
                    (or_else (default [] suggestedFilename)
                             (getFilenameFromUrl url))).
Proof.
  split; [|split; [|split]].
  - intros pre rule post -> Hpre Hrule.
    induction pre as [|r pre IH]; simpl.
    + rewrite Hrule. reflexivity.
    + rewrite (Hpre r (or_introl eq_refl)). apply IH.
      intros r' Hr'. apply Hpre. right; exact Hr'.
  - apply resolveFolder_none.
  - intros E. apply resolveFolder_none. intros r _.
    apply matches_no_extension, E.
  - reflexivity.
Qed.

End Resolver.

Lemma resolveFolder_first_match_witness :
  let rules := [ mkRule (str "1") (str "jpg") (str "images");
                 mkRule (str "2") (str "jpg") (str "photos") ] in
  FileMatcherService.resolveFolder rules (str "downloads") (str "a.jpg")
    = str "images" /\
  FileMatcherService.resolveFolder rules (str "downloads") (str "a.zip")
    = str "downloads" /\
  FileMatcherService.resolveFolder rules (str "downloads") (str "README")
    = str "downloads".
Proof.
  intros rules. split; [|split].
  - destruct (resolveFolder_first_match (H := example_host)
                rules (str "downloads") (str "a.jpg")) as (Hfirst & _).
    apply (Hfirst [] (mkRule (str "1") (str "jpg") (str "images"))
                  [mkRule (str "2") (str "jpg") (str "photos")] eq_refl).
    + intros r [].
    + reflexivity.
  - destruct (resolveFolder_first_match (H := example_host)
                rules (str "downloads") (str "a.zip")) as (_ & Hnone & _).
    apply Hnone. intros r [<- | [<- | []]]; reflexivity.
  - destruct (resolveFolder_first_match (H := example_host)
                rules (str "downloads") (str "README")) as (_ & _ & Hnoext & _).
    apply Hnoext. reflexivity.
Defined.

(** ** Pattern matching *)

(** Case analysis on the eight bits of a code unit. *)
Ltac ascii_cases c :=
  destruct c as [[] [] [] [] [] [] [] []].

Lemma toLowerChar_idem (c : ascii) : toLowerChar (toLowerChar c) = toLowerChar c.
Proof. ascii_cases c; reflexivity. Qed.

Lemma isWhiteSpace_lower (c : ascii) :
  isWhiteSpace (toLowerChar c) = isWhiteSpace c.
Proof. ascii_cases c; reflexivity. Qed.

Lemma plain_char_lower (c : ascii) :
  plain_char c = true -> plain_char (toLowerChar c) = true.
Proof. ascii_cases c; vm_compute; congruence. Qed.

Lemma plain_char_facts (c : ascii) :
  plain_char c = true ->
  isWhiteSpace c = false /\ RegExp.syntax_char c = false /\
  Ascii.eqb c "," = false /\ Ascii.eqb c "*" = false /\ Ascii.eqb c "|" = false.
Proof. ascii_cases c; vm_compute; intuition congruence. Qed.

Lemma toLowerCase_idem (s : jsstring) : toLowerCase (toLowerCase s) = toLowerCase s.
Proof.
  unfold toLowerCase. rewrite map_map. apply map_ext, toLowerChar_idem.
Qed.

Lemma toLowerCase_plain (s : jsstring) :
  forallb plain_char s = true -> forallb plain_char (toLowerCase s) = true.
Proof.
  rewrite !forallb_forall. intros Hs c Hc.
  apply in_map_iff in Hc as [x [<- Hx]]. apply plain_char_lower, Hs, Hx.
Qed.

Lemma parse_plain (c : ascii) (rest : jsstring) :
  RegExp.syntax_char c = false ->
  RegExp.parse_alternative (c :: rest) =
  option_map (cons (RegExp.Char c)) (RegExp.parse_alternative rest).
Proof. ascii_cases c; intros Hc; try discriminate Hc; reflexivity. Qed.

(** *** split, join, replace *)

Lemma split_app_sep (c : ascii) (t s : jsstring) :
  forallb (fun x => negb (Ascii.eqb x c)) t = true ->
  split c (t ++ c :: s) = t :: split c s.
Proof.
  induction t as [|x t IH]; simpl; intros Ht.
  - rewrite Ascii.eqb_refl. reflexivity.
  - apply andb_true_iff in Ht as [Hx Ht]. apply negb_true_iff in Hx.
    rewrite Hx, (IH Ht). reflexivity.
Qed.

Lemma split_absent (c : ascii) (t : jsstring) :
  forallb (fun x => negb (Ascii.eqb x c)) t = true -> split c t = [t].
Proof.
  induction t as [|x t IH]; simpl; intros Ht; [reflexivity|].
  apply andb_true_iff in Ht as [Hx Ht]. apply negb_true_iff in Hx.
  rewrite Hx, (IH Ht). reflexivity.
Qed.

Lemma split_join (c : ascii) (ts : list jsstring) :
  ts <> [] ->
  Forall (fun t => forallb (fun x => negb (Ascii.eqb x c)) t = true) ts ->
  split c (join [c] ts) = ts.
Proof.
  intros Hne Hall. induction Hall as [|t ts Ht Hts IH]; [congruence|].
  destruct ts as [|t2 ts'].
  - apply split_absent, Ht.
  - change (join [c] (t :: t2 :: ts')) with (t ++ c :: join [c] (t2 :: ts')).
    rewrite (split_app_sep c t _ Ht), IH by discriminate. reflexivity.
Qed.

Lemma replace_char_absent (c : ascii) (by_ t : jsstring) :
  forallb (fun x => negb (Ascii.eqb x c)) t = true -> replace_char c by_ t = t.
Proof.
  unfold replace_char.
  induction t as [|x t IH]; simpl; intros Ht; [reflexivity|].
  apply andb_true_iff in Ht as [Hx Ht]. apply negb_true_iff in Hx.
  rewrite Hx, (IH Ht). reflexivity.
Qed.

Lemma replace_char_join (c : ascii) (by_ : jsstring) (ts : list jsstring) :
  Forall (fun t => forallb (fun x => negb (Ascii.eqb x c)) t = true) ts ->
  replace_char c by_ (join [c] ts) = join by_ ts.
Proof.
  intros Hall. induction Hall as [|t ts Ht Hts IH]; [reflexivity|].
  destruct ts as [|t2 ts'].
  - apply replace_char_absent, Ht.
  - change (join [c] (t :: t2 :: ts')) with (t ++ [c] ++ join [c] (t2 :: ts')).
    change (join by_ (t :: t2 :: ts')) with (t ++ by_ ++ join by_ (t2 :: ts')).
    unfold replace_char in *. rewrite !flat_map_app, IH.
    fold (replace_char c by_ t). rewrite (replace_char_absent c by_ t Ht).
    simpl. rewrite Ascii.eqb_refl, app_nil_r. reflexivity.
Qed.

Lemma toLowerCase_join (sep : jsstring) (ts : list jsstring) :
  toLowerCase (join sep ts) = join (toLowerCase sep) (map toLowerCase ts).
Proof.
  unfold toLowerCase. induction ts as [|t ts IH]; [reflexivity|].
  destruct ts as [|t2 ts']; [reflexivity|].
  change (join sep (t :: t2 :: ts')) with (t ++ sep ++ join sep (t2 :: ts')).
  rewrite !map_app, IH. reflexivity.
Qed.

Lemma forallb_join (P : ascii -> bool) (sep : jsstring) (ts : list jsstring) :
  forallb P sep = true -> Forall (fun t => forallb P t = true) ts ->
  forallb P (join sep ts) = true.
Proof.
  intros Hsep Hall. induction Hall as [|t ts Ht Hts IH]; [reflexivity|].
  destruct ts as [|t2 ts']; [exact Ht|].
  change (join sep (t :: t2 :: ts')) with (t ++ sep ++ join sep (t2 :: ts')).
  rewrite !forallb_app, Ht, Hsep, IH. reflexivity.
Qed.

Lemma forallb_impl (P Q : ascii -> bool) (s : jsstring) :
  (forall c, P c = true -> Q c = true) ->
  forallb P s = true -> forallb Q s = true.
Proof.
  intros HPQ. rewrite !forallb_forall. intros Hs c Hc. apply HPQ, Hs, Hc.
Qed.

Lemma remove_whitespace_absent (s : jsstring) :
  forallb (fun c => negb (isWhiteSpace c)) s = true -> remove_whitespace s = s.
Proof.
  unfold remove_whitespace.
  induction s as [|x s IH]; simpl; intros Hs; [reflexivity|].
  apply andb_true_iff in Hs as [Hx Hs]. rewrite Hx, (IH Hs). reflexivity.
Qed.

Lemma remove_whitespace_all (s : jsstring) :
  forallb isWhiteSpace s = true -> remove_whitespace s = [].
Proof.
  unfold remove_whitespace.
  induction s as [|x s IH]; simpl; intros Hs; [reflexivity|].
  apply andb_true_iff in Hs as [Hx Hs]. rewrite Hx, (IH Hs). reflexivity.
Qed.

Lemma remove_whitespace_app (a b : jsstring) :
  remove_whitespace (a ++ b) = remove_whitespace a ++ remove_whitespace b.
Proof. unfold remove_whitespace. apply List.filter_app. Qed.

(** *** Trimming *)

Lemma trim_decompose (s : jsstring) :
  exists w1 w2,
    s = w1 ++ trim s ++ w2 /\
    forallb isWhiteSpace w1 = true /\ forallb isWhiteSpace w2 = true.
Proof.
  unfold trim. destruct (trimStart_suffix s) as [w1 [E1 F1]].
  destruct (trimEnd_prefix (trimStart s)) as [w2 [E2 F2]].
  exists w1, w2. rewrite <- E2. auto.
Qed.

Lemma trim_plain (s : jsstring) :
  forallb (fun c => negb (isWhiteSpace c)) s = true -> trim s = s.
Proof.
  intros Hs. unfold trim, trimEnd.
  assert (forall u, forallb (fun c => negb (isWhiteSpace c)) u = true ->
                    trimStart u = u) as fixed.
  { intros [|c u]; simpl; [reflexivity|]. intros Hu.
    apply andb_true_iff in Hu as [Hc _]. apply negb_true_iff in Hc.
    rewrite Hc. reflexivity. }
  rewrite (fixed s Hs), fixed, rev_involutive; [reflexivity|].
  rewrite forallb_forall in *. intros c Hc. apply Hs, in_rev, Hc.
Qed.

Lemma trimStart_lower (s : jsstring) :
  trimStart (toLowerCase s) = toLowerCase (trimStart s).
Proof.
  induction s as [|c s IH]; [reflexivity|].
  cbn [toLowerCase map trimStart]. rewrite isWhiteSpace_lower.
  destruct (isWhiteSpace c); [exact IH | reflexivity].
Qed.

Lemma trim_lower (s : jsstring) : trim (toLowerCase s) = toLowerCase (trim s).
Proof.
  unfold trim, trimEnd. rewrite trimStart_lower.
  unfold toLowerCase at 1. rewrite <- map_rev.
  fold (toLowerCase (rev (trimStart s))). rewrite trimStart_lower.
  unfold toLowerCase. rewrite map_rev. reflexivity.
Qed.

Lemma plain_no_whitespace (s : jsstring) :
  forallb plain_char s = true ->
  forallb (fun c => negb (isWhiteSpace c)) s = true.
Proof.
  apply forallb_impl. intros c Hc. apply negb_true_iff, (plain_char_facts c Hc).
Qed.

Lemma remove_whitespace_lower (p : jsstring) :
  forallb plain_char (trim p) = true ->
  remove_whitespace (toLowerCase p) = toLowerCase (trim p).
Proof.
  intros Hp. destruct (trim_decompose p) as (w1 & w2 & E & F1 & F2).
  assert (forall w, forallb isWhiteSpace w = true ->
                    remove_whitespace (toLowerCase w) = []) as blank.
  { intros w Hw. apply remove_whitespace_all.
    rewrite forallb_forall in *. intros c Hc.
    apply in_map_iff in Hc as [x [<- Hx]].
    rewrite isWhiteSpace_lower. apply Hw, Hx. }
  rewrite E at 1. unfold toLowerCase at 1. rewrite !map_app.
  fold (toLowerCase w1) (toLowerCase (trim p)) (toLowerCase w2).
  rewrite !remove_whitespace_app, (blank w1 F1), (blank w2 F2), app_nil_r.
  apply remove_whitespace_absent, plain_no_whitespace, toLowerCase_plain, Hp.
Qed.

(** *** The regular expression of a list of plain terms *)

Lemma parse_chars (q rest : jsstring) :
  forallb plain_char q = true ->
  RegExp.parse_alternative (q ++ rest) =
  option_map (app (map RegExp.Char q)) (RegExp.parse_alternative rest).
Proof.
  induction q as [|c q IH]; intros Hq.
  - simpl. destruct (RegExp.parse_alternative rest); reflexivity.
  - simpl in Hq. apply andb_true_iff in Hq as [Hc Hq].
    change ((c :: q) ++ rest) with (c :: (q ++ rest)).
    rewrite (parse_plain c _ (proj1 (proj2 (plain_char_facts c Hc)))), (IH Hq).
    destruct (RegExp.parse_alternative rest); reflexivity.
Qed.

Lemma parse_wrap (q : jsstring) :
  forallb plain_char q = true ->
  RegExp.parse_alternative (wrap q) = Some (anchored q).
Proof.
  intros Hq. unfold wrap, anchored.
  change (str "^" ++ q ++ str "$") with ("^"%char :: (q ++ str "$")).
  change (RegExp.parse_alternative ("^"%char :: (q ++ str "$"))) with
    (option_map (cons RegExp.Bol) (RegExp.parse_alternative (q ++ str "$"))).
  rewrite (parse_chars q _ Hq). reflexivity.
Qed.

Lemma parse_all_wrap (ts : list jsstring) :
  Forall (fun t => forallb plain_char t = true) ts ->
  RegExp.parse_all (map wrap ts) = Some (map anchored ts).
Proof.
  intros Hall. induction Hall as [|t ts Ht Hts IH]; [reflexivity|].
  cbn [map RegExp.parse_all]. rewrite (parse_wrap t Ht), IH. reflexivity.
Qed.

Lemma match_here_chars (q : jsstring) (b : bool) (e : jsstring) :
  RegExp.match_here (map RegExp.Char q ++ [RegExp.Eol]) b e = jsstring_eqb e q.
Proof.
  revert b e. induction q as [|x q IH]; intros b e.
  - destruct e; reflexivity.
  - destruct e as [|c e]; [reflexivity|].
    cbn [map app RegExp.match_here jsstring_eqb]. rewrite IH. reflexivity.
Qed.

Lemma search_Bol_later (atoms : list RegExp.atom) (s : jsstring) :
  RegExp.search (RegExp.Bol :: atoms) false s = false.
Proof. induction s as [|c s IH]; simpl; [reflexivity | exact IH]. Qed.

Lemma search_anchored (q e : jsstring) :
  RegExp.search (anchored q) true e = jsstring_eqb e q.
Proof.
  unfold anchored.
  assert (RegExp.match_here (RegExp.Bol :: map RegExp.Char q ++ [RegExp.Eol]) true e
          = jsstring_eqb e q) as Hm.
  { cbn [RegExp.match_here]. rewrite match_here_chars. reflexivity. }
  destruct e as [|c e]; cbn [RegExp.search]; rewrite Hm.
  - apply orb_false_r.
  - rewrite search_Bol_later. apply orb_false_r.
Qed.

Lemma test_anchored (ts : list jsstring) (e : jsstring) :
  RegExp.test (map anchored ts) e = existsb (jsstring_eqb e) ts.
Proof.
  unfold RegExp.test. induction ts as [|t ts IH]; [reflexivity|].
  cbn [map existsb]. rewrite search_anchored, IH. reflexivity.
Qed.

Section Matcher.
Import FileMatcherService.
Context `{Host}.

Lemma plain_Forall (P : ascii -> bool) (ts : list jsstring) :
  (forall c, plain_char c = true -> P c = true) ->
  Forall (fun t => forallb plain_char t = true) ts ->
  Forall (fun t => forallb P t = true) ts.
Proof.
  intros HP Hall. eapply List.Forall_impl; [|exact Hall].
  intros t Ht. exact (forallb_impl _ _ t HP Ht).
Qed.

Lemma regex_source_clean (p : jsstring) :
  regex_source p = source_of_clean (remove_whitespace (toLowerCase p)).
Proof. reflexivity. Qed.

Lemma source_of_clean_terms (ts : list jsstring) :
  ts <> [] ->
  Forall (fun t => forallb plain_char t = true) ts ->
  source_of_clean (join (str ",") ts) = join (str "|") (map wrap ts).
Proof.
  intros Hne Hall. unfold source_of_clean.
  change (str ",") with [","%char].
  rewrite replace_char_join.
  2:{ apply (plain_Forall _ ts); [|exact Hall].
      intros c Hc. apply negb_true_iff, (plain_char_facts c Hc). }
  rewrite replace_char_absent.
  2:{ apply forallb_join; [reflexivity|].
      apply (plain_Forall _ ts); [|exact Hall].
      intros c Hc. apply negb_true_iff, (plain_char_facts c Hc). }
  change (str "|") with ["|"%char].
  rewrite split_join; [reflexivity | exact Hne |].
  apply (plain_Forall _ ts); [|exact Hall].
  intros c Hc. apply negb_true_iff, (plain_char_facts c Hc).
Qed.

Lemma compile_terms (ts : list jsstring) :
  ts <> [] ->
  Forall (fun t => forallb plain_char t = true) ts ->
  RegExp.compile (join (str "|") (map wrap ts)) = Some (map anchored ts).
Proof.
  intros Hne Hall. unfold RegExp.compile.
  change (str "|") with ["|"%char].
  rewrite split_join.
  - apply parse_all_wrap, Hall.
  - destruct ts; [congruence | discriminate].
  - apply List.Forall_map. eapply List.Forall_impl; [|exact Hall].
    intros t Ht. unfold wrap. rewrite !forallb_app.
    rewrite (forallb_impl _ _ t (fun c Hc =>
      proj2 (negb_true_iff _)
            (proj2 (proj2 (proj2 (proj2 (plain_char_facts c Hc)))))) Ht).
    reflexivity.
Qed.

Lemma regex_source_terms (ts : list jsstring) :
  ts <> [] ->
  Forall (fun t => forallb plain_char t = true) ts ->
  regex_source (join (str ",") ts) =
  join (str "|") (map wrap (map toLowerCase ts)).
Proof.
  intros Hne Hall.
  assert (Forall (fun t => forallb plain_char t = true) (map toLowerCase ts))
    as Hlow.
  { apply List.Forall_map. eapply List.Forall_impl; [|exact Hall].
    intros t. apply toLowerCase_plain. }
  rewrite regex_source_clean, toLowerCase_join.
  change (toLowerCase (str ",")) with (str ",").
  rewrite remove_whitespace_absent.
  - apply source_of_clean_terms; [|exact Hlow].
    destruct ts; [congruence | discriminate].
  - apply forallb_join; [reflexivity|].
    apply (plain_Forall _ _); [|exact Hlow].
    intros c Hc. apply negb_true_iff, (plain_char_facts c Hc).
Qed.

(** On plain terms the regular expression is an exact, case-insensitive
    comparison with each term. *)
Lemma regex_match_terms (ts : list jsstring) (e : jsstring) :
  ts <> [] ->
  Forall (fun t => forallb plain_char t = true) ts ->
  regex_match (join (str ",") ts) e =
  existsb (fun t => jsstring_eqb e (toLowerCase t)) ts.
Proof.
  intros Hne Hall. unfold regex_match, createRegexPattern.
  rewrite (regex_source_terms ts Hne Hall), compile_terms.
  - rewrite test_anchored. clear. induction ts as [|t ts IH]; [reflexivity|].
    cbn [map existsb]. rewrite IH. reflexivity.
  - destruct ts; [congruence | discriminate].
  - apply List.Forall_map. eapply List.Forall_impl; [|exact Hall].
    intros t. apply toLowerCase_plain.
Qed.

Lemma regex_match_trim (p e : jsstring) :
  forallb plain_char (trim p) = true ->
  regex_match p e = jsstring_eqb e (toLowerCase (trim p)).
Proof.
  intros Hp.
  assert (regex_source p = regex_source (join (str ",") [trim p])) as Hsrc.
  { rewrite !regex_source_clean. f_equal. cbn [join].
    rewrite (remove_whitespace_lower p Hp).
    symmetry. apply remove_whitespace_absent, plain_no_whitespace,
      toLowerCase_plain, Hp. }
  transitivity (regex_match (join (str ",") [trim p]) e).
  - unfold regex_match, createRegexPattern. rewrite Hsrc. reflexivity.
  - rewrite regex_match_terms.
    + cbn [existsb]. apply orb_false_r.
    + discriminate.
    + constructor; [exact Hp | constructor].
Qed.

Lemma includes_char (s : jsstring) (c : ascii) :
  includes s [c] = existsb (Ascii.eqb c) s.
Proof.
  induction s as [|x s IH]; [reflexivity|].
  cbn [includes startsWith existsb]. rewrite IH, andb_true_r. reflexivity.
Qed.

Lemma getFileExtension_lower (f : jsstring) :
  toLowerCase (getFileExtension f) = getFileExtension f.
Proof.
  unfold getFileExtension.
  destruct (negb (truthy f)); [reflexivity|].
  destruct (lastIndexOf "." f =? -1)%Z; [reflexivity|].
  apply toLowerCase_idem.
Qed.

(** A character that is neither white space nor plain does not occur in a
    pattern whose trimmed form is plain. *)
Lemma plain_excludes (p : jsstring) (c : ascii) :
  isWhiteSpace c = false -> plain_char c = false ->
  forallb plain_char (trim p) = true -> includes p [c] = false.
Proof.
  intros Hw Hc Hp. rewrite includes_char.
  apply not_true_is_false. intros Hex.
  apply existsb_exists in Hex as [x [Hx Heq]].
  apply Ascii.eqb_eq in Heq. subst x.
  destruct (trim_decompose p) as (w1 & w2 & E & F1 & F2).
  rewrite E in Hx. rewrite forallb_forall in F1, F2, Hp.
  apply in_app_or in Hx as [Hx | Hx]; [rewrite (F1 c Hx) in Hw; discriminate|].
  apply in_app_or in Hx as [Hx | Hx]; [rewrite (Hp c Hx) in Hc; discriminate|].
  rewrite (F2 c Hx) in Hw; discriminate.
Qed.

(** The two branches agree on plain patterns.  For every pattern that, once
    trimmed, holds no white space, no comma and no syntax character of
    regular expressions (so no asterisk and no period), and for every
    string [e], the exact comparison gives the same boolean as compiling
    the pattern with [createRegexPattern] and testing [e]; when [e] is the
    extension of a file name, both are the case-insensitive comparison of
    [e] with the trimmed pattern. *)
Lemma exact_match_refines_regex (p e : jsstring) :
  forallb plain_char (trim p) = true ->
  (includes p (str "*") = false /\ includes p (str ",") = false) /\
  exact_match p e = regex_match p e /\
  (forall f, e = getFileExtension f ->
     exact_match p e = jsstring_eqb (toLowerCase e) (toLowerCase (trim p))).
Proof.
  intros Hp.
  assert (exact_match p e = jsstring_eqb e (toLowerCase (trim p))) as Hexact.
  { unfold exact_match. rewrite trim_lower. reflexivity. }
  repeat apply conj.
  - apply plain_excludes; [reflexivity | reflexivity | exact Hp].
  - apply plain_excludes; [reflexivity | reflexivity | exact Hp].
  - rewrite Hexact, (regex_match_trim p e Hp). reflexivity.
  - intros f ->. rewrite Hexact, getFileExtension_lower. reflexivity.
Qed.

(** C3, at the failing input.  The pattern [a.c] passes
    [isValidExtensionPattern] and has neither asterisk nor comma.  On the
    extension [abc] the exact comparison answers false, [abc] and [a.c]
    being different strings, while the expression that
    [createRegexPattern] builds from the same pattern, [^a.c$], matches:
    the period is copied unescaped and stands for any character.  The two
    paths disagree; [matches] takes the exact one for this pattern. *)
Theorem exact_match_differs_from_regex :
  SecurityUtils.isValidExtensionPattern (JStr (str "a.c")) = true /\
  (includes (str "a.c") (str "*") = false /\
   includes (str "a.c") (str ",") = false) /\
  getFileExtension (str "x.abc") = str "abc" /\
  jsstring_eqb (toLowerCase (str "abc")) (toLowerCase (trim (str "a.c")))
  = false /\
  exact_match (str "a.c") (str "abc") = false /\
  regex_source (str "a.c") = str "^a.c$" /\
  regex_match (str "a.c") (str "abc") = true /\
  matches (str "a.c") (str "x.abc") = false.
Proof. vm_compute. repeat split. Qed.

(** C4, at the failing input.  The pattern [t.r,zip] has the two literal
    terms [t.r] and [zip]; the file [x.tar] has the extension [tar], which
    equals neither, and yet [matches] answers true: the period is copied
    unescaped into the regular expression, where it stands for any
    character.  Alone, the same term is compared exactly and does not
    match; and the documented pattern [*.zip] does not match [a.zip]. *)
Theorem matches_period_term :
  matches (str "t.r,zip") (str "x.tar") = true /\
  getFileExtension (str "x.tar") = str "tar" /\
  existsb (fun t => jsstring_eqb (toLowerCase (str "tar")) (toLowerCase t))
          [str "t.r"; str "zip"] = false /\
  matches (str "t.r") (str "x.tar") = false /\
  matches (str "*.zip") (str "a.zip") = false.
Proof. vm_compute. auto. Qed.

(** On non-empty plain terms, [matches] is what C4 describes: the extension
    of the file equals one of the terms, letter case apart. *)
Lemma matches_terms (ts : list jsstring) (f : jsstring) :
  ts <> [] ->
  Forall (fun t => t <> [] /\ forallb plain_char t = true) ts ->
  matches (join (str ",") ts) f =
  existsb (fun t => jsstring_eqb (getFileExtension f) (toLowerCase t)) ts.
Proof.
  intros Hne Hall.
  assert (Forall (fun t => forallb plain_char t = true) ts) as Hal.
  { eapply List.Forall_impl; [|exact Hall]. intros t [_ Ht]. exact Ht. }
  assert (forall e, e = [] ->
            existsb (fun t => jsstring_eqb e (toLowerCase t)) ts = false) as Hempty.
  { intros e ->. clear Hne Hal. induction Hall as [|t ts [Ht _] _ IH]; [reflexivity|].
    cbn [existsb]. rewrite IH. destruct t; [congruence | reflexivity]. }
  unfold matches.
  assert (truthy (join (str ",") ts) = true) as ->.
  { destruct Hall as [|t ts [Ht _] _]; [congruence|].
    destruct t; [congruence|]. destruct ts; reflexivity. }
  cbn [negb orb].
  destruct (truthy f) eqn:Hf; cbn [negb].
  2:{ destruct f; [|discriminate Hf]. symmetry. apply Hempty. reflexivity. }
  destruct (getFileExtension f) as [|c e] eqn:He; cbn [truthy negb].
  { symmetry. apply Hempty. reflexivity. }
  destruct (includes (join (str ",") ts) (str "*") ||
            includes (join (str ",") ts) (str ",")) eqn:Hinc.
  - apply regex_match_terms; assumption.
  - apply orb_false_iff in Hinc as [_ Hcomma].
    destruct ts as [|t [|t2 ts']]; [congruence| |].
    + cbn [join existsb]. rewrite orb_false_r.
      unfold exact_match. rewrite trim_plain; [reflexivity|].
      apply plain_no_whitespace, toLowerCase_plain. inversion Hal; assumption.
    + exfalso. change (str ",") with [","%char] in Hcomma.
      rewrite includes_char in Hcomma.
      change (join [","%char] (t :: t2 :: ts')) with
        (t ++ ","%char :: join [","%char] (t2 :: ts')) in Hcomma.
      rewrite existsb_app in Hcomma. cbn [existsb] in Hcomma.
      rewrite Ascii.eqb_refl, orb_true_r in Hcomma. discriminate.
Qed.

End Matcher.

(** ** Substrings and the tracking classifier *)

Lemma startsWith_spec (s p : jsstring) :
  startsWith s p = true <-> exists q, s = p ++ q.
Proof.
  revert s. induction p as [|x p IH]; intros s.
  - simpl. split; [exists s; reflexivity | reflexivity].
  - destruct s as [|y s]; simpl.
    + split; [discriminate | intros [q Hq]; discriminate].
    + rewrite andb_true_iff, Ascii.eqb_eq, IH. split.
      * intros [-> [q ->]]. exists q; reflexivity.
      * intros [q [= -> ->]]. split; [reflexivity | exists q; reflexivity].
Qed.

Lemma includes_spec (s sub : jsstring) :
  includes s sub = true <-> exists p q, s = p ++ sub ++ q.
Proof.
  induction s as [|x s IH].
  - cbn [includes]. rewrite orb_false_r, startsWith_spec. split.
    + intros [q Hq]. exists [], q. exact Hq.
    + intros [p [q Hq]]. destruct p; [exists q; exact Hq|discriminate].
  - cbn [includes]. rewrite orb_true_iff, startsWith_spec, IH. split.
    + intros [[q Hq] | [p [q Hq]]].
      * exists [], q. exact Hq.
      * exists (x :: p), q. rewrite Hq. reflexivity.
    + intros [[|y p] [q Hq]].
      * left. exists q. exact Hq.
      * right. injection Hq as -> ->. exists p, q. reflexivity.
Qed.

Lemma endsWith_spec (s suf : jsstring) :
  endsWith s suf = true <-> exists p, s = p ++ suf.
Proof.
  unfold endsWith. rewrite startsWith_spec. split.
  - intros [q Hq]. exists (rev q).
    rewrite <- (rev_involutive s), Hq, rev_app_distr, rev_involutive. reflexivity.
  - intros [p ->]. exists (rev p). apply rev_app_distr.
Qed.

Section Tracking.
Import DownloadInterceptor.
Context `{Host}.

Lemma tracks_spec (hostname domain : jsstring) :
  tracks hostname domain = true <->
  exists before after, hostname = before ++ domain ++ after.
Proof.
  unfold tracks. rewrite orb_true_iff, includes_spec, endsWith_spec. split.
  - intros [Hinc | [p ->]]; [exact Hinc|].
    exists (p ++ str "."), []. rewrite app_nil_r, <- app_assoc. reflexivity.
  - intros Hinc. left. exact Hinc.
Qed.

(** C5, amended.  The classifier answers true exactly when the URL parses
    and its lower-cased host name contains a denylisted entry as a
    substring; this covers a host name that equals an entry or is a
    subdomain of one, so the host [doubleclick.net] is classified as
    tracking and the host [example.com] is not.  A URL that does not parse
    is not tracking. *)
Theorem isTrackingOrAnalyticsUrl_substring (url : jsstring) :
  (isTrackingOrAnalyticsUrl url = true <->
   exists urlObj domain before after,
     URL_new url = Some urlObj /\ In domain trackingDomains /\
     toLowerCase (hostname urlObj) = before ++ domain ++ after) /\
  (forall urlObj domain,
     URL_new url = Some urlObj -> In domain trackingDomains ->
     (toLowerCase (hostname urlObj) = domain \/
      exists sub, toLowerCase (hostname urlObj) = sub ++ str "." ++ domain) ->
     isTrackingOrAnalyticsUrl url = true) /\
  (forall urlObj,
     URL_new url = Some urlObj ->
     (hostname urlObj = str "doubleclick.net" ->
      isTrackingOrAnalyticsUrl url = true) /\
     (hostname urlObj = str "example.com" ->
      isTrackingOrAnalyticsUrl url = false)) /\
  (URL_new url = None -> isTrackingOrAnalyticsUrl url = false).
Proof.
  assert (isTrackingOrAnalyticsUrl url = true <->
          exists urlObj domain before after,
            URL_new url = Some urlObj /\ In domain trackingDomains /\
            toLowerCase (hostname urlObj) = before ++ domain ++ after) as Hiff.
  { unfold isTrackingOrAnalyticsUrl. destruct (URL_new url) as [u|].
    - rewrite existsb_exists. split.
      + intros [d [Hd Ht]]. apply tracks_spec in Ht as [p [q Hpq]].
        exists u, d, p, q. auto.
      + intros (u' & d & p & q & [= <-] & Hd & Hpq).
        exists d. split; [exact Hd|]. apply tracks_spec. exists p, q. exact Hpq.
    - split; [discriminate|]. intros (u' & _ & _ & _ & Hu & _). discriminate. }
  split; [exact Hiff|]. split; [|split].
  - intros u d Hu Hd Hrel. apply Hiff.
    destruct Hrel as [Heq | [sub Heq]].
    + exists u, d, [], []. rewrite app_nil_r. auto.
    + exists u, d, (sub ++ str "."), []. rewrite app_nil_r, <- app_assoc. auto.
  - intros u Hu. unfold isTrackingOrAnalyticsUrl. rewrite Hu.
    split; intros ->; reflexivity.
  - intros Hu. unfold isTrackingOrAnalyticsUrl. rewrite Hu. reflexivity.
Qed.

End Tracking.

Section TrackingExamples.
Import DownloadInterceptor.

Lemma isTrackingOrAnalyticsUrl_substring_witness :
  isTrackingOrAnalyticsUrl (str "https://doubleclick.net/x") = true /\
  isTrackingOrAnalyticsUrl (str "https://example.com/report.pdf") = false /\
  isTrackingOrAnalyticsUrl (str "https://ads.doubleclick.net/x") = true /\
  isTrackingOrAnalyticsUrl (str "doubleclick.net") = false.
Proof.
  pose proof (isTrackingOrAnalyticsUrl_substring (H := example_host)) as T.
  split; [|split; [|split]].
  - destruct (T (str "https://doubleclick.net/x")) as (_ & _ & Hex & _).
    apply (Hex _ eq_refl). reflexivity.
  - destruct (T (str "https://example.com/report.pdf")) as (_ & _ & Hex & _).
    apply (Hex _ eq_refl). reflexivity.
  - destruct (T (str "https://ads.doubleclick.net/x")) as (_ & Hsub & _).
    apply (Hsub _ (str "doubleclick.net") eq_refl).
    + vm_compute. tauto.
    + right. exists (str "ads"). reflexivity.
  - destruct (T (str "doubleclick.net")) as (_ & _ & _ & Hbad).
    apply Hbad. reflexivity.
Defined.

(** C5, counterexample.  The host [myfacebook.com] is neither a denylisted
    entry nor a subdomain of one, and is classified as tracking. *)
Lemma isTrackingOrAnalyticsUrl_not_only_subdomains :
  URL_new (str "https://myfacebook.com/x") =
    Some (mkURL (str "https:") (str "myfacebook.com") (str "/x") []) /\
  isTrackingOrAnalyticsUrl (str "https://myfacebook.com/x") = true /\
  is_domain_or_subdomain (str "myfacebook.com") = false.
Proof. vm_compute. auto. Qed.

End TrackingExamples.

(** ** The navigation path *)

Section Navigation.
Import FileMatcherService DownloadInterceptor.
Context `{Host}.

Lemma isLikelyDownloadableFile_rejects (url : jsstring) :
  let extension := getFileExtension (getFilenameFromUrl url) in
  array_includes excludedExtensions extension = true \/
  array_includes downloadableExtensions extension = false ->
  ToBoolean (isLikelyDownloadableFile url) = false.
Proof.
  intros extension Hext. unfold isLikelyDownloadableFile. fold extension.
  destruct (array_includes excludedExtensions extension); [reflexivity|].
  destruct Hext as [Hex | Hdl]; [discriminate Hex|].
  rewrite Hdl. destruct extension; reflexivity.
Qed.

(** C6.  For every URL whose resolved extension is one of [vtt], [srt],
    [ass], [m3u8], [ts], whether or not the allowlist holds it too, and for
    every URL whose resolved extension is not in the allowlist, the
    navigation path rejects the download.  In particular a navigation
    whose path is [/video.m3u8] is rejected. *)
Theorem excluded_extension_rejected (url : jsstring) :
  let extension := getFileExtension (getFilenameFromUrl url) in
  (array_includes excludedExtensions extension = true \/
   array_includes downloadableExtensions extension = false ->
   ToBoolean (isLikelyDownloadableFile url) = false /\
   isUserInitiatedDownload url = JBool false) /\
  (forall urlObj,
     URL_new url = Some urlObj -> pathname urlObj = str "/video.m3u8" ->
     extension = str "m3u8" /\
     array_includes excludedExtensions extension = true /\
     isUserInitiatedDownload url = JBool false).
Proof.
  intros extension.
  assert (array_includes excludedExtensions extension = true \/
          array_includes downloadableExtensions extension = false ->
          ToBoolean (isLikelyDownloadableFile url) = false /\
          isUserInitiatedDownload url = JBool false) as Hgen.
  { intros Hext.
    pose proof (isLikelyDownloadableFile_rejects url Hext) as Hrej.
    split; [exact Hrej|]. unfold isUserInitiatedDownload.
    destruct (isTrackingOrAnalyticsUrl url); [reflexivity|].
    rewrite Hrej. reflexivity. }
  split; [exact Hgen|].
  intros u Hu Hp.
  assert (extension = str "m3u8") as He.
  { unfold extension, getFilenameFromUrl. rewrite Hu, Hp. reflexivity. }
  split; [exact He|]. split; [rewrite He; reflexivity|].
  apply Hgen. left. rewrite He. reflexivity.
Qed.

End Navigation.

Section NavigationExamples.
Import FileMatcherService DownloadInterceptor.

Lemma excluded_extension_rejected_witness :
  isUserInitiatedDownload (str "https://example.com/video.m3u8") = JBool false /\
  isUserInitiatedDownload (str "https://example.com/clip.ts") = JBool false /\
  isUserInitiatedDownload (str "https://example.com/notes.xyz") = JBool false.
Proof.
  pose proof (excluded_extension_rejected (H := example_host)) as T.
  split; [|split].
  - destruct (T (str "https://example.com/video.m3u8")) as [_ Hex].
    apply (Hex _ eq_refl). reflexivity.
  - destruct (T (str "https://example.com/clip.ts")) as [Hgen _].
    apply Hgen. left. reflexivity.
  - destruct (T (str "https://example.com/notes.xyz")) as [Hgen _].
    apply Hgen. right. reflexivity.
Defined.

End NavigationExamples.

(** ** The dispatcher *)

Section Dispatcher.
Import DownloadInterceptor.
Context `{Host}.

Lemma enter_pending (url : jsstring) (sf : option jsstring) (st : state) :
  downloadKey url sf ∈ pendingDownloads st ->
  enter url sf st = (Some (Normal None), st).
Proof.
  intros Hin. unfold enter.
  destruct (negb (SecurityUtils.isValidDownloadUrl url)); [reflexivity|].
  rewrite decide_True by exact Hin. reflexivity.
Qed.

Lemma enter_fresh (url : jsstring) (sf : option jsstring) (st : state) :
  SecurityUtils.isValidDownloadUrl url = true ->
  downloadKey url sf ∉ pendingDownloads st ->
  enter url sf st =
  (None, {| pendingDownloads := {[downloadKey url sf]} ∪ pendingDownloads st;
            requests := requests st;
            timers := timers st |}).
Proof.
  intros Hv Hnin. unfold enter. rewrite Hv. cbn [negb].
  rewrite decide_False by exact Hnin. reflexivity.
Qed.

(** C2.  For every url and suggested file name: when their key is already
    pending, a call returns null and leaves everything as it was, so no
    download is requested.  Hence of two calls in rapid succession with the
    same url and file name, the second returns null and exactly one
    download is requested, whether the second call arrives while the first
    is suspended or after the first has returned its download id. *)
Theorem duplicate_dispatch_returns_null
    (storedRules storedFolder : jsval) (url : jsstring)
    (suggestedFilename : option jsstring) (st : state) :
  let key := downloadKey url suggestedFilename in
  let options := downloadOptions storedRules storedFolder url suggestedFilename in
  (key ∈ pendingDownloads st ->
   forall settled,
     initiateControlledDownload storedRules storedFolder settled
       url suggestedFilename st = (Normal None, st)) /\
  (SecurityUtils.isValidDownloadUrl url = true ->
   key ∉ pendingDownloads st ->
   forall settled settled',
     let suspended := snd (enter url suggestedFilename st) in
     let finished :=
       snd (resume storedRules storedFolder settled url suggestedFilename suspended) in
     fst (enter url suggestedFilename st) = None /\
     initiateControlledDownload storedRules storedFolder settled'
       url suggestedFilename suspended = (Normal None, suspended) /\
     requests finished = options :: requests st) /\
  (SecurityUtils.isValidDownloadUrl url = true ->
   key ∉ pendingDownloads st ->
   forall downloadId settled',
     let done :=
       initiateControlledDownload storedRules storedFolder (Fulfilled downloadId)
         url suggestedFilename st in
     fst done = Normal (Some downloadId) /\
     requests (snd done) = options :: requests st /\
     initiateControlledDownload storedRules storedFolder settled'
       url suggestedFilename (snd done) = (Normal None, snd done)).
Proof.
  intros key options.
  assert (forall st', key ∈ pendingDownloads st' -> forall settled,
            initiateControlledDownload storedRules storedFolder settled
              url suggestedFilename st' = (Normal None, st')) as Hdup.
  { intros st' Hin settled. unfold initiateControlledDownload.
    rewrite (enter_pending url suggestedFilename st' Hin). reflexivity. }
  split; [apply Hdup|]. split.
  - intros Hv Hnin settled settled'.
    rewrite (enter_fresh url suggestedFilename st Hv Hnin). cbn [fst snd].
    split; [reflexivity|]. split.
    + apply Hdup. cbn [pendingDownloads].
      apply elem_of_union_l, elem_of_singleton. reflexivity.
    + destruct settled; reflexivity.
  - intros Hv Hnin downloadId settled' done.
    assert (done =
            (Normal (Some downloadId),
             {| pendingDownloads := {[key]} ∪ pendingDownloads st;
                requests := options :: requests st;
                timers := (30000%Z, key) :: timers st |})) as ->.
    { unfold done, initiateControlledDownload.
      rewrite (enter_fresh url suggestedFilename st Hv Hnin). reflexivity. }
    cbn [fst snd requests].
    split; [reflexivity|]. split; [reflexivity|].
    apply Hdup. cbn [pendingDownloads].
    apply elem_of_union_l, elem_of_singleton. reflexivity.
Qed.

(** C9.  When the download request of a dispatch is rejected, the call
    returns null, it does not throw, and the key is removed from the
    pending set at once without a timer, so that a retry with the same url
    and file name is accepted. *)
Theorem failed_issuance_releases_key
    (storedRules storedFolder : jsval) (url : jsstring)
    (suggestedFilename : option jsstring) (st : state) :
  let key := downloadKey url suggestedFilename in
  let failed :=
    resume storedRules storedFolder Rejected url suggestedFilename st in
  fst failed = Normal None /\
  pendingDownloads (snd failed) = (pendingDownloads st ∖ {[key]}) /\
  (key ∉ pendingDownloads (snd failed)) /\
  timers (snd failed) = timers st /\
  (SecurityUtils.isValidDownloadUrl url = true ->
   fst (enter url suggestedFilename (snd failed)) = None) /\
  (SecurityUtils.isValidDownloadUrl url = true ->
   key ∉ pendingDownloads st ->
   let called :=
     initiateControlledDownload storedRules storedFolder Rejected
       url suggestedFilename st in
   fst called = Normal None /\ pendingDownloads (snd called) = pendingDownloads st).
Proof.
  intros key failed.
  assert (key ∉ pendingDownloads (snd failed)) as Hgone.
  { unfold failed. cbn [resume try_catch issue on_error expire snd pendingDownloads].
    intros [_ Hne]%elem_of_difference. apply Hne, elem_of_singleton. reflexivity. }
  split; [reflexivity|]. split; [reflexivity|]. split; [exact Hgone|].
  split; [reflexivity|]. split.
  - intros Hv. unfold enter. rewrite Hv. cbn [negb].
    rewrite decide_False by exact Hgone. reflexivity.
  - intros Hv Hnin called.
    assert (called =
            (Normal None,
             {| pendingDownloads := ({[key]} ∪ pendingDownloads st) ∖ {[key]};
                requests :=
                  downloadOptions storedRules storedFolder url suggestedFilename
                    :: requests st;
                timers := timers st |})) as ->.
    { unfold called, initiateControlledDownload.
      rewrite (enter_fresh url suggestedFilename st Hv Hnin). reflexivity. }
    cbn [fst snd pendingDownloads]. split; [reflexivity|].
    apply set_eq. intros k.
    rewrite elem_of_difference, elem_of_union, elem_of_singleton.
    split; [tauto|]. intros Hk. split; [right; exact Hk|].
    intros ->. contradiction.
Qed.

End Dispatcher.

Section DispatcherExamples.
Import DownloadInterceptor.

Lemma duplicate_dispatch_returns_null_witness :
  let suspended := snd (enter report_url None idle_state) in
  let done :=
    initiateControlledDownload JUndefined JUndefined (Fulfilled 7)
      report_url None idle_state in
  (fst (enter report_url None idle_state) = None /\
   initiateControlledDownload JUndefined JUndefined (Fulfilled 8)
     report_url None suspended = (Normal None, suspended) /\
   requests (snd (resume JUndefined JUndefined (Fulfilled 7)
                    report_url None suspended))
     = [ mkOptions report_url (str "documents/report.pdf") (str "uniquify") ]) /\
  (fst done = Normal (Some 7%Z) /\
   requests (snd done)
     = [ mkOptions report_url (str "documents/report.pdf") (str "uniquify") ] /\
   initiateControlledDownload JUndefined JUndefined (Fulfilled 8)
     report_url None (snd done) = (Normal None, snd done)) /\
  initiateControlledDownload JUndefined JUndefined Rejected
    report_url None (snd done) = (Normal None, snd done).
Proof.
  intros suspended done.
  pose proof (duplicate_dispatch_returns_null (H := example_host)
                JUndefined JUndefined report_url None idle_state) as T.
  cbv zeta in T. destruct T as (_ & Hrapid & Hlater).
  split; [|split].
  - apply (Hrapid eq_refl (not_elem_of_empty _) (Fulfilled 7) (Fulfilled 8)).
  - apply (Hlater eq_refl (not_elem_of_empty _) 7%Z (Fulfilled 8)).
  - pose proof (duplicate_dispatch_returns_null (H := example_host)
                  JUndefined JUndefined report_url None (snd done)) as T.
    cbv zeta in T. destruct T as (Hpending & _).
    apply Hpending.
    apply elem_of_union_l, elem_of_singleton. reflexivity.
Defined.

Lemma failed_issuance_releases_key_witness :
  let suspended := snd (enter report_url None idle_state) in
  let failed := resume JUndefined JUndefined Rejected report_url None suspended in
  let called :=
    initiateControlledDownload JUndefined JUndefined Rejected
      report_url None idle_state in
  fst failed = Normal None /\
  fst (enter report_url None (snd failed)) = None /\
  fst called = Normal None /\
  pendingDownloads (snd called) = pendingDownloads idle_state.
Proof.
  intros suspended failed called.
  pose proof (failed_issuance_releases_key (H := example_host)
                JUndefined JUndefined report_url None suspended) as T.
  cbv zeta in T. destruct T as (Hnull & _ & _ & _ & Hretry & _).
  split; [exact Hnull|]. split; [exact (Hretry eq_refl)|].
  pose proof (failed_issuance_releases_key (H := example_host)
                JUndefined JUndefined report_url None idle_state) as T.
  cbv zeta in T. destruct T as (_ & _ & _ & _ & _ & Hcall).
  apply (Hcall eq_refl (not_elem_of_empty _)).
Defined.

End DispatcherExamples.

(** * Further properties of the code *)

(** ** File names and extensions *)

Lemma includes_lacks (s : jsstring) (c : ascii) :
  includes s [c] = negb (lacks c s).
Proof.
  rewrite includes_char. unfold lacks.
  induction s as [|x s IH]; [reflexivity|].
  cbn [existsb forallb]. rewrite IH, negb_andb, negb_involutive, Ascii.eqb_sym.
  reflexivity.
Qed.

Lemma lacks_includes (s : jsstring) (c : ascii) :
  includes s [c] = false <-> lacks c s = true.
Proof. rewrite includes_lacks. destruct (lacks c s); simpl; intuition congruence. Qed.

Lemma lastIndexOf_absent (c : ascii) (s : jsstring) :
  lacks c s = true -> lastIndexOf c s = (-1)%Z.
Proof.
  induction s as [|x s IH]; [reflexivity|].
  cbn [lacks forallb lastIndexOf]. intros Hs.
  apply andb_true_iff in Hs as [Hx Hs]. apply negb_true_iff in Hx.
  rewrite (IH Hs), Hx. reflexivity.
Qed.

Lemma lastIndexOf_last (c : ascii) (base ext : jsstring) :
  lacks c ext = true ->
  lastIndexOf c (base ++ c :: ext) = Z.of_nat (length base).
Proof.
  intros He. induction base as [|x base IH].
  - cbn [app lastIndexOf length]. rewrite (lastIndexOf_absent c ext He).
    rewrite Ascii.eqb_refl. reflexivity.
  - cbn [app lastIndexOf length]. rewrite IH.
    destruct (0 <=? Z.of_nat (length base))%Z eqn:E; [lia|].
    apply Z.leb_gt in E. lia.
Qed.

Lemma lastIndexOf_cases (c : ascii) (s : jsstring) :
  (lacks c s = true /\ lastIndexOf c s = (-1)%Z) \/
  exists base ext,
    s = base ++ c :: ext /\ lacks c ext = true /\
    lastIndexOf c s = Z.of_nat (length base).
Proof.
  induction s as [|x s IH].
  - left. split; reflexivity.
  - destruct IH as [[Hs Hi] | (base & ext & -> & He & Hi)].
    + destruct (Ascii.eqb x c) eqn:Hx.
      * right. apply Ascii.eqb_eq in Hx. subst x.
        exists [], s. split; [reflexivity|]. split; [exact Hs|].
        apply (lastIndexOf_last c [] s Hs).
      * left. split.
        -- cbn [lacks forallb]. rewrite Hx. exact Hs.
        -- cbn [lastIndexOf]. rewrite Hi, Hx. reflexivity.
    + right. exists (x :: base), ext. split; [reflexivity|]. split; [exact He|].
      apply (lastIndexOf_last c (x :: base) ext He).
Qed.

Lemma toLowerChar_period (x : ascii) :
  Ascii.eqb (toLowerChar x) "." = Ascii.eqb x ".".
Proof. destruct x as [[] [] [] [] [] [] [] []]; reflexivity. Qed.

Lemma lacks_period_lower (s : jsstring) :
  lacks "." (toLowerCase s) = lacks "." s.
Proof.
  unfold lacks, toLowerCase. induction s as [|x s IH]; [reflexivity|].
  cbn [map forallb]. rewrite IH, toLowerChar_period. reflexivity.
Qed.

Section Extension.
Import FileMatcherService.

Lemma getFileExtension_split (base ext : jsstring) :
  lacks "." ext = true ->
  getFileExtension (base ++ "."%char :: ext) = toLowerCase ext.
Proof.
  intros He. unfold getFileExtension.
  assert (truthy (base ++ "."%char :: ext) = true) as ->.
  { destruct base; reflexivity. }
  cbn [negb]. rewrite (lastIndexOf_last "." base ext He).
  destruct (Z.of_nat (length base) =? -1)%Z eqn:E; [apply Z.eqb_eq in E; lia|].
  unfold substring_from.
  replace (Z.to_nat (Z.of_nat (length base) + 1)) with (length base + 1) by lia.
  rewrite skipn_app, skipn_all2 by lia.
  replace (length base + 1 - length base) with 1 by lia. reflexivity.
Qed.

(** X1.  The extension of a file name is the text after its last period,
    in lower case, whatever comes before that period; a name without a
    period has the empty extension; and an extension never holds a
    period. *)
Theorem getFileExtension_after_last_period (f : jsstring) :
  (forall base ext,
     f = base ++ str "." ++ ext -> includes ext (str ".") = false ->
     getFileExtension f = toLowerCase ext) /\
  (includes f (str ".") = false -> getFileExtension f = []) /\
  includes (getFileExtension f) (str ".") = false.
Proof.
  split; [|split].
  - intros base ext -> He. apply getFileExtension_split.
    apply lacks_includes, He.
  - intros Hf. apply (lacks_includes f ".") in Hf.
    unfold getFileExtension. rewrite (lastIndexOf_absent "." f Hf).
    destruct (negb (truthy f)); reflexivity.
  - apply (lacks_includes _ ".").
    destruct (lastIndexOf_cases "." f) as [[Hf Hi] | (base & ext & -> & He & _)].
    + unfold getFileExtension. rewrite Hi.
      destruct (negb (truthy f)); reflexivity.
    + rewrite (getFileExtension_split base ext He), lacks_period_lower.
      exact He.
Qed.

Lemma getFileExtension_after_last_period_witness :
  getFileExtension (str "archive.tar.GZ") = str "gz" /\
  getFileExtension (str "README") = [].
Proof.
  destruct (getFileExtension_after_last_period (str "archive.tar.GZ"))
    as (Hext & _).
  destruct (getFileExtension_after_last_period (str "README")) as (_ & Hnone & _).
  split.
  - apply (Hext (str "archive.tar") (str "GZ")); reflexivity.
  - apply Hnone. reflexivity.
Defined.

End Extension.

(** ** Pieces of a split *)

Lemma split_pieces (c : ascii) (s : jsstring) (p : jsstring) :
  In p (split c s) -> lacks c p = true /\ forall x, In x p -> In x s.
Proof.
  revert p. induction s as [|x s IH]; intros p Hp.
  - destruct Hp as [<- | []]. split; [reflexivity | auto].
  - cbn [split] in Hp. destruct (Ascii.eqb x c) eqn:Hx.
    + destruct Hp as [<- | Hp]; [split; [reflexivity | intros y []]|].
      destruct (IH p Hp) as [Hl Hs]. split; [exact Hl|].
      intros y Hy. right. apply Hs, Hy.
    + destruct (split c s) as [|q qs] eqn:E.
      * destruct Hp as [<- | []]. split.
        -- cbn [lacks forallb]. rewrite Hx. reflexivity.
        -- intros y [<- | []]. left. reflexivity.
      * destruct Hp as [<- | Hp].
        -- destruct (IH q (or_introl eq_refl)) as [Hl Hs]. split.
           ++ cbn [lacks forallb]. rewrite Hx. exact Hl.
           ++ intros y [<- | Hy]; [left; reflexivity | right; apply Hs, Hy].
        -- destruct (IH p (or_intror Hp)) as [Hl Hs]. split; [exact Hl|].
           intros y Hy. right. apply Hs, Hy.
Qed.

Lemma split_nonempty (c : ascii) (s : jsstring) : split c s <> [].
Proof.
  destruct s as [|x s]; [discriminate|]. cbn [split].
  destruct (Ascii.eqb x c); [discriminate|]. destruct (split c s); discriminate.
Qed.

Lemma pop_In (parts : list jsstring) : parts <> [] -> In (pop parts) parts.
Proof.
  unfold pop. induction parts as [|p ps IH]; [congruence|]. intros _.
  destruct ps as [|q qs]; [left; reflexivity|].
  right. apply IH. discriminate.
Qed.

Lemma first_In (parts : list jsstring) : parts <> [] -> In (first parts) parts.
Proof. destruct parts; [congruence|]. intros _. left. reflexivity. Qed.

Lemma lacks_sub (c : ascii) (p s : jsstring) :
  (forall x, In x p -> In x s) -> lacks c s = true -> lacks c p = true.
Proof.
  unfold lacks. rewrite !forallb_forall. intros Hsub Hs x Hx. apply Hs, Hsub, Hx.
Qed.

Lemma split_trailing (c : ascii) (s : jsstring) :
  split c (s ++ [c]) = split c s ++ [[]].
Proof.
  induction s as [|x s IH].
  - cbn. rewrite Ascii.eqb_refl. reflexivity.
  - cbn [app split]. rewrite IH. destruct (Ascii.eqb x c); [reflexivity|].
    pose proof (split_nonempty c s) as Hne.
    destruct (split c s); [congruence | reflexivity].
Qed.

Lemma pop_split_trailing (c : ascii) (s : jsstring) :
  pop (split c (s ++ [c])) = [].
Proof. unfold pop. rewrite split_trailing. apply last_last. Qed.

Section UrlNames.
Import FileMatcherService.
Context `{Host}.

(** X2.  The file name taken from a URL is never empty and holds no slash,
    question mark or number sign.  It is the fixed name [download] when the
    URL does not parse and when its path ends with a slash. *)
Theorem getFilenameFromUrl_plain_name (url : jsstring) :
  let name := getFilenameFromUrl url in
  name <> [] /\
  (includes name (str "/") = false /\
   includes name (str "?") = false /\
   includes name (str "#") = false) /\
  (URL_new url = None -> name = str "download") /\
  (forall urlObj,
     URL_new url = Some urlObj -> endsWith (pathname urlObj) (str "/") = true ->
     name = str "download").
Proof.
  intros name. unfold name, getFilenameFromUrl.
  destruct (URL_new url) as [u|].
  2:{ split; [discriminate|]. split; [split; [|split]; reflexivity|].
      split; [reflexivity | discriminate]. }
  set (filename := pop (split "/" (pathname u))).
  set (q := first (split "?" filename)).
  set (clean := first (split "#" q)).
  destruct (split_pieces "/" (pathname u) filename
              (pop_In _ (split_nonempty _ _))) as [Hslash _].
  destruct (split_pieces "?" filename q
              (first_In _ (split_nonempty _ _))) as [Hquest Hq].
  destruct (split_pieces "#" q clean
              (first_In _ (split_nonempty _ _))) as [Hhash Hc].
  assert (lacks "/" clean = true) as H1.
  { apply (lacks_sub "/" clean filename); [|exact Hslash].
    intros x Hx. apply Hq, Hc, Hx. }
  assert (lacks "?" clean = true) as H2.
  { apply (lacks_sub "?" clean q); [exact Hc | exact Hquest]. }
  split; [apply or_else_nonempty; discriminate|].
  split.
  - unfold or_else. destruct (truthy clean); [|split; [|split]; reflexivity].
    split; [|split]; apply lacks_includes; assumption.
  - split; [discriminate|].
    intros u' [= <-] Hend. apply endsWith_spec in Hend as [p Hp].
    assert (filename = []) as Hf.
    { unfold filename. rewrite Hp. apply pop_split_trailing. }
    unfold clean, q. rewrite Hf. reflexivity.
Qed.

End UrlNames.

Section UrlNamesExamples.
Import FileMatcherService.

Lemma getFilenameFromUrl_plain_name_witness :
  getFilenameFromUrl (str "not a url") = str "download" /\
  getFilenameFromUrl (str "https://example.com/files/") = str "download" /\
  getFilenameFromUrl (str "https://example.com/files/a.pdf?x=1") = str "a.pdf".
Proof.
  split; [|split].
  - destruct (getFilenameFromUrl_plain_name (H := example_host) (str "not a url"))
      as (_ & _ & Hbad & _).
    apply Hbad. reflexivity.
  - destruct (getFilenameFromUrl_plain_name (H := example_host)
                (str "https://example.com/files/")) as (_ & _ & _ & Hdir).
    apply (Hdir _ eq_refl). reflexivity.
  - reflexivity.
Defined.

End UrlNamesExamples.

(** ** Navigations taken for downloads *)

Section NavigationAccepted.
Import FileMatcherService DownloadInterceptor.
Context `{Host}.

Lemma lists_disjoint (e : jsstring) :
  array_includes downloadableExtensions e = true ->
  array_includes excludedExtensions e = false.
Proof.
  unfold array_includes. intros Hd.
  apply existsb_exists in Hd as [x [Hx He]].
  apply jsstring_eqb_spec in He. subst x.
  repeat (destruct Hx as [<- | Hx]; [reflexivity|]). destruct Hx.
Qed.

(** X3.  A navigation is taken for a download only when the answer is the
    boolean true, the URL parses, the tracking classifier rejects it, its
    extension is on the list of downloadable extensions and not on the
    excluded one, its query holds none of the suspicious parameters, the
    last segment of its path is longer than three characters, and the path
    holds neither [/ad/] nor [/track]. *)
Theorem isUserInitiatedDownload_accepts_only (url : jsstring) :
  ToBoolean (isUserInitiatedDownload url) = true ->
  isUserInitiatedDownload url = JBool true /\
  isTrackingOrAnalyticsUrl url = false /\
  (let extension := getFileExtension (getFilenameFromUrl url) in
   array_includes downloadableExtensions extension = true /\
   array_includes excludedExtensions extension = false) /\
  exists urlObj,
    URL_new url = Some urlObj /\
    (forall param, In param suspiciousParams ->
                   includes (search urlObj) param = false) /\
    3 < length (pop (split "/" (pathname urlObj))) /\
    includes (pathname urlObj) (str "/ad/") = false /\
    includes (pathname urlObj) (str "/track") = false.
Proof.
  unfold isUserInitiatedDownload.
  destruct (isTrackingOrAnalyticsUrl url); [discriminate|].
  destruct (ToBoolean (isLikelyDownloadableFile url)) eqn:Hl; [|discriminate].
  cbn [negb].
  assert (array_includes downloadableExtensions
            (getFileExtension (getFilenameFromUrl url)) = true) as Hd.
  { unfold isLikelyDownloadableFile in Hl.
    destruct (array_includes excludedExtensions _); [discriminate Hl|].
    destruct (truthy (getFileExtension (getFilenameFromUrl url))) eqn:Ht.
    - exact Hl.
    - destruct (getFileExtension (getFilenameFromUrl url)); discriminate. }
  destruct (URL_new url) as [u|]; [|discriminate].
  destruct (existsb (fun param => includes (search u) param) suspiciousParams)
    eqn:Hs; [discriminate|].
  destruct (truthy (getFileExtension (pop (split "/" (pathname u))))) eqn:Ht.
  2:{ destruct (getFileExtension (pop (split "/" (pathname u)))); discriminate. }
  cbn [ToBoolean]. intros Hb. rewrite Hb.
  apply andb_true_iff in Hb as [Hb Htrack].
  apply andb_true_iff in Hb as [Hlen Had].
  split; [reflexivity|]. split; [reflexivity|].
  split; [split; [exact Hd | apply lists_disjoint, Hd]|].
  exists u. split; [reflexivity|]. split.
  - intros param Hp. apply not_true_is_false. intros Hin.
    assert (existsb (fun param => includes (search u) param) suspiciousParams = true)
      as Hex by (apply existsb_exists; exists param; auto).
    congruence.
  - split; [apply Nat.ltb_lt, Hlen|].
    split; apply negb_true_iff; assumption.
Qed.

End NavigationAccepted.

Section NavigationExample.
Import FileMatcherService DownloadInterceptor.

Lemma isUserInitiatedDownload_accepts_only_witness :
  isUserInitiatedDownload (str "https://site.com/report.pdf") = JBool true /\
  isTrackingOrAnalyticsUrl (str "https://site.com/report.pdf") = false.
Proof.
  destruct (isUserInitiatedDownload_accepts_only (H := example_host)
              (str "https://site.com/report.pdf") eq_refl) as (Hv & Ht & _).
  split; assumption.
Defined.

End NavigationExample.

(** ** Folder names read from storage *)

Section Folders.
Context `{Host}.

Lemma getDefaultFolder_sanitized (folder : jsval) :
  StorageManager.getDefaultFolder folder = SecurityUtils.sanitizeFolderName folder.
Proof.
  destruct (sanitizeFolderName_clean folder) as [_ Hne].
  unfold StorageManager.getDefaultFolder, or_else.
  destruct (SecurityUtils.sanitizeFolderName folder); [congruence | reflexivity].
Qed.

(** X4.  Whatever storage holds as default folder, the folder read is the
    sanitized value: not empty, at most 100 characters, free of reserved
    characters and of adjacent periods.  A stored value that is not a
    string gives [downloads]. *)
Theorem getDefaultFolder_safe (folder : jsval) :
  let name := StorageManager.getDefaultFolder folder in
  name = SecurityUtils.sanitizeFolderName folder /\
  name <> [] /\ length name <= 100 /\
  includes name (str "..") = false /\
  (forall c, In c name -> SecurityUtils.reserved c = false) /\
  ((forall s, folder <> JStr s) -> name = str "downloads").
Proof.
  intros name.
  destruct (sanitizeFolderName_clean folder) as [(Hr & Hd & Hlen & _) Hne].
  assert (name = SecurityUtils.sanitizeFolderName folder) as Hname
    by apply getDefaultFolder_sanitized.
  rewrite Hname. split; [reflexivity|]. split; [exact Hne|]. split; [exact Hlen|].
  split; [rewrite includes_dotdot; exact Hd|]. split.
  - intros c Hc. rewrite forallb_forall in Hr. apply negb_true_iff, Hr, Hc.
  - intros Hns. destruct folder; try reflexivity. exfalso. apply (Hns s eq_refl).
Qed.

Lemma getDefaultFolder_safe_witness :
  StorageManager.getDefaultFolder JUndefined = str "downloads" /\
  StorageManager.getDefaultFolder (JNum (QArith_base.Qmake 7 1)) = str "downloads".
Proof.
  split.
  - apply (getDefaultFolder_safe JUndefined). intros s. discriminate.
  - apply (getDefaultFolder_safe (JNum (QArith_base.Qmake 7 1))).
    intros s. discriminate.
Defined.

Lemma getRules_foldername (stored : jsval) (r : Rule) :
  In r (StorageManager.getRules stored) ->
  exists v, foldername r = SecurityUtils.sanitizeFolderName v.
Proof.
  assert (In r DEFAULT_RULES ->
          exists v, foldername r = SecurityUtils.sanitizeFolderName v) as Hdef.
  { intros Hr. exists (JStr (foldername r)).
    repeat (destruct Hr as [<- | Hr]; [reflexivity|]). destruct Hr. }
  assert (forall items,
            In r (List.filter StorageManager.is_complete
                    (map StorageManager.sanitizeRule
                       (List.filter StorageManager.is_rule_object items))) ->
            exists v, foldername r = SecurityUtils.sanitizeFolderName v) as Harr.
  { intros items Hr. apply filter_In in Hr as [Hr _].
    apply in_map_iff in Hr as [e [<- _]].
    exists (get_prop e (str "foldername")). reflexivity. }
  unfold StorageManager.getRules.
  destruct stored as [| | b | q | s | items | props]; try exact Hdef.
  - destruct (JSON_parse s) as [[| | b | q | s' | items | props]|];
      try exact Hdef. apply Harr.
  - apply Harr.
Qed.

Lemma resolveFolder_cases (rules : list Rule) (d f : jsstring) :
  FileMatcherService.resolveFolder rules d f = d \/
  exists r, In r rules /\ FileMatcherService.resolveFolder rules d f = foldername r.
Proof.
  induction rules as [|r rules IH]; [left; reflexivity|].
  cbn [FileMatcherService.resolveFolder].
  destruct (FileMatcherService.matches (extension r) f).
  - right. exists r. split; [left; reflexivity | reflexivity].
  - destruct IH as [IH | [r' [Hr' IH]]]; [left; exact IH|].
    right. exists r'. split; [right; exact Hr' | exact IH].
Qed.

Lemma determineTargetFolder_sanitized
    (storedRules storedFolder : jsval) (url : jsstring) (sf : option jsstring) :
  exists v,
    FileMatcherService.determineTargetFolder storedRules storedFolder url sf =
    SecurityUtils.sanitizeFolderName v.
Proof.
  unfold FileMatcherService.determineTargetFolder.
  destruct (resolveFolder_cases (StorageManager.getRules storedRules)
              (StorageManager.getDefaultFolder storedFolder)
              (or_else (default [] sf) (FileMatcherService.getFilenameFromUrl url)))
    as [-> | [r [Hr ->]]].
  - exists storedFolder. apply getDefaultFolder_sanitized.
  - apply (getRules_foldername storedRules r Hr).
Qed.

Lemma reserved_slash (s : jsstring) :
  forallb (fun c => negb (SecurityUtils.reserved c)) s = true ->
  lacks "/" s = true /\ lacks "\" s = true.
Proof.
  intros Hs. split; apply (forallb_impl _ _ s) with (2 := Hs);
    intros c; destruct c as [[] [] [] [] [] [] [] []]; vm_compute; congruence.
Qed.

(** X5.  The request handed to the downloads API names the path made of
    the target folder, a slash and the sanitized file name, the file name
    being the suggested one or else the one taken from the URL.  The path
    has exactly these two segments; both are non-empty, at most 100
    characters long and hold neither adjacent periods nor a backslash.  The
    URL is passed on unchanged and conflicts are resolved by [uniquify]. *)
Theorem downloadOptions_path
    (storedRules storedFolder : jsval) (url : jsstring) (sf : option jsstring) :
  let options := DownloadInterceptor.downloadOptions storedRules storedFolder url sf in
  let folder :=
    FileMatcherService.determineTargetFolder storedRules storedFolder url sf in
  let rawFilename :=
    match sf with
    | Some (c :: suggested) => c :: suggested
    | _ => FileMatcherService.getFilenameFromUrl url
    end in
  let name := SecurityUtils.sanitizeFolderName (JStr rawFilename) in
  opt_filename options = folder ++ str "/" ++ name /\
  split "/" (opt_filename options) = [folder; name] /\
  (folder <> [] /\ length folder <= 100 /\ includes folder (str "..") = false /\
   includes folder (str "\") = false) /\
  (name <> [] /\ length name <= 100 /\ includes name (str "..") = false /\
   includes name (str "\") = false) /\
  opt_url options = url /\ opt_conflictAction options = str "uniquify".
Proof.
  intros options folder rawFilename name.
  destruct (determineTargetFolder_sanitized storedRules storedFolder url sf)
    as [v Hv].
  fold folder in Hv.
  assert (rawFilename =
          or_else (default [] sf) (FileMatcherService.getFilenameFromUrl url))
    as Hraw.
  { unfold rawFilename, or_else. destruct sf as [[|c suggested]|]; reflexivity. }
  destruct (sanitizeFolderName_clean v) as [(Hr1 & Hd1 & Hl1 & _) Hn1].
  destruct (sanitizeFolderName_clean (JStr rawFilename))
    as [(Hr2 & Hd2 & Hl2 & _) Hn2].
  rewrite <- Hv in Hr1, Hd1, Hl1, Hn1. fold name in Hr2, Hd2, Hl2, Hn2.
  destruct (reserved_slash folder Hr1) as [Hs1 Hb1].
  destruct (reserved_slash name Hr2) as [Hs2 Hb2].
  assert (opt_filename options = folder ++ str "/" ++ name) as Hpath.
  { unfold options, DownloadInterceptor.downloadOptions. cbn [opt_filename].
    fold folder. rewrite <- Hraw. fold name. unfold or_else.
    destruct name; [congruence | reflexivity]. }
  split; [exact Hpath|]. split.
  - rewrite Hpath. change (folder ++ str "/" ++ name) with (folder ++ "/"%char :: name).
    rewrite (split_app_sep "/" folder name Hs1), (split_absent "/" name Hs2).
    reflexivity.
  - split; [repeat split; auto;
            [rewrite includes_dotdot; exact Hd1 | apply lacks_includes, Hb1]|].
    split; [repeat split; auto;
            [rewrite includes_dotdot; exact Hd2 | apply lacks_includes, Hb2]|].
    split; reflexivity.
Qed.

End Folders.

(** ** Life cycle of a dispatch *)

Section DispatchCycle.
Import DownloadInterceptor.
Context `{Host}.

(** X6.  After a dispatch whose download request succeeds, the key stays
    pending and one timer of 30000 ms is armed for it; when that timer
    fires the pending set is what it was before the call, and the same
    download can be dispatched again. *)
Theorem fulfilled_dispatch_expires
    (storedRules storedFolder : jsval) (url : jsstring)
    (suggestedFilename : option jsstring) (downloadId : Z) (st : state) :
  SecurityUtils.isValidDownloadUrl url = true ->
  downloadKey url suggestedFilename ∉ pendingDownloads st ->
  let key := downloadKey url suggestedFilename in
  let done :=
    snd (initiateControlledDownload storedRules storedFolder
           (Fulfilled downloadId) url suggestedFilename st) in
  (key ∈ pendingDownloads done) /\
  timers done = (30000%Z, key) :: timers st /\
  pendingDownloads (expire key done) = pendingDownloads st /\
  fst (enter url suggestedFilename (expire key done)) = None.
Proof.
  intros Hv Hnin key done.
  assert (done =
          {| pendingDownloads := {[key]} ∪ pendingDownloads st;
             requests :=
               downloadOptions storedRules storedFolder url suggestedFilename
                 :: requests st;
             timers := (30000%Z, key) :: timers st |}) as ->.
  { unfold done, initiateControlledDownload.
    rewrite (enter_fresh url suggestedFilename st Hv Hnin). reflexivity. }
  cbn [pendingDownloads timers expire].
  assert (({[key]} ∪ pendingDownloads st) ∖ {[key]} = pendingDownloads st) as Hback.
  { apply set_eq. intros k.
    rewrite elem_of_difference, elem_of_union, elem_of_singleton.
    split; [tauto|]. intros Hk. split; [right; exact Hk|].
    intros ->. contradiction. }
  split; [apply elem_of_union_l, elem_of_singleton; reflexivity|].
  split; [reflexivity|]. split; [exact Hback|].
  rewrite enter_fresh; [reflexivity | exact Hv |].
  unfold expire. cbn [pendingDownloads]. rewrite Hback. exact Hnin.
Qed.

(** X7.  A dispatch issues at most one download request, and only for a
    valid URL whose key was not pending; it never changes whether another
    key is pending; and a URL that is not a valid download URL leaves the
    state untouched. *)
Theorem dispatch_frame
    (storedRules storedFolder : jsval) (settled : issuance) (url : jsstring)
    (suggestedFilename : option jsstring) (st : state) :
  let key := downloadKey url suggestedFilename in
  let options := downloadOptions storedRules storedFolder url suggestedFilename in
  let after :=
    snd (initiateControlledDownload storedRules storedFolder settled
           url suggestedFilename st) in
  (requests after = requests st \/
   (requests after = options :: requests st /\
    SecurityUtils.isValidDownloadUrl url = true /\
    key ∉ pendingDownloads st)) /\
  (forall k, k <> key -> k ∈ pendingDownloads after <-> k ∈ pendingDownloads st) /\
  (SecurityUtils.isValidDownloadUrl url = false -> after = st).
Proof.
  intros key options after. unfold after, initiateControlledDownload, enter.
  destruct (SecurityUtils.isValidDownloadUrl url) eqn:Hv; cbn [negb].
  2:{ cbn [snd]. split; [left; reflexivity|]. split; [tauto | reflexivity]. }
  fold key. destruct (decide (key ∈ pendingDownloads st)) as [Hin | Hnin].
  { cbn [snd]. split; [left; reflexivity|]. split; [tauto | discriminate]. }
  split; [|split; [|discriminate]].
  - right. destruct settled; cbn; fold options; auto.
  - intros k Hk. destruct settled; cbn; fold key.
    + rewrite elem_of_union, elem_of_singleton. tauto.
    + rewrite elem_of_difference, elem_of_union, elem_of_singleton. tauto.
Qed.

(** X8.  The key of a dispatch is the URL followed by the suggested name,
    with no separator, and the URL alone when no name is suggested.  So a
    URL with a suggested name has the key of the concatenated URL without
    one, an empty suggested name counts as none, and while the
    concatenation is pending both a dispatch of the URL with the name and
    a dispatch of the concatenated URL are dropped as duplicates. *)
Theorem downloadKey_merges (url tail : jsstring) (st : state) :
  downloadKey url None = url /\
  downloadKey url (Some tail) = url ++ tail /\
  downloadKey url (Some tail) = downloadKey (url ++ tail) None /\
  downloadKey url (Some []) = downloadKey url None /\
  (url ++ tail ∈ pendingDownloads st ->
   fst (enter url (Some tail) st) = Some (Normal None) /\
   fst (enter (url ++ tail) None st) = Some (Normal None)).
Proof.
  assert (forall u, downloadKey u None = u) as Hnone.
  { intros u. unfold downloadKey. cbn [default]. unfold or_else.
    cbn [truthy]. apply app_nil_r. }
  assert (downloadKey url (Some tail) = url ++ tail) as Hsome.
  { unfold downloadKey. cbn [default]. unfold or_else.
    destruct tail; cbn [truthy]; reflexivity. }
  split; [apply Hnone|]. split; [exact Hsome|].
  split; [rewrite Hsome, Hnone; reflexivity|].
  split; [unfold downloadKey; reflexivity|].
  intros Hin. split.
  - rewrite (enter_pending url (Some tail) st); [reflexivity|].
    rewrite Hsome. exact Hin.
  - rewrite (enter_pending (url ++ tail) None st); [reflexivity|].
    rewrite Hnone. exact Hin.
Qed.

End DispatchCycle.

Section DispatchCycleExamples.
Import DownloadInterceptor.

Lemma fulfilled_dispatch_expires_witness :
  let key := downloadKey report_url None in
  let done :=
    snd (initiateControlledDownload JUndefined JUndefined (Fulfilled 7)
           report_url None idle_state) in
  (key ∈ pendingDownloads done) /\
  timers done = [(30000%Z, key)] /\
  pendingDownloads (expire key done) = pendingDownloads idle_state /\
  fst (enter report_url None (expire key done)) = None.
Proof.
  exact (fulfilled_dispatch_expires (H := example_host) JUndefined JUndefined
           report_url None 7%Z idle_state eq_refl (not_elem_of_empty _)).
Defined.

Lemma downloadKey_merges_witness :
  let st := snd (enter (str "https://site.com/a") (Some (str ".pdf")) idle_state) in
  fst (enter (str "https://site.com/a.pdf") None st) = Some (Normal None).
Proof.
  intros st.
  destruct (downloadKey_merges (H := example_host)
              (str "https://site.com/a") (str ".pdf") st)
    as (_ & _ & _ & _ & Hdup).
  apply Hdup. apply elem_of_union_l, elem_of_singleton. reflexivity.
Defined.

Lemma dispatch_frame_witness :
  let url := str "ftp://site.com/report.pdf" in
  snd (initiateControlledDownload JUndefined JUndefined (Fulfilled 7)
         url None idle_state) = idle_state /\
  (downloadKey report_url None ∈
     pendingDownloads
       (snd (initiateControlledDownload JUndefined JUndefined (Fulfilled 7)
               url None
               (snd (enter report_url None idle_state))))).
Proof.
  intros url.
  destruct (dispatch_frame (H := example_host) JUndefined JUndefined (Fulfilled 7)
              url None idle_state) as (_ & _ & Hinvalid).
  destruct (dispatch_frame (H := example_host) JUndefined JUndefined (Fulfilled 7)
              url None (snd (enter report_url None idle_state)))
    as (_ & Hframe & _).
  split; [apply Hinvalid; reflexivity|].
  apply (Hframe (downloadKey report_url None)); [discriminate|].
  apply elem_of_union_l, elem_of_singleton. reflexivity.
Defined.

End DispatchCycleExamples.

(** ** Patterns accepted by the options page and by the background script *)

Lemma pattern_test_spaceless (s : jsstring) :
  SecurityUtils.isValidExtensionPattern (JStr s) =
  OptionsSecurityUtils.isValidExtensionPattern (JStr s) && spaceless s.
Proof.
  cbn [SecurityUtils.isValidExtensionPattern
       OptionsSecurityUtils.isValidExtensionPattern].
  destruct (200 <? length s); [reflexivity|].
  unfold SecurityUtils.pattern_regex_test, spaceless.
  destruct (truthy s); [|reflexivity]. cbn [andb].
  induction s as [|c s IH]; [reflexivity|].
  cbn [forallb]. rewrite IH. unfold OptionsSecurityUtils.pattern_char.
  assert (SecurityUtils.pattern_char c = true -> isWhiteSpace c = false) as Hc.
  { destruct c as [[] [] [] [] [] [] [] []]; vm_compute; congruence. }
  destruct (SecurityUtils.pattern_char c) eqn:Hp.
  - rewrite (Hc eq_refl). cbn [orb negb andb].
    destruct (forallb OptionsSecurityUtils.pattern_char s); reflexivity.
  - cbn [orb andb]. destruct (isWhiteSpace c); cbn [negb andb];
      [rewrite andb_false_r|]; reflexivity.
Qed.

(** X9.  The background script accepts a pattern exactly when the options
    page accepts it and it holds no white space. *)
Theorem isValidExtensionPattern_stricter (pattern : jsval) :
  SecurityUtils.isValidExtensionPattern pattern =
  OptionsSecurityUtils.isValidExtensionPattern pattern &&
  match pattern with
  | JStr s => spaceless s
  | _ => true
  end.
Proof.
  destruct pattern as [| | b | q | s | items | props]; try reflexivity.
  apply pattern_test_spaceless.
Qed.

(** ** Order of the rules read from storage *)

Section RuleOrder.
Context `{Host}.

Lemma sanitizeRule_complete_iff (e : jsval) :
  StorageManager.is_rule_object e
  && StorageManager.is_complete (StorageManager.sanitizeRule e)
  = has_valid_extension e.
Proof.
  unfold has_valid_extension, StorageManager.is_complete,
    StorageManager.is_rule_object.
  destruct (sanitizeFolderName_clean (get_prop e (str "foldername"))) as [_ Hne].
  assert (truthy (foldername (StorageManager.sanitizeRule e)) = true) as ->.
  { cbn [StorageManager.sanitizeRule foldername].
    destruct (SecurityUtils.sanitizeFolderName _); [congruence | reflexivity]. }
  rewrite andb_true_r. cbn [StorageManager.sanitizeRule extension].
  destruct e as [| | b | q | s | items | props];
    cbn [ToBoolean typeof_object andb get_prop];
    rewrite ?andb_false_r; try reflexivity.
  destruct (lookup_prop (str "extension") props) as [| | b | q | s | items | ps];
    try reflexivity.
  destruct (SecurityUtils.isValidExtensionPattern (JStr s)) eqn:V; [|reflexivity].
  cbn [SecurityUtils.isValidExtensionPattern] in V.
  destruct (200 <? length s); [discriminate|].
  unfold SecurityUtils.pattern_regex_test in V.
  apply andb_true_iff in V as [V _]. exact V.
Qed.

Lemma getRules_filter_map (items : list jsval) :
  StorageManager.getRules (JArr items) =
  map StorageManager.sanitizeRule (List.filter has_valid_extension items).
Proof.
  cbn [StorageManager.getRules].
  induction items as [|e items IH]; [reflexivity|].
  cbn [List.filter]. rewrite <- (sanitizeRule_complete_iff e).
  destruct (StorageManager.is_rule_object e); cbn [andb map List.filter].
  - destruct (StorageManager.is_complete (StorageManager.sanitizeRule e));
      cbn [map]; rewrite IH; reflexivity.
  - exact IH.
Qed.

(** X10.  From a stored array, [getRules] keeps exactly the entries whose
    [extension] passes the pattern test, in their stored order, each one
    sanitized; it returns no more rules than entries, and every entry with
    a valid extension is among them. *)
Theorem getRules_keeps_order (items : list jsval) :
  StorageManager.getRules (JArr items) =
  map StorageManager.sanitizeRule (List.filter has_valid_extension items) /\
  length (StorageManager.getRules (JArr items)) <= length items /\
  (forall e, In e items -> has_valid_extension e = true ->
             In (StorageManager.sanitizeRule e) (StorageManager.getRules (JArr items))).
Proof.
  pose proof (getRules_filter_map items) as Heq.
  split; [exact Heq|]. rewrite Heq. split.
  - rewrite length_map. apply filter_length_le.
  - intros e He Hv. apply in_map, filter_In. auto.
Qed.

End RuleOrder.

Section RuleOrderExamples.

Lemma getRules_keeps_order_witness :
  let junk := JObj [ (str "extension", JStr (str "a b"));
                     (str "foldername", JStr (str "x")) ] in
  let kept := JObj [ (str "extension", JStr (str "zip"));
                     (str "foldername", JStr (str "packed")) ] in
  StorageManager.getRules (H := example_host) (JArr [junk; JNull; kept])
  = [ mkRule [] (str "zip") (str "packed") ] /\
  In (StorageManager.sanitizeRule (H := example_host) kept)
     (StorageManager.getRules (H := example_host) (JArr [junk; JNull; kept])).
Proof.
  intros junk kept. split; [reflexivity|].
  apply (getRules_keeps_order (H := example_host) [junk; JNull; kept]).
  - right. right. left. reflexivity.
  - reflexivity.
Defined.

End RuleOrderExamples.

(** ** Reading back what was stored *)

Section Storage.
Import StorageManager.
Context `{Host} `{Serializer}.

Lemma set_succeeds (calls : sync_calls) (key : jsstring) (value : jsval)
    (st : storage) :
  fst (set calls key value st) = true ->
  exists s,
    (50 <? length key) = false /\ JSON_stringify value = Some s /\
    (Z.of_nat (length s) <= 7000)%Z /\
    snd (set calls key value st) =
    match calls with
    | SyncWorks => {| sync_area := <[key := value]> (sync_area st);
                      local_area := local_area st |}
    | SyncThrows => {| sync_area := sync_area st;
                       local_area := <[key := s]> (local_area st) |}
    end.
Proof.
  unfold set. destruct (50 <? length key) eqn:Hk; [discriminate|].
  destruct (JSON_stringify value) as [s|]; [|discriminate].
  destruct (7000 <? Z.of_nat (length s))%Z eqn:Hl; [discriminate|].
  apply Z.ltb_ge in Hl. intros _. exists s.
  destruct calls; cbn [snd]; auto.
Qed.

Lemma set_fails (calls : sync_calls) (key : jsstring) (value : jsval)
    (st : storage) :
  fst (set calls key value st) = false -> snd (set calls key value st) = st.
Proof.
  unfold set. destruct (50 <? length key); [reflexivity|].
  destruct (JSON_stringify value) as [s|]; [|reflexivity].
  destruct (7000 <? Z.of_nat (length s))%Z; [reflexivity|].
  destruct calls; discriminate.
Qed.

Lemma get_set_same (calls : sync_calls) (key : jsstring) (value : jsval)
    (st : storage) :
  fst (set calls key value st) = true ->
  round_trips value ->
  get calls key (snd (set calls key value st)) = value.
Proof.
  intros Hok (s' & Hs' & Hne & Hp).
  destruct (set_succeeds calls key value st Hok) as (s & Hk & Hs & _ & ->).
  assert (s' = s) as -> by congruence.
  unfold get. rewrite Hk. destruct calls; cbn [sync_area local_area].
  - rewrite lookup_insert_eq. reflexivity.
  - rewrite lookup_insert_eq, Hp. destruct s; [congruence | reflexivity].
Qed.

Lemma get_set_other (calls : sync_calls) (key k : jsstring) (value : jsval)
    (st : storage) :
  k <> key -> get calls k (snd (set calls key value st)) = get calls k st.
Proof.
  intros Hne. destruct (fst (set calls key value st)) eqn:Hok.
  - destruct (set_succeeds calls key value st Hok) as (s & _ & _ & _ & ->).
    unfold get. destruct calls; cbn [sync_area local_area];
      rewrite ?lookup_insert_ne by congruence; reflexivity.
  - rewrite (set_fails calls key value st Hok). reflexivity.
Qed.

(** X11.  A [set] that fails leaves both stores as they were.  A [set]
    that succeeds had a key of at most 50 characters and a serialized
    value of at most 7000; [get] of the same key then returns the value,
    through either store, when the value survives serialization.  In
    every case the other keys read as before. *)
Theorem set_then_get (calls : sync_calls) (key : jsstring) (value : jsval)
    (st : storage) :
  let written := set calls key value st in
  (fst written = false -> snd written = st) /\
  (fst written = true ->
   length key <= 50 /\
   (exists s, JSON_stringify value = Some s /\ (Z.of_nat (length s) <= 7000)%Z) /\
   (round_trips value -> get calls key (snd written) = value)) /\
  (forall k, k <> key -> get calls k (snd written) = get calls k st).
Proof.
  intros written. split; [apply set_fails|]. split.
  - intros Hok.
    destruct (set_succeeds calls key value st Hok) as (s & Hk & Hs & Hl & _).
    apply Nat.ltb_ge in Hk. split; [exact Hk|].
    split; [exists s; auto|]. apply get_set_same. exact Hok.
  - intros k Hne. apply get_set_other. exact Hne.
Qed.

Lemma validated_rule (e : jsval) :
  is_complete (sanitizeRule e) = true ->
  SecurityUtils.isValidExtensionPattern (JStr (extension (sanitizeRule e))) = true /\
  length (id (sanitizeRule e)) <= 50.
Proof.
  intros Hc. split.
  - unfold is_complete in Hc. apply andb_true_iff in Hc as [Hc _].
    cbn [sanitizeRule extension] in *.
    destruct (get_prop e (str "extension")) as [| | | |s| |]; try discriminate Hc.
    destruct (SecurityUtils.isValidExtensionPattern (JStr s)) eqn:V;
      [exact V | discriminate Hc].
  - cbn [sanitizeRule id]. unfold substring_to. apply firstn_le_length.
Qed.

Lemma sanitizeRule_rule_object (r : Rule) :
  SecurityUtils.isValidExtensionPattern (JStr (extension r)) = true ->
  length (id r) <= 50 ->
  has_valid_extension (rule_object r) = true /\
  sanitizeRule (rule_object r) = resanitized r.
Proof.
  intros Hv Hid. split; [exact Hv|].
  unfold sanitizeRule, resanitized, rule_object.
  cbn [get_prop lookup_prop jsstring_eqb str list_ascii_of_string Ascii.eqb
       Bool.eqb andb].
  rewrite Hv. f_equal.
  unfold val_or. cbn [ToBoolean]. unfold substring_to.
  destruct (id r) as [|c i] eqn:E; [reflexivity|].
  cbn [truthy String_]. apply firstn_all2. exact Hid.
Qed.

Lemma getRules_of_validated (rules : list Rule) :
  Forall (fun r => SecurityUtils.isValidExtensionPattern (JStr (extension r)) = true
                   /\ length (id r) <= 50) rules ->
  getRules (JArr (map rule_object rules)) = map resanitized rules.
Proof.
  intros Hall. rewrite getRules_filter_map.
  induction Hall as [|r rules [Hv Hid] _ IH]; [reflexivity|].
  destruct (sanitizeRule_rule_object r Hv Hid) as [Hhas Hsan].
  cbn [map List.filter]. rewrite Hhas. cbn [map]. rewrite Hsan, IH. reflexivity.
Qed.

Lemma getRules_validated (items : list jsval) :
  Forall (fun r => SecurityUtils.isValidExtensionPattern (JStr (extension r)) = true
                   /\ length (id r) <= 50) (getRules (JArr items)).
Proof.
  apply List.Forall_forall. intros r Hr. cbn [getRules] in Hr.
  apply filter_In in Hr as [Hr Hc].
  apply in_map_iff in Hr as [e [<- _]]. apply validated_rule, Hc.
Qed.

Lemma setRules_read_back (calls : sync_calls) (items : list jsval)
    (st : storage) :
  round_trips (JArr (map rule_object (getRules (JArr items)))) ->
  (forall s, JSON_stringify (JArr (map rule_object (getRules (JArr items)))) = Some s ->
             round_trips (JStr s)) ->
  fst (setRules calls (JArr items) st) = true ->
  currentRules calls (snd (setRules calls (JArr items) st))
  = map resanitized (getRules (JArr items)).
Proof.
  intros Harr Hstr Hok. destruct Harr as (s & Hs & _ & Hparse).
  assert (setRules calls (JArr items) st = set calls (str "rules") (JStr s) st)
    as Hw.
  { unfold setRules. fold (getRules (JArr items)). rewrite Hs. reflexivity. }
  rewrite Hw in *. unfold currentRules.
  rewrite (get_set_same calls (str "rules") (JStr s) st Hok (Hstr s Hs)).
  unfold getRules at 1. rewrite Hparse.
  apply getRules_of_validated, getRules_validated.
Qed.

(** X12.  After a successful [setRules], [getRules] returns the validated
    rules with their folder names sanitized once more: the same patterns
    in the same order, and the very same rules when every folder name is
    stable under the sanitizer. *)
Theorem setRules_then_getRules (calls : sync_calls) (items : list jsval)
    (st : storage) :
  let validated := getRules (JArr items) in
  let written := setRules calls (JArr items) st in
  round_trips (JArr (map rule_object validated)) ->
  (forall s, JSON_stringify (JArr (map rule_object validated)) = Some s ->
             round_trips (JStr s)) ->
  fst written = true ->
  currentRules calls (snd written) = map resanitized validated /\
  map extension (currentRules calls (snd written)) = map extension validated /\
  ((forall r, In r validated -> resanitized r = r) ->
   currentRules calls (snd written) = validated).
Proof.
  intros validated written Harr Hstr Hok.
  pose proof (setRules_read_back calls items st Harr Hstr Hok) as Hread.
  fold validated written in Hread.
  split; [exact Hread|]. split.
  - rewrite Hread, map_map. reflexivity.
  - intros Hst. rewrite Hread. rewrite <- (map_id validated) at 2.
    apply map_ext_in. exact Hst.
Qed.

(** X13.  Start-up leaves storage untouched when rules are stored, never
    writes any key but [rules], so that the default folder reads as before,
    and, when no rule is stored and the write succeeds, leaves the default
    rules in storage. *)
Theorem initialize_keeps_settings (calls : sync_calls) (st : storage) :
  (currentRules calls st <> [] -> initialize calls st = st) /\
  (forall k, k <> str "rules" ->
             get calls k (initialize calls st) = get calls k st) /\
  currentFolder calls (initialize calls st) = currentFolder calls st /\
  (currentRules calls st = [] ->
   round_trips (JArr (map rule_object DEFAULT_RULES)) ->
   (forall s, JSON_stringify (JArr (map rule_object DEFAULT_RULES)) = Some s ->
              round_trips (JStr s)) ->
   fst (setRules calls (JArr (map rule_object DEFAULT_RULES)) st) = true ->
   currentRules calls (initialize calls st) = DEFAULT_RULES).
Proof.
  assert (forall st', negb (truthy (currentFolder calls st')) = false) as Hfolder.
  { intros st'. unfold currentFolder.
    rewrite getDefaultFolder_sanitized.
    destruct (sanitizeFolderName_clean (get calls (str "defaultFolder") st'))
      as [_ Hne].
    destruct (SecurityUtils.sanitizeFolderName
                (get calls (str "defaultFolder") st'));
      [congruence | reflexivity]. }
  assert (initialize calls st =
          match currentRules calls st with
          | [] => snd (setRules calls (JArr (map rule_object DEFAULT_RULES)) st)
          | _ :: _ => st
          end) as Hinit.
  { unfold initialize. rewrite Hfolder. reflexivity. }
  assert (forall k, k <> str "rules" ->
                    get calls k (initialize calls st) = get calls k st) as Hother.
  { intros k Hk. rewrite Hinit. destruct (currentRules calls st); [|reflexivity].
    unfold setRules.
    apply get_set_other. exact Hk. }
  split; [|split; [exact Hother|split]].
  - intros Hne. rewrite Hinit. destruct (currentRules calls st); congruence.
  - unfold currentFolder. rewrite Hother; [reflexivity | discriminate].
  - intros Hempty Harr Hstr Hok. rewrite Hinit, Hempty.
    assert (getRules (JArr (map rule_object DEFAULT_RULES)) = DEFAULT_RULES) as Hd.
    { reflexivity. }
    rewrite (setRules_read_back calls (map rule_object DEFAULT_RULES) st).
    + rewrite Hd. reflexivity.
    + rewrite Hd. exact Harr.
    + rewrite Hd. exact Hstr.
    + exact Hok.
Qed.

End Storage.

Section StorageExamples.
Import StorageManager.
#[local] Existing Instance json_host.
#[local] Existing Instance json_serializer.

Lemma set_then_get_witness :
  let st := mkStorage ∅ ∅ in
  let value := JArr [JStr (str "a"); JBool true] in
  get SyncThrows (str "k") (snd (set SyncThrows (str "k") value st)) = value /\
  get SyncWorks (str "other") (snd (set SyncWorks (str "k") value st)) = JUndefined /\
  snd (set SyncWorks (repeat "k"%char 51) value st) = st.
Proof.
  intros st value.
  destruct (set_then_get SyncThrows (str "k") value st) as (_ & Hok & _).
  destruct (set_then_get SyncWorks (str "k") value st) as (_ & _ & Hother).
  destruct (set_then_get SyncWorks (repeat "k"%char 51) value st) as (Hno & _).
  split; [|split].
  - apply (Hok eq_refl). eexists. split; [reflexivity|].
    split; [discriminate | reflexivity].
  - rewrite (Hother (str "other")); [reflexivity | discriminate].
  - apply Hno. reflexivity.
Defined.

Lemma setRules_then_getRules_witness :
  let st := mkStorage ∅ ∅ in
  let items :=
    [ JObj [ (str "id", JStr (str "r1"));
             (str "extension", JStr (str "jpg"));
             (str "foldername", JStr (str " .pics")) ];
      JStr (str "junk") ] in
  getRules (JArr items) = [ mkRule (str "r1") (str "jpg") (str ".pics") ] /\
  currentRules SyncThrows (snd (setRules SyncThrows (JArr items) st))
    = [ mkRule (str "r1") (str "jpg") (str "pics") ].
Proof.
  intros st items. split; [reflexivity|].
  destruct (setRules_then_getRules SyncThrows items st) as (Hread & _).
  - eexists. split; [reflexivity|]. split; [discriminate | reflexivity].
  - intros s Hs. injection Hs as <-.
    eexists. split; [reflexivity|]. split; [discriminate | reflexivity].
  - reflexivity.
  - rewrite Hread. reflexivity.
Defined.

Lemma initialize_keeps_settings_witness :
  let st := mkStorage {[ str "rules" := JArr [] ]} ∅ in
  currentRules SyncWorks st = [] /\
  currentRules SyncWorks (initialize SyncWorks st) = DEFAULT_RULES /\
  get SyncWorks (str "defaultFolder") (initialize SyncWorks st) = JUndefined.
Proof.
  intros st.
  destruct (initialize_keeps_settings SyncWorks st) as (_ & Hother & _ & Hseed).
  split; [reflexivity|]. split.
  - apply Hseed.
    + reflexivity.
    + eexists. split; [reflexivity|]. split; [discriminate | reflexivity].
    + intros s Hs. injection Hs as <-.
      eexists. split; [reflexivity|]. split; [discriminate | reflexivity].
    + reflexivity.
  - rewrite Hother; [reflexivity | discriminate].
Defined.

End StorageExamples.

(** ** Content-Disposition headers *)

Section Disposition.
Import DownloadInterceptor.

Lemma until_quote_closed (q : ascii) (name rest : jsstring) :
  lacks q name = true ->
  forallb (fun c => negb (isLineTerminator c)) name = true ->
  until_quote q (name ++ q :: rest) = Some name.
Proof.
  induction name as [|c name IH]; intros Hq Hl.
  - cbn. rewrite Ascii.eqb_refl. reflexivity.
  - cbn [lacks forallb] in Hq, Hl.
    apply andb_true_iff in Hq as [Hc Hq]. apply andb_true_iff in Hl as [Hcl Hl].
    apply negb_true_iff in Hc, Hcl.
    cbn [app until_quote]. rewrite Hc, Hcl, (IH Hq Hl). reflexivity.
Qed.

Lemma before_run (stop : ascii -> bool) (name rest : jsstring) :
  forallb (fun c => negb (stop c)) name = true ->
  match rest with [] => True | c :: _ => stop c = true end ->
  before stop (name ++ rest) = name.
Proof.
  induction name as [|c name IH]; intros Hn Hr.
  - destruct rest as [|c rest]; [reflexivity|]. cbn. rewrite Hr. reflexivity.
  - cbn [forallb] in Hn. apply andb_true_iff in Hn as [Hc Hn].
    apply negb_true_iff in Hc. cbn [app before]. rewrite Hc, (IH Hn Hr).
    reflexivity.
Qed.

Lemma from_run (stop : ascii -> bool) (run : jsstring) (c : ascii)
    (tail : jsstring) :
  forallb (fun x => negb (stop x)) run = true -> stop c = true ->
  from stop (run ++ c :: tail) = c :: tail.
Proof.
  induction run as [|x run IH]; intros Hrun Hc.
  - cbn. rewrite Hc. reflexivity.
  - cbn [forallb] in Hrun. apply andb_true_iff in Hrun as [Hx Hrun].
    apply negb_true_iff in Hx. cbn [app from]. rewrite Hx. apply IH; assumption.
Qed.

Lemma match_filename_eq (value : jsstring) :
  match_filename value =
  match (if startsWith value (str "filename")
         then match from ends_name (skipn 8 value) with
              | c :: v => if is_char "=" c then Some (disposition_value v) else None
              | [] => None
              end
         else None) with
  | Some group => Some group
  | None =>
      match value with
      | _ :: rest => match_filename rest
      | [] => None
      end
  end.
Proof. destruct value; reflexivity. Qed.

(** The word [filename] overlaps itself nowhere: put behind a text that
    does not begin with it, it begins no earlier than where it was put. *)
Lemma filename_no_overlap (p t : jsstring) :
  p <> [] -> startsWith p (str "filename") = false ->
  startsWith (p ++ str "filename" ++ t) (str "filename") = false.
Proof.
  intros Hne Hp.
  destruct p as [|c1 [|c2 [|c3 [|c4 [|c5 [|c6 [|c7 [|c8 p]]]]]]]];
    [congruence| | | | | | | |];
    cbn in *; rewrite ?andb_false_r; try reflexivity.
  exact Hp.
Qed.

Lemma match_filename_parameter (pre ext tail : jsstring) :
  includes pre (str "filename") = false ->
  forallb (fun c => negb (ends_name c)) ext = true ->
  match_filename (pre ++ str "filename" ++ ext ++ str "=" ++ tail)
  = Some (disposition_value tail).
Proof.
  intros Hpre Hext. induction pre as [|c pre IH].
  - rewrite match_filename_eq.
    change ([] ++ str "filename" ++ ext ++ str "=" ++ tail) with
      (str "filename" ++ (ext ++ "="%char :: tail)).
    change (startsWith (str "filename" ++ (ext ++ "="%char :: tail)) (str "filename"))
      with true.
    change (skipn 8 (str "filename" ++ (ext ++ "="%char :: tail)))
      with (ext ++ "="%char :: tail).
    rewrite (from_run ends_name ext "=" tail Hext eq_refl). reflexivity.
  - change (includes (c :: pre) (str "filename")) with
      (startsWith (c :: pre) (str "filename") || includes pre (str "filename"))
      in Hpre.
    apply orb_false_iff in Hpre as [Hstart Hrest].
    rewrite match_filename_eq.
    change ((c :: pre) ++ str "filename" ++ ext ++ str "=" ++ tail) with
      ((c :: pre) ++ str "filename" ++ (ext ++ str "=" ++ tail)).
    rewrite (filename_no_overlap (c :: pre) _ ltac:(discriminate) Hstart).
    change ((c :: pre) ++ str "filename" ++ (ext ++ str "=" ++ tail)) with
      (c :: (pre ++ str "filename" ++ ext ++ str "=" ++ tail)).
    apply IH, Hrest.
Qed.

Lemma match_filename_absent (value : jsstring) :
  includes value (str "filename") = false -> match_filename value = None.
Proof.
  induction value as [|c value IH]; intros Hv.
  - reflexivity.
  - change (includes (c :: value) (str "filename")) with
      (startsWith (c :: value) (str "filename") || includes value (str "filename"))
      in Hv.
    apply orb_false_iff in Hv as [Hstart Hrest].
    rewrite match_filename_eq, Hstart. apply IH, Hrest.
Qed.

(** X14.  The file name read from a Content-Disposition value never holds
    a quote.  Take any value whose first [filename] is followed, after
    characters other than semicolon, equals sign and line feed, by an
    equals sign.  When a quote comes next, the name is the text up to the
    next quote of the same kind, whatever follows it, with the quotes of
    the other kind removed.  When another character comes next, the name
    is the text up to the next semicolon or line feed, with its quotes
    removed.  A value in which the word [filename] does not occur gives no
    name. *)
Theorem disposition_filename_forms (pre ext name rest : jsstring) :
  includes pre (str "filename") = false ->
  forallb (fun c => negb (ends_name c)) ext = true ->
  let parameter := pre ++ str "filename" ++ ext ++ str "=" in
  let unquoted := List.filter (fun c => negb (is_quote c)) in
  (forall value found,
     disposition_filename value = Some found ->
     forallb (fun c => negb (is_quote c)) found = true) /\
  (forall q,
     is_quote q = true ->
     lacks q name = true ->
     forallb (fun c => negb (isLineTerminator c)) name = true ->
     disposition_filename (parameter ++ [q] ++ name ++ [q] ++ rest)
     = Some (unquoted name)) /\
  (match name with [] => False | c :: _ => is_quote c = false end ->
   forallb (fun c => negb (ends_value c)) name = true ->
   match rest with [] => True | c :: _ => ends_value c = true end ->
   disposition_filename (parameter ++ name ++ rest) = Some (unquoted name)) /\
  (forall value,
     includes value (str "filename") = false ->
     disposition_filename value = None).
Proof.
  intros Hpre Hext parameter unquoted.
  assert (forall tail,
            match_filename (parameter ++ tail) = Some (disposition_value tail))
    as Hmatch.
  { intros tail. unfold parameter. rewrite <- !app_assoc.
    apply match_filename_parameter; assumption. }
  split; [|split; [|split]].
  - intros value found. unfold disposition_filename.
    destruct (match_filename value) as [group|]; [|discriminate].
    destruct (truthy group); [|discriminate]. intros [= <-].
    apply forallb_forall. intros c Hc. apply filter_In in Hc as [_ Hc]. exact Hc.
  - intros q Hq Hlq Hl. unfold disposition_filename. rewrite Hmatch.
    cbn [app disposition_value]. rewrite Hq.
    rewrite (until_quote_closed q name rest Hlq Hl).
    cbn [truthy List.filter]. rewrite Hq. cbn [negb].
    rewrite List.filter_app. cbn [List.filter]. rewrite Hq. cbn [negb].
    rewrite app_nil_r. reflexivity.
  - intros Hfirst Hv Hr. unfold disposition_filename. rewrite Hmatch.
    destruct name as [|c name]; [destruct Hfirst|].
    cbn [app disposition_value]. rewrite Hfirst.
    change (c :: name ++ rest) with ((c :: name) ++ rest).
    rewrite (before_run ends_value (c :: name) rest Hv Hr). reflexivity.
  - intros value Hv. unfold disposition_filename.
    rewrite (match_filename_absent value Hv). reflexivity.
Qed.

Lemma disposition_filename_forms_witness :
  disposition_filename
    (str "attachment; filename=" ++ [dquote] ++ str "report.pdf" ++ [dquote])
    = Some (str "report.pdf") /\
  disposition_filename (str "attachment; filename=report.pdf; size=3")
    = Some (str "report.pdf") /\
  disposition_filename (str "Attachment; filename*=UTF-8''a%20b.pdf")
    = Some (str "UTF-8a%20b.pdf") /\
  disposition_filename (str "attachment; name=report.pdf") = None.
Proof.
  destruct (disposition_filename_forms (str "attachment; ") [] (str "report.pdf") []
              eq_refl eq_refl) as (_ & Hquoted & _ & Hnone).
  destruct (disposition_filename_forms (str "attachment; ") [] (str "report.pdf")
              (str "; size=3") eq_refl eq_refl) as (_ & _ & Hplain & _).
  destruct (disposition_filename_forms (str "Attachment; ") (str "*")
              (str "UTF-8''a%20b.pdf") [] eq_refl eq_refl)
    as (_ & _ & Hextended & _).
  split; [|split; [|split]].
  - apply (Hquoted dquote); reflexivity.
  - apply Hplain; reflexivity.
  - apply Hextended; reflexivity.
  - apply Hnone. reflexivity.
Defined.

End Disposition.

(** ** The web-request listeners *)

Section Listeners.
Import DownloadInterceptor.
Context `{Host}.

Lemma scan_headers_found (headers : list header) (filename : option jsstring) :
  scan_headers headers = (true, filename) ->
  exists h,
    In h headers /\
    toLowerCase (header_name h) = str "content-disposition" /\
    includes (toLowerCase (header_value h)) (str "attachment") = true /\
    filename = disposition_filename (header_value h).
Proof.
  induction headers as [|h rest IH]; [discriminate|].
  cbn [scan_headers].
  destruct (jsstring_eqb (toLowerCase (header_name h)) (str "content-disposition"))
    eqn:Hn.
  - destruct (includes (toLowerCase (header_value h)) (str "attachment")) eqn:Ha.
    + intros [= <-]. exists h. apply jsstring_eqb_spec in Hn.
      split; [left; reflexivity | auto].
    + intros Hs. destruct (IH Hs) as [h' [Hin Hh']].
      exists h'. split; [right; exact Hin | exact Hh'].
  - intros Hs. destruct (IH Hs) as [h' [Hin Hh']].
    exists h'. split; [right; exact Hin | exact Hh'].
Qed.

Lemma handleResponse_marks (url : jsstring) (headers : list header)
    (st : interception) :
  fst (handleResponse url headers st) = true ->
  exists filename,
    scan_headers headers = (true, filename) /\
    isTrackingOrAnalyticsUrl url = false /\
    (url ∉ interceptedUrls st) /\
    snd (handleResponse url headers st) = intercept url filename st.
Proof.
  unfold handleResponse.
  destruct (isTrackingOrAnalyticsUrl url); [discriminate|].
  destruct (scan_headers headers) as [isDownload filename].
  destruct isDownload; cbn [andb]; [|discriminate].
  destruct (bool_decide (url ∈ interceptedUrls st)) eqn:Hm; cbn [negb fst snd];
    [discriminate|].
  intros _. apply bool_decide_eq_false in Hm. exists filename. auto.
Qed.

(** X15.  A response that is not cancelled leaves the state of the listener
    unchanged.  A response is cancelled only when its URL is not a tracking
    URL and not already marked, and some Content-Disposition header (name
    in any case) holds [attachment] (in any case); the URL is then marked
    and a download scheduled with the file name of that header. *)
Theorem handleResponse_attachment_only (url : jsstring) (headers : list header)
    (st : interception) :
  let answer := handleResponse url headers st in
  (fst answer = false -> snd answer = st) /\
  (fst answer = true ->
   isTrackingOrAnalyticsUrl url = false /\
   (url ∉ interceptedUrls st) /\
   exists h,
     In h headers /\
     toLowerCase (header_name h) = str "content-disposition" /\
     includes (toLowerCase (header_value h)) (str "attachment") = true /\
     snd answer = intercept url (disposition_filename (header_value h)) st).
Proof.
  intros answer. split.
  - unfold answer, handleResponse.
    destruct (isTrackingOrAnalyticsUrl url); [reflexivity|].
    destruct (scan_headers headers) as [isDownload filename].
    destruct isDownload; cbn [andb]; [|reflexivity].
    destruct (bool_decide (url ∈ interceptedUrls st)); cbn [negb fst snd];
      [reflexivity | discriminate].
  - intros Hok.
    destruct (handleResponse_marks url headers st Hok)
      as (filename & Hs & Ht & Hm & Hsnd).
    split; [exact Ht|]. split; [exact Hm|].
    destruct (scan_headers_found headers filename Hs) as (h & Hin & Hn & Ha & ->).
    exists h. auto.
Qed.

(** X16.  While a URL is marked, neither listener cancels a request for it
    nor schedules a second download, whichever listener marked it; and
    clearing the mark of a URL that was not marked before restores the
    set of marked URLs. *)
Theorem intercepted_once (url : jsstring) (filename : option jsstring)
    (headers : list header) (st : interception) :
  let marked := intercept url filename st in
  handleResponse url headers marked = (false, marked) /\
  handleMainFrameRequest url marked = (false, marked) /\
  (fst (handleResponse url headers st) = true ->
   handleMainFrameRequest url (snd (handleResponse url headers st))
   = (false, snd (handleResponse url headers st))) /\
  (fst (handleMainFrameRequest url st) = true ->
   snd (handleMainFrameRequest url st) = intercept url None st /\
   handleResponse url headers (snd (handleMainFrameRequest url st))
   = (false, snd (handleMainFrameRequest url st))) /\
  (url ∉ interceptedUrls st ->
   interceptedUrls (forget url marked) = interceptedUrls st).
Proof.
  intros marked.
  assert (forall f st', url ∈ interceptedUrls (intercept url f st')) as Hin.
  { intros f st'. cbn [intercept interceptedUrls].
    apply elem_of_union_l, elem_of_singleton. reflexivity. }
  assert (forall st', url ∈ interceptedUrls st' ->
            forall hs, handleResponse url hs st' = (false, st')) as Hresp.
  { intros st' Hm hs. unfold handleResponse.
    destruct (isTrackingOrAnalyticsUrl url); [reflexivity|].
    destruct (scan_headers hs) as [d f].
    rewrite (bool_decide_eq_true_2 _ Hm). cbn [negb]. rewrite andb_false_r.
    reflexivity. }
  assert (forall st', url ∈ interceptedUrls st' ->
            handleMainFrameRequest url st' = (false, st')) as Hreq.
  { intros st' Hm. unfold handleMainFrameRequest.
    destruct (ToBoolean (isUserInitiatedDownload url)); [|reflexivity].
    rewrite (bool_decide_eq_true_2 _ Hm). reflexivity. }
  split; [apply Hresp, Hin|]. split; [apply Hreq, Hin|]. split; [|split].
  - intros Hok. apply Hreq.
    destruct (handleResponse_marks url headers st Hok) as (f & _ & _ & _ & ->).
    apply Hin.
  - unfold handleMainFrameRequest.
    destruct (ToBoolean (isUserInitiatedDownload url)); [|discriminate].
    destruct (bool_decide (url ∈ interceptedUrls st)); [discriminate|].
    intros _. cbn [snd]. split; [reflexivity|]. apply Hresp, Hin.
  - intros Hnin. unfold marked. cbn [forget intercept interceptedUrls].
    apply set_eq. intros k.
    rewrite elem_of_difference, elem_of_union, elem_of_singleton.
    split; [tauto|]. intros Hk. split; [right; exact Hk|].
    intros ->. contradiction.
Qed.

End Listeners.

Section ListenersExamples.
Import DownloadInterceptor.

Lemma handleResponse_attachment_only_witness :
  handleResponse (str "https://site.com/get?id=1") attachment_headers unmarked
  = (true, intercept (str "https://site.com/get?id=1")
                     (Some (str "report.pdf")) unmarked) /\
  snd (handleResponse (str "https://site.com/get?id=1")
         [mkHeader (str "Content-Disposition") (str "inline")] unmarked)
  = unmarked.
Proof.
  split; [reflexivity|].
  apply (handleResponse_attachment_only (H := example_host)). reflexivity.
Defined.

Lemma intercepted_once_witness :
  let url := str "https://site.com/report.pdf" in
  let first := handleMainFrameRequest url unmarked in
  fst first = true /\
  handleResponse url attachment_headers (snd first) = (false, snd first) /\
  interceptedUrls (forget url (intercept url None unmarked))
  = interceptedUrls unmarked.
Proof.
  intros url first.
  destruct (intercepted_once (H := example_host) url None attachment_headers
              unmarked) as (_ & _ & _ & Hreq & Hforget).
  split; [reflexivity|]. split.
  - apply Hreq. reflexivity.
  - apply Hforget. apply not_elem_of_empty.
Defined.

End ListenersExamples.

(** ** The download monitor *)

Lemma split_on_absent (sep : ascii -> bool) (s : jsstring) :
  forallb (fun c => negb (sep c)) s = true -> split_on sep s = [s].
Proof.
  induction s as [|x s IH]; [reflexivity|].
  cbn [forallb split_on]. intros Hs. apply andb_true_iff in Hs as [Hx Hs].
  apply negb_true_iff in Hx. rewrite Hx, (IH Hs). reflexivity.
Qed.

Section Monitor.
Import DownloadMonitor.
Context `{Host}.

Lemma no_separator (filename : jsstring) :
  includes filename (str "/") || includes filename (str "\") = false ->
  forallb (fun c => negb (is_separator c)) filename = true.
Proof.
  intros Hf. apply orb_false_iff in Hf as [Hs Hb].
  apply (lacks_includes filename "/") in Hs.
  apply (lacks_includes filename "\") in Hb.
  unfold lacks in *. rewrite forallb_forall in *. intros c Hc.
  specialize (Hs c Hc). specialize (Hb c Hc). unfold is_separator, is_char.
  apply negb_true_iff in Hs, Hb. rewrite Hs, Hb. reflexivity.
Qed.

Lemma organized_skipped
    (storedRules storedFolder : jsval) (cancelled : bool)
    (downloadItem : DownloadItem) (st : state) :
  includes (item_filename downloadItem) (str "/") = true ->
  handleDownloadCreated storedRules storedFolder cancelled downloadItem st = st.
Proof.
  intros Hs. unfold handleDownloadCreated. rewrite Hs. reflexivity.
Qed.

(** X17.  The monitor does nothing for a download whose file name holds a
    slash or a backslash, and nothing for one whose target folder is the
    default folder [downloads]. *)
Theorem handleDownloadCreated_leaves_alone
    (storedRules storedFolder : jsval) (cancelled : bool)
    (downloadItem : DownloadItem) (st : state) :
  (includes (item_filename downloadItem) (str "/") = true \/
   includes (item_filename downloadItem) (str "\") = true \/
   FileMatcherService.determineTargetFolder storedRules storedFolder
     (item_url downloadItem) (Some (item_filename downloadItem))
   = DEFAULT_FOLDER) ->
  handleDownloadCreated storedRules storedFolder cancelled downloadItem st = st.
Proof.
  intros Hcase. unfold handleDownloadCreated.
  destruct (includes (item_filename downloadItem) (str "/")) eqn:Hs;
    [reflexivity|].
  destruct (includes (item_filename downloadItem) (str "\")) eqn:Hb;
    [reflexivity|].
  cbn [orb negb]. unfold organizeExistingDownload.
  destruct Hcase as [Hc | [Hc | Hc]]; try discriminate Hc.
  rewrite Hc, jsstring_eqb_refl. reflexivity.
Qed.

(** X18.  For a download with a bare file name whose target folder is not
    the default one, the monitor cancels it and, when the cancellation
    succeeds, starts it again from the same URL under the path of target
    folder and file name; the download so started is left alone by the
    monitor. *)
Theorem handleDownloadCreated_moves
    (storedRules storedFolder : jsval) (cancelled : bool)
    (downloadItem : DownloadItem) (st : state) :
  let filename := item_filename downloadItem in
  let targetFolder :=
    FileMatcherService.determineTargetFolder storedRules storedFolder
      (item_url downloadItem) (Some filename) in
  let request :=
    mkOptions (item_url downloadItem) (targetFolder ++ str "/" ++ filename)
              (str "uniquify") in
  let after :=
    handleDownloadCreated storedRules storedFolder cancelled downloadItem st in
  includes filename (str "/") = false ->
  includes filename (str "\") = false ->
  targetFolder <> DEFAULT_FOLDER ->
  cancels after = item_id downloadItem :: cancels st /\
  restarts after = (if cancelled then request :: restarts st else restarts st) /\
  (forall rules folder ok id st',
     handleDownloadCreated rules folder ok
       (mkItem id (item_url downloadItem) (opt_filename request)) st' = st').
Proof.
  intros filename targetFolder request after Hs Hb Hne.
  assert (pop (split_on is_separator filename) = filename) as Hpop.
  { rewrite split_on_absent; [reflexivity|].
    apply no_separator. rewrite Hs, Hb. reflexivity. }
  assert (jsstring_eqb targetFolder DEFAULT_FOLDER = false) as Hneq.
  { apply not_true_is_false. intros Heq. apply jsstring_eqb_spec in Heq.
    contradiction. }
  unfold after, handleDownloadCreated. fold filename. rewrite Hs, Hb.
  cbn [orb negb]. unfold organizeExistingDownload. fold filename targetFolder.
  rewrite Hneq, Hpop. cbn [negb].
  split; [destruct cancelled; reflexivity|].
  split; [destruct cancelled; reflexivity|].
  intros rules folder ok id0 st'.
  apply organized_skipped. cbn [item_filename opt_filename request].
  apply includes_spec. exists targetFolder, filename. reflexivity.
Qed.

End Monitor.

Section MonitorExamples.
Import DownloadMonitor.

Lemma handleDownloadCreated_leaves_alone_witness :
  let st := mkState [] [] in
  handleDownloadCreated JUndefined JUndefined true
    (mkItem 4 (str "https://site.com/a.pdf") (str "documents/a.pdf")) st = st /\
  handleDownloadCreated JUndefined JUndefined true
    (mkItem 5 (str "https://site.com/a.xyz") (str "a.xyz")) st = st.
Proof.
  intros st. split.
  - apply (handleDownloadCreated_leaves_alone (H := example_host)).
    left. reflexivity.
  - apply (handleDownloadCreated_leaves_alone (H := example_host)).
    right. right. reflexivity.
Defined.

Lemma handleDownloadCreated_moves_witness :
  let st := mkState [] [] in
  let item := mkItem 6 (str "https://site.com/a.pdf") (str "a.pdf") in
  cancels (handleDownloadCreated JUndefined JUndefined true item st) = [6%Z] /\
  restarts (handleDownloadCreated JUndefined JUndefined true item st)
  = [ mkOptions (str "https://site.com/a.pdf") (str "documents/a.pdf")
                (str "uniquify") ].
Proof.
  intros st item.
  destruct (handleDownloadCreated_moves (H := example_host)
              JUndefined JUndefined true item st) as (Hc & Hr & _);
    [reflexivity | reflexivity | discriminate |].
  split; [exact Hc | exact Hr].
Defined.

End MonitorExamples.

(** ** The options page *)

Lemma trim_trim (s : jsstring) : trim (trim s) = trim s.
Proof.
  unfold trim at 1. rewrite (trimStart_fixed (trim s) (trim_no_leading_ws s)).
  unfold trim. apply trimEnd_trimEnd.
Qed.

Lemma options_pattern_lower (s : jsstring) :
  OptionsSecurityUtils.isValidExtensionPattern (JStr (toLowerCase s)) =
  OptionsSecurityUtils.isValidExtensionPattern (JStr s).
Proof.
  cbn [OptionsSecurityUtils.isValidExtensionPattern].
  unfold toLowerCase. rewrite length_map.
  destruct (200 <? length s); [reflexivity|]. f_equal.
  - destruct s; reflexivity.
  - induction s as [|c s IH]; [reflexivity|]. cbn [map forallb].
    rewrite IH. f_equal.
    destruct c as [[] [] [] [] [] [] [] []]; reflexivity.
Qed.

Section Options.
Import OptionsManager.

(** X19.  Every rule the options page saves comes from one of the rule
    elements of the page: its id is [rule-] followed by the one-based
    position of that element among all elements, its pattern is the
    trimmed, lower-cased value of the element's pattern input and its
    folder the sanitized, trimmed value of the folder input.  The pattern
    passes the pattern test of the page; the folder name is non-empty, at
    most 100 characters long and free of reserved characters and adjacent
    periods.  Conversely every element whose trimmed inputs are not
    empty, whose pattern passes the test and whose sanitized folder is not
    empty is saved as such a rule. *)
Theorem collectRules_valid (index : nat)
    (elements : list (option (jsstring * jsstring))) :
  (forall r,
     In r (collectRules index elements) ->
     (OptionsSecurityUtils.isValidExtensionPattern (JStr (extension r)) = true /\
      toLowerCase (extension r) = extension r /\
      trim (extension r) = extension r) /\
     (foldername r <> [] /\ length (foldername r) <= 100 /\
      includes (foldername r) (str "..") = false /\
      forall c, In c (foldername r) -> SecurityUtils.reserved c = false) /\
     exists k extensionValue folderValue,
       nth_error elements k = Some (Some (extensionValue, folderValue)) /\
       id r = str "rule-" ++ decimal (index + k + 1) /\
       extension r = toLowerCase (trim extensionValue) /\
       foldername r =
       OptionsSecurityUtils.sanitizeFolderName (JStr (trim folderValue))) /\
  (forall k extensionValue folderValue,
     nth_error elements k = Some (Some (extensionValue, folderValue)) ->
     trim extensionValue <> [] -> trim folderValue <> [] ->
     OptionsSecurityUtils.isValidExtensionPattern (JStr (trim extensionValue))
     = true ->
     OptionsSecurityUtils.sanitizeFolderName (JStr (trim folderValue)) <> [] ->
     In {| id := str "rule-" ++ decimal (index + k + 1);
           extension := toLowerCase (trim extensionValue);
           foldername :=
             OptionsSecurityUtils.sanitizeFolderName (JStr (trim folderValue)) |}
        (collectRules index elements)).
Proof.
  split.
  - intros r. revert index.
    induction elements as [|el rest IH]; intros index Hr; [destruct Hr|].
    assert (In r (collectRules (S index) rest) ->
            (OptionsSecurityUtils.isValidExtensionPattern (JStr (extension r)) = true /\
             toLowerCase (extension r) = extension r /\
             trim (extension r) = extension r) /\
            (foldername r <> [] /\ length (foldername r) <= 100 /\
             includes (foldername r) (str "..") = false /\
             forall c, In c (foldername r) -> SecurityUtils.reserved c = false) /\
            exists k extensionValue folderValue,
              nth_error (el :: rest) k = Some (Some (extensionValue, folderValue)) /\
              id r = str "rule-" ++ decimal (index + k + 1) /\
              extension r = toLowerCase (trim extensionValue) /\
              foldername r =
              OptionsSecurityUtils.sanitizeFolderName (JStr (trim folderValue)))
      as Hrest.
    { intros Hin.
      destruct (IH (S index) Hin) as (He & Hf & k & ev & fv & Hk & Hid & Hx).
      split; [exact He|]. split; [exact Hf|]. exists (S k), ev, fv.
      split; [exact Hk|]. split; [|exact Hx].
      replace (index + S k + 1) with (S index + k + 1) by lia. exact Hid. }
    cbn [collectRules] in Hr. destruct el as [[extensionValue folderValue]|];
      [|exact (Hrest Hr)].
    destruct (truthy (trim extensionValue) && truthy (trim folderValue)
              && OptionsSecurityUtils.isValidExtensionPattern
                   (JStr (trim extensionValue))) eqn:Hok; [|exact (Hrest Hr)].
    destruct (truthy (OptionsSecurityUtils.sanitizeFolderName
                        (JStr (trim folderValue)))) eqn:Hfold; [|exact (Hrest Hr)].
    destruct Hr as [<- | Hr]; [|exact (Hrest Hr)].
    cbn [extension foldername id].
    apply andb_true_iff in Hok as [_ Hvalid].
    destruct (sanitize_chain_clean (trim folderValue)) as (Hres & Hdd & Hlen & _).
    split; [|split].
    + split; [rewrite options_pattern_lower; exact Hvalid|].
      split; [apply toLowerCase_idem|].
      rewrite trim_lower, trim_trim. reflexivity.
    + cbn [OptionsSecurityUtils.sanitizeFolderName] in *.
      split; [destruct (SecurityUtils.sanitize_chain (trim folderValue));
              [discriminate Hfold | discriminate]|].
      split; [exact Hlen|]. split; [rewrite includes_dotdot; exact Hdd|].
      intros c Hc. rewrite forallb_forall in Hres. apply negb_true_iff, Hres, Hc.
    + exists 0, extensionValue, folderValue.
      split; [reflexivity|]. split; [|split; reflexivity].
      replace (index + 0 + 1) with (index + 1) by lia. reflexivity.
  - intros k extensionValue folderValue Hk He Hf Hvalid Hfold. revert index k Hk.
    induction elements as [|el rest IH]; intros index k Hk;
      [destruct k; discriminate Hk|].
    destruct k as [|k].
    + cbn [nth_error] in Hk. injection Hk as ->. cbn [collectRules].
      assert (truthy (trim extensionValue) = true) as ->
        by (destruct (trim extensionValue); [congruence | reflexivity]).
      assert (truthy (trim folderValue) = true) as ->
        by (destruct (trim folderValue); [congruence | reflexivity]).
      rewrite Hvalid. cbn [andb].
      assert (truthy (OptionsSecurityUtils.sanitizeFolderName
                        (JStr (trim folderValue))) = true) as ->
        by (destruct (OptionsSecurityUtils.sanitizeFolderName
                        (JStr (trim folderValue))); [congruence | reflexivity]).
      left. replace (index + 0 + 1) with (index + 1) by lia. reflexivity.
    + cbn [nth_error] in Hk. specialize (IH (S index) k Hk).
      replace (index + S k + 1) with (S index + k + 1) by lia.
      cbn [collectRules]. destruct el as [[ev fv]|]; [|exact IH].
      destruct (truthy (trim ev) && truthy (trim fv)
                && OptionsSecurityUtils.isValidExtensionPattern (JStr (trim ev)));
        [|exact IH].
      destruct (truthy (OptionsSecurityUtils.sanitizeFolderName (JStr (trim fv))));
        [right; exact IH | exact IH].
Qed.

Lemma collectRules_patterns (index : nat)
    (elements : list (option (jsstring * jsstring))) :
  Forall (fun r => OptionsSecurityUtils.isValidExtensionPattern
                     (JStr (extension r)) = true)
         (collectRules index elements).
Proof.
  revert index. induction elements as [|el rest IH]; intros index; [constructor|].
  cbn [collectRules]. destruct el as [[extensionValue folderValue]|]; [|apply IH].
  destruct (truthy (trim extensionValue) && truthy (trim folderValue)
            && OptionsSecurityUtils.isValidExtensionPattern
                 (JStr (trim extensionValue))) eqn:Hok; [|apply IH].
  destruct (truthy (OptionsSecurityUtils.sanitizeFolderName
                      (JStr (trim folderValue)))); [|apply IH].
  apply andb_true_iff in Hok as [_ Hvalid].
  constructor; [|apply IH]. cbn [extension].
  rewrite options_pattern_lower. exact Hvalid.
Qed.

Lemma collectRules_valid_witness :
  let elements :=
    [ None; Some (str " JPG, png ", str " pics "); Some (str "a/b", str "x");
      Some (str "zip", str "packed"); Some (str "gz", str "..") ] in
  collectRules 0 elements =
  [ mkRule (str "rule-2") (str "jpg, png") (str "pics");
    mkRule (str "rule-4") (str "zip") (str "packed") ] /\
  OptionsSecurityUtils.isValidExtensionPattern (JStr (str "jpg, png")) = true /\
  In (mkRule (str "rule-4") (str "zip") (str "packed")) (collectRules 0 elements).
Proof.
  intros elements.
  destruct (collectRules_valid 0 elements) as [Hsound Hcomplete].
  split; [reflexivity|]. split.
  - apply (Hsound (mkRule (str "rule-2") (str "jpg, png") (str "pics"))).
    left. reflexivity.
  - apply (Hcomplete 3 (str "zip") (str "packed"));
      [reflexivity | discriminate | discriminate | reflexivity | discriminate].
Defined.

Lemma sanitizeRule_of_saved `{Host} (r : Rule) :
  OptionsSecurityUtils.isValidExtensionPattern (JStr (extension r)) = true ->
  has_valid_extension (rule_object r) = spaceless (extension r) /\
  (spaceless (extension r) = true ->
   extension (StorageManager.sanitizeRule (rule_object r)) = extension r) /\
  foldername (StorageManager.sanitizeRule (rule_object r))
  = SecurityUtils.sanitizeFolderName (JStr (foldername r)).
Proof.
  intros Hv.
  assert (has_valid_extension (rule_object r) = spaceless (extension r)) as Hhas.
  { unfold has_valid_extension.
    change (get_prop (rule_object r) (str "extension")) with (JStr (extension r)).
    rewrite pattern_test_spaceless, Hv. reflexivity. }
  split; [exact Hhas|]. split; [|reflexivity].
  intros Hs. rewrite Hs in Hhas.
  unfold has_valid_extension in Hhas.
  change (get_prop (rule_object r) (str "extension")) with (JStr (extension r))
    in Hhas.
  unfold StorageManager.sanitizeRule. cbn [extension].
  change (get_prop (rule_object r) (str "extension")) with (JStr (extension r)).
  cbv beta iota. rewrite Hhas. reflexivity.
Qed.

(** X20.  Of the rules saved by the options page, the background script
    reads back exactly those whose pattern holds no white space, in the
    same order, with the same pattern and with the folder name sanitized
    once more. *)
Theorem saved_rules_read_back `{Host} (index : nat)
    (elements : list (option (jsstring * jsstring))) :
  let saved := collectRules index elements in
  let kept := List.filter (fun r => spaceless (extension r)) saved in
  let read := StorageManager.getRules (JArr (map rule_object saved)) in
  map extension read = map extension kept /\
  map foldername read =
  map (fun r => SecurityUtils.sanitizeFolderName (JStr (foldername r))) kept.
Proof.
  intros saved kept read. unfold read, kept.
  rewrite getRules_filter_map.
  pose proof (collectRules_patterns index elements) as Hall. fold saved in Hall.
  induction Hall as [|r rules Hv _ IH]; [split; reflexivity|].
  destruct (sanitizeRule_of_saved r Hv) as (Hhas & Hext & Hfold).
  destruct IH as [IHe IHf].
  cbn [map List.filter]. rewrite Hhas.
  destruct (spaceless (extension r)) eqn:Hs; cbn [map].
  - rewrite (Hext eq_refl), Hfold, IHe, IHf. split; reflexivity.
  - split; [exact IHe | exact IHf].
Qed.

Lemma trimEnd_app (a e : jsstring) :
  e <> [] -> trimEnd e = e -> trimEnd (a ++ e) = a ++ e.
Proof.
  intros Hne He.
  assert (no_leading_ws (rev e) = true) as Hl.
  { unfold trimEnd in He. apply (f_equal (@rev ascii)) in He.
    rewrite rev_involutive in He. rewrite <- He.
    apply trimStart_no_leading_ws. }
  unfold trimEnd. rewrite rev_app_distr, trimStart_fixed.
  - rewrite <- rev_app_distr. apply rev_involutive.
  - destruct (rev e) as [|c u] eqn:E; [|exact Hl].
    apply (f_equal (@rev ascii)) in E. rewrite rev_involutive in E.
    cbn in E. congruence.
Qed.

Lemma trim_fixed_parts (e : jsstring) :
  trim e = e -> trimStart e = e /\ trimEnd e = e.
Proof.
  intros He.
  assert (length (trimStart e) = length e) as Hl.
  { pose proof (trimStart_length e). pose proof (trimEnd_length (trimStart e)).
    unfold trim in He. apply (f_equal (@length ascii)) in He. lia. }
  assert (trimStart e = e) as Hs.
  { destruct (trimStart_suffix e) as [p [E _]].
    assert (p = []) as ->.
    { apply length_zero_iff_nil. rewrite E in Hl at 2. rewrite length_app in Hl. lia. }
    symmetry. exact E. }
  split; [exact Hs|]. unfold trim in He. rewrite Hs in He. exact He.
Qed.

Lemma includes_self (e : jsstring) : includes e e = true.
Proof. apply includes_spec. exists [], []. rewrite app_nil_r. reflexivity. Qed.

(** X21.  Dropping extensions on a pattern input leaves the input as it is
    when its trimmed value already holds them; in every case the new value
    holds them; and dropping the same trimmed extensions a second time
    changes nothing. *)
Theorem drop_no_duplicate (value extensions : jsstring) :
  extensions <> [] ->
  let dropped := drop value extensions in
  (includes (trim value) extensions = true -> dropped = value) /\
  includes dropped extensions = true /\
  (trim extensions = extensions -> drop dropped extensions = dropped).
Proof.
  intros Hne dropped.
  assert (truthy extensions = true) as Ht by (destruct extensions; [congruence | reflexivity]).
  unfold dropped, drop. rewrite Ht.
  destruct (truthy (trim value)) eqn:Hcv.
  - destruct (includes (trim value) extensions) eqn:Hinc; cbn [negb andb].
    + split; [reflexivity|]. split.
      * apply includes_spec in Hinc as (p & q & Hpq).
        destruct (trim_decompose value) as (w1 & w2 & E & _).
        apply includes_spec. exists (w1 ++ p), (q ++ w2).
        rewrite E at 1. rewrite Hpq, <- !app_assoc. reflexivity.
      * intros _. rewrite Hcv, Hinc. reflexivity.
    + split; [discriminate|]. split.
      * apply includes_spec. exists (trim value ++ str ","), [].
        rewrite app_nil_r, <- app_assoc. reflexivity.
      * intros He. destruct (trim_fixed_parts extensions He) as [_ Hend].
        assert (trim (trim value ++ str "," ++ extensions)
                = trim value ++ str "," ++ extensions) as Hfix.
        { unfold trim at 1. rewrite trimStart_fixed.
          - rewrite app_assoc. apply trimEnd_app; assumption.
          - pose proof (trim_no_leading_ws value) as Hl.
            destruct (trim value); [discriminate Hcv | exact Hl]. }
        rewrite Hfix.
        assert (includes (trim value ++ str "," ++ extensions) extensions = true)
          as Hin.
        { apply includes_spec. exists (trim value ++ str ","), [].
          rewrite app_nil_r, <- app_assoc. reflexivity. }
        rewrite Hin. cbn [negb]. rewrite andb_false_r.
        destruct (trim value); [discriminate Hcv | reflexivity].
  - cbn [andb negb]. split.
    + intros Hinc. destruct (trim value); [|discriminate Hcv].
      apply includes_spec in Hinc as (p & q & Hpq).
      destruct p; [|discriminate]. destruct extensions; [congruence | discriminate].
    + split; [apply includes_self|].
      intros He. rewrite He, Ht, includes_self. reflexivity.
Qed.

Lemma drop_no_duplicate_witness :
  drop (str "jpg") (str "png,gif") = str "jpg,png,gif" /\
  drop (str "jpg,png,gif") (str "png,gif") = str "jpg,png,gif" /\
  drop (str " jpg,png,gif ") (str "png,gif") = str " jpg,png,gif ".
Proof.
  destruct (drop_no_duplicate (str "jpg") (str "png,gif")) as (_ & _ & Hagain);
    [discriminate|].
  destruct (drop_no_duplicate (str " jpg,png,gif ") (str "png,gif"))
    as (Hkeep & _); [discriminate|].
  split; [reflexivity|]. split.
  - apply Hagain. reflexivity.
  - apply Hkeep. reflexivity.
Defined.

(** X22.  The folder suggested for a list of extensions does not depend on
    letter case, and is a name that sanitizing and trimming leave
    unchanged. *)
Theorem suggestFolderName_stable (extensions : jsstring) :
  suggestFolderName (toLowerCase extensions) = suggestFolderName extensions /\
  OptionsSecurityUtils.sanitizeFolderName (JStr (suggestFolderName extensions))
  = suggestFolderName extensions /\
  trim (suggestFolderName extensions) = suggestFolderName extensions.
Proof.
  split.
  - unfold suggestFolderName. rewrite toLowerCase_idem. reflexivity.
  - unfold suggestFolderName.
    repeat match goal with
           | |- context [if ?b then _ else _] => destruct b
           end; split; reflexivity.
Qed.

Lemma sanitizeFolderName_fixed (r : jsstring) :
  clean r -> r <> [] ->
  startsWith r (str ".") = false -> trimEnd r = r ->
  SecurityUtils.sanitizeFolderName (JStr r) = r.
Proof.
  intros Hclean Hne Hdot Hend.
  cbn [SecurityUtils.sanitizeFolderName].
  rewrite (sanitize_chain_of_clean r Hclean).
  destruct Hclean as (_ & _ & Hlen & Hws).
  assert (SecurityUtils.remove_leading_dot r = r) as ->.
  { destruct r as [|c t]; [reflexivity|].
    cbn [startsWith str list_ascii_of_string] in Hdot.
    rewrite andb_true_r in Hdot.
    cbn [SecurityUtils.remove_leading_dot]. unfold is_char.
    rewrite Ascii.eqb_sym, Hdot. reflexivity. }
  unfold trim. rewrite (trimStart_fixed r Hws), Hend.
  unfold substring_to. rewrite firstn_all2 by exact Hlen.
  unfold or_else. destruct r; [congruence | reflexivity].
Qed.

(** X23.  The default folder saved by the options page is never empty, at
    most 100 characters long and free of reserved characters and adjacent
    periods; a blank input saves [downloads]; and the background script
    reads the saved folder back unchanged when it neither begins with a
    period nor ends with white space. *)
Theorem savedDefaultFolder_read_back (value : jsstring) :
  let saved := savedDefaultFolder value in
  (saved <> [] /\ length saved <= 100 /\
   includes saved (str "..") = false /\
   forall c, In c saved -> SecurityUtils.reserved c = false) /\
  (trim value = [] -> saved = str "downloads") /\
  (startsWith saved (str ".") = false -> trimEnd saved = saved ->
   StorageManager.getDefaultFolder (JStr saved) = saved).
Proof.
  intros saved.
  assert (saved = SecurityUtils.sanitizeFolderName (JStr (trim value))) as Hs
    by reflexivity.
  destruct (sanitizeFolderName_clean (JStr (trim value))) as [Hclean Hne].
  rewrite <- Hs in Hclean, Hne.
  split; [|split].
  - destruct Hclean as (Hr & Hd & Hlen & _).
    split; [exact Hne|]. split; [exact Hlen|].
    split; [rewrite includes_dotdot; exact Hd|].
    intros c Hc. rewrite forallb_forall in Hr. apply negb_true_iff, Hr, Hc.
  - intros Hempty. rewrite Hs, Hempty. reflexivity.
  - intros Hdot Hend. rewrite getDefaultFolder_sanitized.
    apply sanitizeFolderName_fixed; assumption.
Qed.

Lemma savedDefaultFolder_read_back_witness :
  savedDefaultFolder (str "   ") = str "downloads" /\
  savedDefaultFolder (str " my/files ") = str "myfiles" /\
  StorageManager.getDefaultFolder
    (JStr (savedDefaultFolder (str " my/files "))) = str "myfiles".
Proof.
  destruct (savedDefaultFolder_read_back (str "   "))
    as (_ & Hempty & _).
  destruct (savedDefaultFolder_read_back (str " my/files "))
    as (_ & _ & Hback).
  split; [apply Hempty; reflexivity|]. split; [reflexivity|].
  apply Hback; reflexivity.
Defined.

End Options.

(** ** Routing by rules of plain terms *)

Lemma join_split (c : ascii) (s : jsstring) : join [c] (split c s) = s.
Proof.
  induction s as [|x s IH]; [reflexivity|]. cbn [split].
  pose proof (split_nonempty c s) as Hne.
  destruct (Ascii.eqb x c) eqn:Hx.
  - apply Ascii.eqb_eq in Hx. subst x.
    destruct (split c s) as [|p ps]; [congruence|].
    change (join [c] ([] :: p :: ps)) with (c :: join [c] (p :: ps)).
    rewrite IH. reflexivity.
  - destruct (split c s) as [|p ps]; [congruence|].
    rewrite <- IH. destruct ps; reflexivity.
Qed.

Section PlainRouting.
Import FileMatcherService.
Context `{Host}.

Lemma matches_plain_terms (p f : jsstring) :
  plain_terms p ->
  matches p f = names_extension p (getFileExtension f).
Proof.
  intros Hp. unfold names_extension.
  rewrite <- (matches_terms (split "," p) f);
    [change (str ",") with [","%char]; rewrite join_split; reflexivity
    | apply split_nonempty | exact Hp].
Qed.

(** X24.  When every stored rule is a comma-separated list of non-empty
    terms without white space and without syntax characters of regular
    expressions, the target folder is the folder of the first rule one of
    whose terms equals the extension of the file name, letter case apart,
    and the default folder when there is none.  The default rules are of
    this kind. *)
Theorem plain_rules_route
    (storedRules storedFolder : jsval) (url : jsstring)
    (suggestedFilename : option jsstring) :
  let rules := StorageManager.getRules storedRules in
  let filename :=
    or_else (default [] suggestedFilename) (getFilenameFromUrl url) in
  Forall (fun r => plain_terms (extension r)) rules ->
  determineTargetFolder storedRules storedFolder url suggestedFilename =
  match List.find (fun r => names_extension (extension r)
                              (getFileExtension filename)) rules with
  | Some r => foldername r
  | None => StorageManager.getDefaultFolder storedFolder
  end.
Proof.
  intros rules filename Hall. unfold determineTargetFolder.
  fold rules filename.
  induction Hall as [|r rest Hr _ IH]; [reflexivity|].
  cbn [resolveFolder List.find]. rewrite (matches_plain_terms _ _ Hr).
  destruct (names_extension (extension r) (getFileExtension filename));
    [reflexivity | exact IH].
Qed.

Lemma DEFAULT_RULES_plain : Forall (fun r => plain_terms (extension r)) DEFAULT_RULES.
Proof.
  unfold plain_terms.
  repeat (constructor; [repeat (constructor; [split; [discriminate | reflexivity]|]);
                        constructor|]).
  constructor.
Qed.

End PlainRouting.

Section PlainRoutingExamples.
Import FileMatcherService.

Lemma plain_rules_route_witness :
  determineTargetFolder (H := example_host) JUndefined JUndefined
    (str "https://site.com/get?id=7") (Some (str "Holiday.JPEG")) = str "images" /\
  determineTargetFolder (H := example_host) JNull (JStr (str "inbox"))
    (str "https://site.com/notes.md") None = str "inbox".
Proof.
  split.
  - rewrite (plain_rules_route (H := example_host) JUndefined JUndefined
               (str "https://site.com/get?id=7") (Some (str "Holiday.JPEG")));
      [reflexivity | exact DEFAULT_RULES_plain].
  - rewrite (plain_rules_route (H := example_host) JNull (JStr (str "inbox"))
               (str "https://site.com/notes.md") None);
      [reflexivity | exact DEFAULT_RULES_plain].
Defined.

End PlainRoutingExamples.
